(** * slogkit / slogsyslog / syslog: the SYSLOG client, embedded and verified

    This development embeds the Go package [syslog] of hlandau/slogkit
    (files [severity/facility], [protocol.go], [syslog.go] and the unix
    target resolver) and proves the properties its design document states
    about it.

    Conventions of the embedding:
    - a Go [string] and a Go [[]byte] are lists of 8-bit characters
      ([ascii]); a string literal is written [str "..."];
    - a Go [int] is a [Z]; where the source relies on machine arithmetic
      the 64-bit wrap-around is written out ([wrap64]);
    - the named integer types [Severity], [Facility], [Protocol], [Framing]
      and [BOMMode] are [Z] with the constants of their [iota] blocks;
    - a Go [error] result is an [option error] ([None] is [nil]);
    - a run-time panic is the outcome [Panic];
    - everything the package obtains from outside (clock, dialling, the
      transport's writes, host name, process id, slice growth) is read from
      an environment [Env], and every such interaction is logged in a
      chronological trace of [event]s. *)

From Stdlib Require Import ZArith List Ascii String Lia Bool.
From stdpp Require Import base list.
Import ListNotations.

Local Open Scope Z_scope.

(** ** Bytes and strings *)

Definition gostring := list ascii.

Definition str (s : string) : gostring := list_ascii_of_string s.

Definition byte_of_Z (z : Z) : ascii := ascii_of_N (Z.to_N (z mod 256)).

Definition Z_of_byte (c : ascii) : Z := Z.of_N (N_of_ascii c).

Fixpoint gostring_eqb (a b : gostring) : bool :=
  match a, b with
  | [], [] => true
  | x :: a', y :: b' => Ascii.eqb x y && gostring_eqb a' b'
  | _, _ => false
  end.

(** Go's [int] on the 64-bit platforms the package is built for. *)
Definition wrap64 (x : Z) : Z := (x + 2 ^ 63) mod 2 ^ 64 - 2 ^ 63.

(** ** Severity and facility (type declarations and [iota] blocks) *)

Definition Severity := Z.
Definition Facility := Z.

Definition SeverityEmerg : Severity := 0.
Definition SeverityAlert : Severity := 1.
Definition SeverityCrit : Severity := 2.
Definition SeverityErr : Severity := 3.
Definition SeverityWarning : Severity := 4.
Definition SeverityNotice : Severity := 5.
Definition SeverityInfo : Severity := 6.
Definition SeverityDebug : Severity := 7.

Definition FacilityKern : Facility := 0.
Definition FacilityUser : Facility := 1.
Definition FacilityMail : Facility := 2.
Definition FacilityDaemon : Facility := 3.
Definition FacilityAuth : Facility := 4.
Definition FacilitySyslog : Facility := 5.
Definition FacilityLpr : Facility := 6.
Definition FacilityNews : Facility := 7.
Definition FacilityUUCP : Facility := 8.
Definition FacilityCron : Facility := 9.
Definition FacilityAuthPriv : Facility := 10.
Definition FacilityFtp : Facility := 11.
Definition FacilityNtp : Facility := 12.
Definition FacilityLogAudit : Facility := 13.
Definition FacilityLogAlert : Facility := 14.
Definition FacilityClock : Facility := 15.
Definition FacilityLocal0 : Facility := 16.
Definition FacilityLocal1 : Facility := 17.
Definition FacilityLocal2 : Facility := 18.
Definition FacilityLocal3 : Facility := 19.
Definition FacilityLocal4 : Facility := 20.
Definition FacilityLocal5 : Facility := 21.
Definition FacilityLocal6 : Facility := 22.
Definition FacilityLocal7 : Facility := 23.

(** [makePri] (syslog.go):
    [(int(severity) & 7) + ((int(facility) << 3) & 0xf8)]. *)
Definition makePri (severity : Severity) (facility : Facility) : Z :=
  wrap64 (Z.land severity 7 + Z.land (wrap64 (Z.shiftl facility 3)) 248).

Definition makePri_check (s f : Z) : bool :=
  (makePri s f =? Z.lor (Z.land s 7) (Z.shiftl (Z.land f 31) 3))
  && (0 <=? makePri s f) && (makePri s f <=? 191).


(** ** Errors

    The package's own sentinel errors, the configuration error of the target
    resolver, and the errors handed back by the outside world (a failed dial
    or transport write), which the package only passes on. *)
Inductive error :=
| errBadSeverity
| errBadFacility
| errClosed
| errReconnectBackoff
| errNoAddress
| errExternal (code : nat).

(** ** Case-insensitive parsing (severity/facility file) *)

Definition isASCII (c : ascii) : bool := Z_of_byte c <? 128.

Definition isUpperASCII (c : ascii) : bool :=
  (65 <=? Z_of_byte c) && (Z_of_byte c <=? 90).

Definition isLowerASCII (c : ascii) : bool :=
  (97 <=? Z_of_byte c) && (Z_of_byte c <=? 122).

(** [c += 'a' - 'A'] on an upper-case ASCII letter. *)
Definition lowerASCII (c : ascii) : ascii :=
  if isUpperASCII c then byte_of_Z (Z_of_byte c + 32) else c.

Definition upperASCII (c : ascii) : ascii :=
  if isLowerASCII c then byte_of_Z (Z_of_byte c - 32) else c.

Section Parsing.

(** Go's [strings.Map(unicode.ToLower, s)], the path [strings.ToLower]
    takes for a string with a byte outside ASCII. It belongs to Go's
    library and its Unicode tables, not to this package. *)
Variable unicodeLower : gostring -> gostring.

(** Go's [strings.ToLower]: ASCII-only strings are handled byte by byte
    (and returned as they are when no upper-case letter occurs). *)
Definition ToLower (s : gostring) : gostring :=
  if forallb isASCII s then
    if existsb isUpperASCII s then map lowerASCII s else s
  else unicodeLower s.

Definition ParseSeverity (s : gostring) : Severity * option error :=
  let l := ToLower s in
  if gostring_eqb l (str "emergency") || gostring_eqb l (str "emerg")
  then (SeverityEmerg, None)
  else if gostring_eqb l (str "alert") then (SeverityAlert, None)
  else if gostring_eqb l (str "critical") || gostring_eqb l (str "crit")
  then (SeverityCrit, None)
  else if gostring_eqb l (str "error") || gostring_eqb l (str "err")
  then (SeverityErr, None)
  else if gostring_eqb l (str "warning") || gostring_eqb l (str "warn")
  then (SeverityWarning, None)
  else if gostring_eqb l (str "notice") then (SeverityNotice, None)
  else if gostring_eqb l (str "info") then (SeverityInfo, None)
  else if gostring_eqb l (str "debug") then (SeverityDebug, None)
  else (SeverityDebug, Some errBadSeverity).

Definition ParseFacility (s : gostring) : Facility * option error :=
  let l := ToLower s in
  if gostring_eqb l (str "kern") || gostring_eqb l (str "kernel")
  then (FacilityKern, None)
  else if gostring_eqb l (str "user") then (FacilityUser, None)
  else if gostring_eqb l (str "mail") then (FacilityMail, None)
  else if gostring_eqb l (str "daemon") then (FacilityDaemon, None)
  else if gostring_eqb l (str "auth") then (FacilityAuth, None)
  else if gostring_eqb l (str "syslog") then (FacilitySyslog, None)
  else if gostring_eqb l (str "lpr") then (FacilityLpr, None)
  else if gostring_eqb l (str "news") then (FacilityNews, None)
  else if gostring_eqb l (str "uucp") then (FacilityUUCP, None)
  else if gostring_eqb l (str "cron") then (FacilityCron, None)
  else if gostring_eqb l (str "authpriv") then (FacilityAuthPriv, None)
  else if gostring_eqb l (str "ftp") then (FacilityFtp, None)
  else if gostring_eqb l (str "ntp") then (FacilityNtp, None)
  else if gostring_eqb l (str "logaudit") then (FacilityLogAudit, None)
  else if gostring_eqb l (str "logalert") then (FacilityLogAlert, None)
  else if gostring_eqb l (str "clock") then (FacilityClock, None)
  else if gostring_eqb l (str "local0") then (FacilityLocal0, None)
  else if gostring_eqb l (str "local1") then (FacilityLocal1, None)
  else if gostring_eqb l (str "local2") then (FacilityLocal2, None)
  else if gostring_eqb l (str "local3") then (FacilityLocal3, None)
  else if gostring_eqb l (str "local4") then (FacilityLocal4, None)
  else if gostring_eqb l (str "local5") then (FacilityLocal5, None)
  else if gostring_eqb l (str "local6") then (FacilityLocal6, None)
  else if gostring_eqb l (str "local7") then (FacilityLocal7, None)
  else (FacilityLocal7, Some errBadFacility).

End Parsing.

(** The enumeration names as the design lists them, each with its value. *)
Definition severityNames : list (gostring * Severity) :=
  [ (str "emergency", SeverityEmerg); (str "emerg", SeverityEmerg);
    (str "alert", SeverityAlert);
    (str "critical", SeverityCrit); (str "crit", SeverityCrit);
    (str "error", SeverityErr); (str "err", SeverityErr);
    (str "warning", SeverityWarning); (str "warn", SeverityWarning);
    (str "notice", SeverityNotice); (str "info", SeverityInfo);
    (str "debug", SeverityDebug) ].

Definition facilityNames : list (gostring * Facility) :=
  [ (str "kern", FacilityKern); (str "kernel", FacilityKern);
    (str "user", FacilityUser); (str "mail", FacilityMail);
    (str "daemon", FacilityDaemon); (str "auth", FacilityAuth);
    (str "syslog", FacilitySyslog); (str "lpr", FacilityLpr);
    (str "news", FacilityNews); (str "uucp", FacilityUUCP);
    (str "cron", FacilityCron); (str "authpriv", FacilityAuthPriv);
    (str "ftp", FacilityFtp); (str "ntp", FacilityNtp);
    (str "logaudit", FacilityLogAudit); (str "logalert", FacilityLogAlert);
    (str "clock", FacilityClock);
    (str "local0", FacilityLocal0); (str "local1", FacilityLocal1);
    (str "local2", FacilityLocal2); (str "local3", FacilityLocal3);
    (str "local4", FacilityLocal4); (str "local5", FacilityLocal5);
    (str "local6", FacilityLocal6); (str "local7", FacilityLocal7) ].

(** [s] spells the lower-case name [n] in some letter case: the same
    length, and at each position the same byte or the upper-case form of a
    lower-case letter. *)
Fixpoint caseVariant (s n : gostring) : bool :=
  match s, n with
  | [], [] => true
  | c :: s', d :: n' =>
      (Ascii.eqb c d || (isLowerASCII d && Ascii.eqb c (upperASCII d)))
      && caseVariant s' n'
  | _, _ => false
  end.

(** A name without upper-case letters and without bytes outside ASCII. *)
Definition lowerName (n : gostring) : bool :=
  forallb (fun d => isASCII d && negb (isUpperASCII d)) n.

(** No name of the table is spelled by [s] in any letter case. *)
Definition noVariantOf {V} (names : list (gostring * V)) (s : gostring) : bool :=
  forallb (fun nv => negb (caseVariant s (fst nv))) names.

(** ** Decimal formatting ([%d] of [fmt], [appendInt] of [time]) *)

Definition digitChar (d : Z) : ascii := byte_of_Z (48 + d).

Fixpoint fmtUint_aux (fuel : nat) (n : Z) (acc : gostring) : gostring :=
  match fuel with
  | O => acc
  | S k =>
      let acc' := digitChar (n mod 10) :: acc in
      if n / 10 =? 0 then acc' else fmtUint_aux k (n / 10) acc'
  end.

(** Decimal digits of [n >= 0]; a number has at most [log2 n + 1] of them. *)
Definition fmtUint (n : Z) : gostring :=
  fmtUint_aux (S (Z.to_nat (Z.log2 n))) n [].

(** The verb [%d] applied to an [int]. *)
Definition fmtInt (n : Z) : gostring :=
  if n <? 0 then str "-" ++ fmtUint (- n) else fmtUint n.

(** [appendInt] of Go's [time] package: sign, then the digits zero-padded
    to [width]. *)
Definition appendInt (x : Z) (width : nat) : gostring :=
  let ds := fmtUint (Z.abs x) in
  (if x <? 0 then str "-" else [])
    ++ replicate (width - length ds)%nat "0"%char ++ ds.

(** ** Time (Go's [time.Time], as far as this package uses it)

    An instant is the number of seconds and nanoseconds elapsed since
    January 1, year 1, 00:00:00 UTC (Go's zero [Time]) together with the
    offset, in seconds east of UTC, of the zone it is presented in. A
    [Duration] is a number of nanoseconds. *)
Record Time := mkTime { t_sec : Z; t_nsec : Z; t_off : Z }.

Definition Duration := Z.

Definition zeroTime : Time := mkTime 0 0 0.

Definition IsZero (t : Time) : bool := (t_sec t =? 0) && (t_nsec t =? 0).

Definition Before (t u : Time) : bool :=
  (t_sec t <? t_sec u) || ((t_sec t =? t_sec u) && (t_nsec t <? t_nsec u)).

Definition Add (t : Time) (d : Duration) : Time :=
  let dsec := Z.quot d 1000000000 in
  let nsec := t_nsec t + Z.rem d 1000000000 in
  if 1000000000 <=? nsec then mkTime (t_sec t + dsec + 1) (nsec - 1000000000) (t_off t)
  else if nsec <? 0 then mkTime (t_sec t + dsec - 1) (nsec + 1000000000) (t_off t)
  else mkTime (t_sec t + dsec) nsec (t_off t).

(** Days since January 1, year 1 of the proleptic Gregorian civil date
    (year, month, day). *)
Definition days_of_civil (y m d : Z) : Z :=
  let y' := if m <=? 2 then y - 1 else y in
  let era := y' / 400 in
  let yoe := y' - era * 400 in
  let mp := if 2 <? m then m - 3 else m + 9 in
  let doy := (153 * mp + 2) / 5 + d - 1 in
  let doe := yoe * 365 + yoe / 4 - yoe / 100 + doy in
  era * 146097 + doe - 306.

(** The civil date (year, month, day) of a day number. *)
Definition civil_of_days (days : Z) : Z * Z * Z :=
  let z := days + 306 in
  let era := z / 146097 in
  let doe := z mod 146097 in
  let yoe := (doe - doe / 1460 + doe / 36524 - doe / 146096) / 365 in
  let doy := doe - (365 * yoe + yoe / 4 - yoe / 100) in
  let mp := (5 * doy + 2) / 153 in
  let d := doy - (153 * mp + 2) / 5 + 1 in
  let m := if mp <? 10 then mp + 3 else mp - 9 in
  let y := yoe + era * 400 + (if m <=? 2 then 1 else 0) in
  (y, m, d).

(** [time.Date] for in-range fields and a fixed-offset zone. *)
Definition Date (year month day hour min sec nsec off : Z) : Time :=
  mkTime (days_of_civil year month day * 86400
          + hour * 3600 + min * 60 + sec - off) nsec off.

Definition UTC : Z := 0.

Record civilTime := mkCivil {
  c_year : Z; c_month : Z; c_day : Z; c_hour : Z; c_min : Z; c_second : Z }.

(** The calendar and clock fields of [t] in its own zone. *)
Definition civil (t : Time) : civilTime :=
  let local := t_sec t + t_off t in
  let '(y, m, d) := civil_of_days (local / 86400) in
  let sod := local mod 86400 in
  mkCivil y m d (sod / 3600) (sod mod 3600 / 60) (sod mod 60).

Definition monthAbbrev (m : Z) : gostring :=
  nth (Z.to_nat (m - 1))
      (map str ["Jan"; "Feb"; "Mar"; "Apr"; "May"; "Jun";
                "Jul"; "Aug"; "Sep"; "Oct"; "Nov"; "Dec"]%string) [].

Definition formatClock (c : civilTime) : gostring :=
  appendInt (c_hour c) 2 ++ str ":" ++ appendInt (c_min c) 2
    ++ str ":" ++ appendInt (c_second c) 2.

(** [t.Format(time.Stamp)], layout ["Jan _2 15:04:05"]. *)
Definition FormatStamp (t : Time) : gostring :=
  let c := civil t in
  monthAbbrev (c_month c) ++ str " "
    ++ (if c_day c <? 10 then str " " else []) ++ appendInt (c_day c) 0
    ++ str " " ++ formatClock c.

Fixpoint trimZeros_rev (r : gostring) : gostring :=
  match r with
  | c :: r' => if Ascii.eqb c "0" then trimZeros_rev r' else r
  | [] => []
  end.

(** The layout element [.999999999]: nothing for a whole second, otherwise
    the nine-digit fraction without its trailing zeros. *)
Definition appendNano (nsec : Z) : gostring :=
  if nsec =? 0 then []
  else str "." ++ rev (trimZeros_rev (rev (appendInt nsec 9))).

(** The layout element [Z07:00]. *)
Definition formatZone (off : Z) : gostring :=
  if off =? 0 then str "Z"
  else
    let zone := Z.quot off 60 in
    (if zone <? 0 then str "-" else str "+")
      ++ appendInt (Z.abs zone / 60) 2 ++ str ":"
      ++ appendInt (Z.abs zone mod 60) 2.

(** [t.Format(time.RFC3339Nano)], layout
    ["2006-01-02T15:04:05.999999999Z07:00"]. *)
Definition FormatRFC3339Nano (t : Time) : gostring :=
  let c := civil t in
  appendInt (c_year c) 4 ++ str "-" ++ appendInt (c_month c) 2
    ++ str "-" ++ appendInt (c_day c) 2 ++ str "T" ++ formatClock c
    ++ appendNano (t_nsec t) ++ formatZone (t_off t).

(** ** protocol.go: protocol, framing and BOM selectors *)

Definition DefaultPort : Z := 514.

Definition Protocol := Z.
Definition ProtocolAuto : Protocol := 0.
Definition ProtocolV0Local : Protocol := 1.
Definition ProtocolV0Net : Protocol := 2.
Definition ProtocolV1Net : Protocol := 3.

Definition Protocol_isLocal (p : Protocol) : bool := p =? ProtocolV0Local.

Definition Protocol_isV1 (p : Protocol) : bool := p =? ProtocolV1Net.

Definition Protocol_resolve (p : Protocol) (isUnix : bool) : Protocol :=
  if negb (p =? ProtocolAuto) then p
  else if isUnix then ProtocolV0Local
  else ProtocolV1Net.

Definition Framing := Z.
Definition FramingAuto : Framing := 0.
Definition FramingLength : Framing := 1.
Definition FramingDelimiterNUL : Framing := 2.
Definition FramingDelimiterLF : Framing := 3.
Definition FramingNone : Framing := 4.

Definition Framing_resolve (f : Framing) (needFraming : bool) : Framing :=
  if negb needFraming then FramingNone
  else if f =? FramingAuto then FramingDelimiterNUL
  else f.

Definition BOMMode := Z.
Definition BOMModeAuto : BOMMode := 0.
Definition BOMModeAlways : BOMMode := 1.
Definition BOMModeNever : BOMMode := 2.

Definition BOMMode_resolve (b : BOMMode) (p : Protocol) : BOMMode :=
  if negb (b =? BOMModeAuto) then b
  else if Protocol_isV1 p then BOMModeAlways
  else BOMModeNever.

(** ** Outcomes of running Go code *)

Inductive panic :=
| panicUnknownProtocol   (* panic("unknown syslog protocol") *)
| panicSliceBounds       (* slice bounds out of range *)
| panicIndexOutOfRange   (* index out of range *)
| panicNilDereference.   (* method call on a nil interface *)

Inductive Outcome (A : Type) :=
| Ret (a : A)
| Panic (p : panic)
| OutOfFuel.

Arguments Ret {A} a.
Arguments Panic {A} p.
Arguments OutOfFuel {A}.

(** ** Byte slices

    A slice is its backing array from the slice's first element to its
    capacity, and its length. [append] writes in place when the capacity
    suffices and otherwise moves the elements to a fresh array; how much
    spare capacity the fresh array has is the run-time's choice [grow]
    (from the old capacity and the needed length). *)
Record slice := mkSlice { s_arr : list ascii; s_len : nat }.

Definition cap (s : slice) : nat := length (s_arr s).

Definition nilSlice : slice := mkSlice [] 0.

(** [make([]byte, n)] *)
Definition make (n : nat) : slice := mkSlice (replicate n zero) n.

(** The elements [s[from:]] of the slice. *)
Definition elemsFrom (s : slice) (from : nat) : list ascii :=
  drop from (take (s_len s) (s_arr s)).

Definition fits (s : slice) (n : nat) : bool :=
  (s_len s + n <=? cap s)%nat.

Definition sliceAppend (grow : nat -> nat -> nat) (s : slice) (xs : list ascii)
  : slice :=
  let n := (s_len s + length xs)%nat in
  if fits s (length xs)
  then mkSlice (take (s_len s) (s_arr s) ++ xs ++ drop n (s_arr s)) n
  else mkSlice (take (s_len s) (s_arr s) ++ xs
                  ++ replicate (grow (cap s) n) zero) n.

(** ** protocol.go: the formatter *)

Record formatter := mkFormatter { writeBuf : slice }.

(** The zero value of [formatter]. *)
Definition zeroFormatter : formatter := mkFormatter nilSlice.

(** [init]: [writeBuf = make([]byte, 16); writeBuf[15] = ' '] *)
Definition formatter_init (fmtr : formatter) : formatter :=
  let b := make 16 in
  mkFormatter (mkSlice (<[15%nat := " "%char]> (s_arr b)) (s_len b)).

(** The UTF-8 byte-order marker ["\xEF\xBB\xBF"]. *)
Definition bom : gostring :=
  [ascii_of_nat 239; ascii_of_nat 187; ascii_of_nat 191].

(** Empty fields become a hyphen. *)
Definition orHyphen (s : gostring) : gostring :=
  match s with [] => str "-" | _ => s end.

Definition endCharOf (f : Framing) : gostring :=
  if f =? FramingDelimiterNUL then [zero]
  else if f =? FramingDelimiterLF then str (String (ascii_of_nat 10) EmptyString)
  else [].

Definition bomPfxOf (b : BOMMode) : gostring :=
  if b =? BOMModeAlways then bom else [].

(** The [switch p] of [formatTo]: the text that [fmt.Appendf] appends for
    each protocol. [hostName], [procName] and [structuredData] have already
    been defaulted. *)
Definition formatText (p : Protocol) (pri : Z) (timestamp : Time)
    (hostName procName : gostring) (procID : Z)
    (msgID msgBody structuredData bomPfx endChar : gostring)
  : Outcome gostring :=
  if p =? ProtocolV0Local then
    let sep := match msgID with [] => [] | _ => str " " end in
    Ret (str "<" ++ fmtInt pri ++ str ">" ++ FormatStamp timestamp
           ++ str " " ++ procName ++ str "[" ++ fmtInt procID ++ str "]: "
           ++ bomPfx ++ msgID ++ sep ++ msgBody ++ endChar)
  else if p =? ProtocolV0Net then
    let sep := match msgID with [] => [] | _ => str " " end in
    Ret (str "<" ++ fmtInt pri ++ str ">" ++ FormatStamp timestamp
           ++ str " " ++ hostName ++ str " " ++ procName
           ++ str "[" ++ fmtInt procID ++ str "]: "
           ++ bomPfx ++ msgID ++ sep ++ msgBody ++ endChar)
  else if p =? ProtocolV1Net then
    let msgID := orHyphen msgID in
    Ret (str "<" ++ fmtInt pri ++ str ">1 " ++ FormatRFC3339Nano timestamp
           ++ str " " ++ hostName ++ str " " ++ procName
           ++ str " " ++ fmtInt procID ++ str " " ++ msgID
           ++ str " " ++ structuredData ++ str " "
           ++ bomPfx ++ msgBody ++ endChar)
  else Panic panicUnknownProtocol.

(** The loop that writes the decimal length right to left in front of
    index 15: [for lrem > 0 { i--; buf[i] = '0' + byte(lrem%10); lrem /= 10 }].
    The argument [i] is the current index; decrementing index 0 makes the
    store [buf[-1]] panic. *)
Fixpoint encodeLen (i : nat) (lrem : Z) (arr : list ascii)
  : Outcome (nat * list ascii) :=
  if 0 <? lrem then
    match i with
    | O => Panic panicIndexOutOfRange
    | S i' =>
        encodeLen i' (lrem / 10) (<[i' := byte_of_Z (48 + lrem mod 10)]> arr)
    end
  else Ret (i, arr).

(** The pure part of [formatTo]: the bytes handed to [w.Write] and the
    formatter afterwards. Without length framing [fmtr.writeBuf] is not
    assigned, but its backing array is the one appended to when the
    capacity sufficed. *)
Definition formatBytes (grow : nat -> nat -> nat) (fmtr : formatter)
    (p : Protocol) (f : Framing) (b : BOMMode) (pri : Z) (timestamp : Time)
    (hostName procName : gostring) (procID : Z)
    (msgID msgBody structuredData : gostring)
  : Outcome (gostring * formatter) :=
  if (cap (writeBuf fmtr) <? 16)%nat then Panic panicSliceBounds else
  let buf := mkSlice (s_arr (writeBuf fmtr)) 16 in
  let hostName := orHyphen hostName in
  let procName := orHyphen procName in
  let structuredData := orHyphen structuredData in
  let endChar := endCharOf f in
  let bomPfx := bomPfxOf b in
  match formatText p pri timestamp hostName procName procID
                   msgID msgBody structuredData bomPfx endChar with
  | Ret text =>
      let buf' := sliceAppend grow buf text in
      if negb (f =? FramingLength) then
        Ret (elemsFrom buf' 16,
             if fits buf (length text)
             then mkFormatter (mkSlice (s_arr buf') (s_len (writeBuf fmtr)))
             else fmtr)
      else
        let lrem := Z.of_nat (length (elemsFrom buf' 16)) in
        match encodeLen 15 lrem (s_arr buf') with
        | Ret (i, arr) =>
            let buf'' := mkSlice arr (s_len buf') in
            Ret (elemsFrom buf'' i, mkFormatter buf'')
        | Panic e => Panic e
        | OutOfFuel => OutOfFuel
        end
  | Panic e => Panic e
  | OutOfFuel => OutOfFuel
  end.

(** ** The outside world

    A connection handle ([io.WriteCloser]) is identified by a number; when
    the handle also offers [LocalAddr()] and that address is not nil,
    [conn_localNetwork] is its [Network()]. *)
Record conn := mkConn { conn_id : nat; conn_localNetwork : option gostring }.

(** A dial function: the outcome of the [n]-th dial of the run, for a
    network and an address. It yields a handle or an error. *)
Definition dialFunc := nat -> gostring -> gostring -> conn + error.

Inductive event :=
| EvDial (custom : bool) (network address : gostring)
| EvWrite (c : conn) (data : gostring)
| EvClose (c : conn)
| EvNextDelay (d : Duration)
| EvReset.

Record Env := mkEnv {
  env_now : nat -> Time;                     (* n-th reading of time.Now() *)
  env_netDial : dialFunc;                    (* net.Dialer.DialContext *)
  env_write : nat -> conn -> gostring -> option error;  (* n-th w.Write *)
  env_hostname : gostring;                   (* os.Hostname(), "" on error *)
  env_pid : Z;                               (* os.Getpid() *)
  env_grow : nat -> nat -> nat;              (* spare capacity on growth *)
  env_HasPort : gostring -> bool * option error  (* gnet.HasPort *)
}.

Record World := mkWorld {
  w_clock : nat;
  w_dials : nat;
  w_writes : nat;
  w_trace : list event
}.

Definition world0 : World := mkWorld 0 0 0 [].

Definition M (A : Type) : Type := World -> Outcome A * World.

Definition ret {A} (a : A) : M A := fun wd => (Ret a, wd).

Definition bind {A C} (m : M A) (k : A -> M C) : M C :=
  fun wd =>
    match m wd with
    | (Ret a, wd') => k a wd'
    | (Panic e, wd') => (Panic e, wd')
    | (OutOfFuel, wd') => (OutOfFuel, wd')
    end.

Definition throw {A} (e : panic) : M A := fun wd => (Panic e, wd).

Definition lift {A} (o : Outcome A) : M A := fun wd => (o, wd).

Definition emit (ev : event) : M unit :=
  fun wd => (Ret tt, mkWorld (w_clock wd) (w_dials wd) (w_writes wd)
                             (w_trace wd ++ [ev])).

Notation "x <- c1 ;; c2" := (bind c1 (fun x => c2))
  (at level 100, c1 at next level, right associativity).
Notation "c1 ;;; c2" := (bind c1 (fun _ => c2))
  (at level 100, right associativity).

(** The reconnection policy [gnet.Backoff] of hlandau/goutils, used through
    its two methods. *)
Class BackoffPolicy (B : Type) := {
  NextDelay : B -> Duration * B;
  Reset : B -> B
}.

(** ** syslog.go: data model *)

Record Message := mkMessage {
  m_Time : Time;
  m_Severity : Severity;
  m_Facility : Facility;
  m_ID : gostring;
  m_Body : gostring;
  m_StructuredData : gostring
}.

Record Config (B : Type) := mkConfig {
  cfg_Protocol : Protocol;
  cfg_Framing : Framing;
  cfg_BOMMode : BOMMode;
  cfg_ConnectBackoff : B;
  cfg_DialFunc : option dialFunc;
  cfg_Network : gostring;
  cfg_Address : gostring;
  cfg_HostName : gostring;
  cfg_ProcName : gostring
}.

Arguments mkConfig {B}.
Arguments cfg_Protocol {B}.
Arguments cfg_Framing {B}.
Arguments cfg_BOMMode {B}.
Arguments cfg_ConnectBackoff {B}.
Arguments cfg_DialFunc {B}.
Arguments cfg_Network {B}.
Arguments cfg_Address {B}.
Arguments cfg_HostName {B}.
Arguments cfg_ProcName {B}.

Record connTarget := mkTarget { Network : gostring; Address : gostring }.

Record Logger (B : Type) := mkLogger {
  l_cfg : Config B;
  l_w : option conn;
  l_connTargets : list connTarget;
  l_closed : bool;
  l_reconnectStartTime : Time;
  l_autoconfigDone : bool;
  l_fmtr : formatter
}.

Arguments mkLogger {B}.
Arguments l_cfg {B}.
Arguments l_w {B}.
Arguments l_connTargets {B}.
Arguments l_closed {B}.
Arguments l_reconnectStartTime {B}.
Arguments l_autoconfigDone {B}.
Arguments l_fmtr {B}.

(** ** The unix target resolver *)

Fixpoint HasPrefix (s prefix : gostring) {struct prefix} : bool :=
  match prefix with
  | [] => true
  | p :: prefix' =>
      match s with
      | c :: s' => Ascii.eqb c p && HasPrefix s' prefix'
      | [] => false
      end
  end.

Definition isEmpty {A} (s : list A) : bool :=
  match s with [] => true | _ => false end.

Definition isNil {A} (e : option A) : bool :=
  match e with None => true | Some _ => false end.

(** [determineOSSpecificConnTargets] (build tag [unix]); the result [[]]
    stands for the nil slice. *)
Definition determineOSSpecificConnTargets (network address : gostring)
  : list connTarget * option error :=
  if (isEmpty network || gostring_eqb network (str "unix")
      || gostring_eqb network (str "unixgram"))
     && (isEmpty address || HasPrefix address (str "/"))
  then
    (flat_map
       (fun n =>
          if negb (isEmpty network) && negb (gostring_eqb n network) then []
          else if negb (isEmpty address) then [mkTarget n address]
          else map (mkTarget n)
                   [str "/dev/log"; str "/var/run/syslog"; str "/var/run/log"])
       [str "unixgram"; str "unix"],
     None)
  else ([], None).

(** ** syslog.go: the client *)

Section Client.

Context {B : Type} `{BackoffPolicy B}.
Variable env : Env.

Definition set_w (l : Logger B) (w : option conn) : Logger B :=
  mkLogger (l_cfg l) w (l_connTargets l) (l_closed l)
           (l_reconnectStartTime l) (l_autoconfigDone l) (l_fmtr l).

Definition set_closed (l : Logger B) (c : bool) : Logger B :=
  mkLogger (l_cfg l) (l_w l) (l_connTargets l) c
           (l_reconnectStartTime l) (l_autoconfigDone l) (l_fmtr l).

Definition set_cfg (l : Logger B) (c : Config B) : Logger B :=
  mkLogger c (l_w l) (l_connTargets l) (l_closed l)
           (l_reconnectStartTime l) (l_autoconfigDone l) (l_fmtr l).

Definition set_reconnectStartTime (l : Logger B) (t : Time) : Logger B :=
  mkLogger (l_cfg l) (l_w l) (l_connTargets l) (l_closed l)
           t (l_autoconfigDone l) (l_fmtr l).

Definition set_fmtr (l : Logger B) (f : formatter) : Logger B :=
  mkLogger (l_cfg l) (l_w l) (l_connTargets l) (l_closed l)
           (l_reconnectStartTime l) (l_autoconfigDone l) f.

Definition set_ConnectBackoff (c : Config B) (b : B) : Config B :=
  mkConfig (cfg_Protocol c) (cfg_Framing c) (cfg_BOMMode c) b
           (cfg_DialFunc c) (cfg_Network c) (cfg_Address c)
           (cfg_HostName c) (cfg_ProcName c).

(** [time.Now()] *)
Definition timeNow : M Time :=
  fun wd => (Ret (env_now env (w_clock wd)),
             mkWorld (S (w_clock wd)) (w_dials wd) (w_writes wd) (w_trace wd)).

(** [w.Write(data)]; the byte count it returns is discarded by the caller. *)
Definition connWrite (c : conn) (data : gostring) : M (option error) :=
  fun wd => (Ret (env_write env (w_writes wd) c data),
             mkWorld (w_clock wd) (w_dials wd) (S (w_writes wd))
                     (w_trace wd ++ [EvWrite c data])).

(** [formatTo]: format, then one [w.Write]. *)
Definition formatTo (fmtr : formatter) (w : conn)
    (p : Protocol) (f : Framing) (b : BOMMode) (pri : Z) (timestamp : Time)
    (hostName procName : gostring) (procID : Z)
    (msgID msgBody structuredData : gostring)
  : M (option error * formatter) :=
  r <- lift (formatBytes (env_grow env) fmtr p f b pri timestamp
                         hostName procName procID
                         msgID msgBody structuredData) ;;
  err <- connWrite w (fst r) ;;
  ret (err, snd r).

Definition determineConnTargets (network address : gostring)
  : list connTarget * option error :=
  let '(connTargets, err) := determineOSSpecificConnTargets network address in
  if negb (isEmpty connTargets) || negb (isNil err)
  then (connTargets, err)
  else if isEmpty address then ([], Some errNoAddress)
  else
    let network := if isEmpty network then str "udp" else network in
    let '(hasPort, err) := env_HasPort env address in
    match err with
    | Some e => ([], Some e)
    | None =>
        let address :=
          if negb hasPort then address ++ str ":" ++ fmtInt DefaultPort
          else address in
        ([mkTarget network address], None)
    end.

(** [New] *)
Definition New (cfg : Config B) : option (Logger B) * option error :=
  let '(targets, err) := determineConnTargets (cfg_Network cfg) (cfg_Address cfg) in
  match err with
  | Some e => (None, Some e)
  | None =>
      (Some (mkLogger cfg None targets false zeroTime false
                      (formatter_init zeroFormatter)), None)
  end.

Definition getNewConnUsingTarget (l : Logger B) (network address : gostring)
  : M (conn + error) :=
  fun wd =>
    let '(custom, dial) :=
      match cfg_DialFunc (l_cfg l) with
      | Some d => (true, d)
      | None => (false, env_netDial env)
      end in
    (Ret (dial (w_dials wd) network address),
     mkWorld (w_clock wd) (S (w_dials wd)) (w_writes wd)
             (w_trace wd ++ [EvDial custom network address])).

(** The [range] loop of [getNewConn], with its variable [firstErr]. *)
Fixpoint getNewConn_loop (l : Logger B) (targets : list connTarget)
    (firstErr : option error) : M (option conn * option error) :=
  match targets with
  | [] => ret (None, firstErr)
  | connTarget :: rest =>
      r <- getNewConnUsingTarget l (Network connTarget) (Address connTarget) ;;
      match r with
      | inl w => ret (Some w, None)
      | inr err =>
          getNewConn_loop l rest
            (match firstErr with None => Some err | Some _ => firstErr end)
      end
  end.

Definition getNewConn (l : Logger B) : M (option conn * option error) :=
  getNewConn_loop l (l_connTargets l) None.

Definition getNetwork (l : Logger B) (w : option conn) : Outcome gostring :=
  match w with
  | Some (mkConn _ (Some network)) => Ret network
  | _ =>
      match l_connTargets l with
      | t :: _ => Ret (Network t)
      | [] => Panic panicIndexOutOfRange
      end
  end.

Definition isUnix (network : gostring) : bool :=
  HasPrefix network (str "unix").

Definition needsFraming (network : gostring) : bool :=
  if gostring_eqb network (str "unix") || gostring_eqb network (str "unixgram")
     || gostring_eqb network (str "udp")
  then false else true.

Definition autoconfig (l : Logger B) : Outcome (Logger B) :=
  if l_autoconfigDone l then Ret l else
  match getNetwork l (l_w l) with
  | Ret actualNetwork =>
      let c := l_cfg l in
      let protocol := Protocol_resolve (cfg_Protocol c) (isUnix actualNetwork) in
      let framing := Framing_resolve (cfg_Framing c) (needsFraming actualNetwork) in
      let bomMode := BOMMode_resolve (cfg_BOMMode c) protocol in
      let hostName :=
        if isEmpty (cfg_HostName c) then env_hostname env else cfg_HostName c in
      Ret (set_cfg l (mkConfig protocol framing bomMode (cfg_ConnectBackoff c)
                               (cfg_DialFunc c) (cfg_Network c) (cfg_Address c)
                               hostName (cfg_ProcName c)))
  | Panic e => Panic e
  | OutOfFuel => OutOfFuel
  end.

Definition ensureConn (l : Logger B) : M (option error * Logger B) :=
  match l_w l with
  | Some _ => ret (None, l)
  | None =>
      if l_closed l then ret (Some errClosed, l) else
      waiting <-
        (if negb (IsZero (l_reconnectStartTime l))
         then now <- timeNow ;; ret (Before now (l_reconnectStartTime l))
         else ret false) ;;
      if (waiting : bool) then ret (Some errReconnectBackoff, l) else
      now <- timeNow ;;
      let '(delay, backoff) := NextDelay (cfg_ConnectBackoff (l_cfg l)) in
      emit (EvNextDelay delay) ;;;
      let l := set_cfg l (set_ConnectBackoff (l_cfg l) backoff) in
      let l := set_reconnectStartTime l (Add now delay) in
      r <- getNewConn l ;;
      let l := set_w l (fst r) in
      match snd r with
      | None => l' <- lift (autoconfig l) ;; ret (None, l')
      | Some err => ret (Some err, l)
      end
  end.

Definition destroyConn (l : Logger B) : M (Logger B) :=
  match l_w l with
  | None => ret l
  | Some w => emit (EvClose w) ;;; ret (set_w l None)
  end.

(** [Close] *)
Definition Close (l : Logger B) : M (option error * Logger B) :=
  l <- destroyConn l ;;
  ret (None, set_closed l true).

(** The body of the [for i := 0; ; i++] loop of [Write]; [fuel] bounds
    the number of passes. *)
Fixpoint Write_loop (fuel : nat) (i : Z) (l : Logger B) (msg : Message)
    (pri : Z) (timestamp : Time) : M (option error * Logger B) :=
  match fuel with
  | O => lift OutOfFuel
  | S fuel' =>
      match l_w l with
      | None => throw panicNilDereference
      | Some w =>
          r <- formatTo (l_fmtr l) w (cfg_Protocol (l_cfg l))
                 (cfg_Framing (l_cfg l)) (cfg_BOMMode (l_cfg l)) pri timestamp
                 (cfg_HostName (l_cfg l)) (cfg_ProcName (l_cfg l)) (env_pid env)
                 (m_ID msg) (m_Body msg) (m_StructuredData msg) ;;
          let l := set_fmtr l (snd r) in
          match fst r with
          | None =>
              emit EvReset ;;;
              ret (None, set_cfg l (set_ConnectBackoff (l_cfg l)
                                      (Reset (cfg_ConnectBackoff (l_cfg l)))))
          | Some err =>
              if 0 <? i then
                l <- destroyConn l ;; ret (Some err, l)
              else
                l <- destroyConn l ;;
                r2 <- ensureConn l ;;
                match fst r2 with
                | Some _ => ret (Some err, snd r2)
                | None => Write_loop fuel' (i + 1) (snd r2) msg pri timestamp
                end
          end
      end
  end.

(** [Write] *)
Definition Write (l : Logger B) (msg : Message) : M (option error * Logger B) :=
  r <- ensureConn l ;;
  match fst r with
  | Some err => ret (Some err, snd r)
  | None =>
      let l := snd r in
      timestamp <- (if IsZero (m_Time msg) then timeNow else ret (m_Time msg)) ;;
      let pri := makePri (m_Severity msg) (m_Facility msg) in
      Write_loop 2 0 l msg pri timestamp
  end.

End Client.

(** ** Sample environment for the worked examples

    A policy that waits one more second after each try, a clock that starts
    on 2021-10-11 07:25:00 UTC and advances one second per reading, and
    scripted dial and write outcomes. *)
#[global] Instance linearBackoff : BackoffPolicy nat := {|
  NextDelay n := (Z.of_nat (S n) * 1000000000, S n);
  Reset _ := 0%nat
|}.

Definition refTime : Time := Date 2021 10 11 7 25 0 0 UTC.

Definition sampleEnv (dialFails writeFails : nat -> bool) : Env :=
  mkEnv (fun n => Add refTime (Z.of_nat n * 1000000000))
        (fun n _ _ =>
           if dialFails n then inr (errExternal (100 + n))
           else inl (mkConn n None))
        (fun n _ _ =>
           if writeFails n then Some (errExternal (200 + n)) else None)
        (str "HostName") 12345 (fun _ _ => 0%nat)
        (fun a => (existsb (Ascii.eqb ":") a, None)).

Definition never (n : nat) : bool := false.
Definition always (n : nat) : bool := true.

Definition sampleConfig (network address : gostring) : Config nat :=
  mkConfig ProtocolAuto FramingAuto BOMModeAuto 0%nat None
           network address [] (str "ProcName").

(** The logger [New] makes from the empty configuration on unix. *)
Definition sampleLogger : Logger nat :=
  mkLogger (sampleConfig [] []) None
           [ mkTarget (str "unixgram") (str "/dev/log");
             mkTarget (str "unixgram") (str "/var/run/syslog");
             mkTarget (str "unixgram") (str "/var/run/log");
             mkTarget (str "unix") (str "/dev/log");
             mkTarget (str "unix") (str "/var/run/syslog");
             mkTarget (str "unix") (str "/var/run/log") ]
           false zeroTime false (formatter_init zeroFormatter).

(** The same logger once connected over a unix socket and autoconfigured. *)
Definition sampleConnected : Logger nat :=
  mkLogger (mkConfig ProtocolV0Local FramingNone BOMModeNever 0%nat None
                     [] [] (str "HostName") (str "ProcName"))
           (Some (mkConn 0 None)) (l_connTargets sampleLogger)
           false refTime false (formatter_init zeroFormatter).

Definition sampleMessage : Message :=
  mkMessage refTime SeverityWarning FacilityAuth
            (str "MsgID") (str "MsgBody") (str "SD").


(** ** Notions used to state the properties *)

(** The bytes handed to [w.Write], when formatting got that far. *)
Definition written {A} (o : Outcome (gostring * A)) : option gostring :=
  match o with Ret (d, _) => Some d | _ => None end.

Definition isDigit (c : ascii) : bool :=
  (48 <=? Z_of_byte c) && (Z_of_byte c <=? 57).

Definition decimalFold (s : gostring) : Z :=
  fold_left (fun acc c => 10 * acc + (Z_of_byte c - 48)) s 0.

(** The number a non-empty string of decimal digits denotes. *)
Definition decimalValue (s : gostring) : option Z :=
  if isEmpty s then None
  else if forallb isDigit s then Some (decimalFold s)
  else None.

(** A scratch buffer as [init] leaves it and as every call keeps it: at
    least 16 bytes of capacity, with a space at index 15. *)
Definition usable (fmtr : formatter) : Prop :=
  (16 <= cap (writeBuf fmtr))%nat
  /\ s_arr (writeBuf fmtr) !! 15%nat = Some " "%char.

Definition knownProtocol (p : Protocol) : Prop :=
  p = ProtocolV0Local \/ p = ProtocolV0Net \/ p = ProtocolV1Net.

(** The worked example of the design: severity Warning, facility Auth,
    2021-10-11T07:25:00Z, and the six text fields. *)
Definition exampleBytes (grow : nat -> nat -> nat) (fmtr : formatter)
    (p : Protocol) (f : Framing) (b : BOMMode) : Outcome (gostring * formatter) :=
  formatBytes grow fmtr p f b (makePri SeverityWarning FacilityAuth)
              (Date 2021 10 11 7 25 0 0 UTC) (str "HostName") (str "ProcName")
              12345 (str "MsgID") (str "MsgBody") (str "SD").

(** The world after the transport write of [data] on [c]. *)
Definition afterWrite (wd : World) (c : conn) (data : gostring) : World :=
  mkWorld (w_clock wd) (w_dials wd) (S (w_writes wd))
          (w_trace wd ++ [EvWrite c data]).

(** The world after an event that is only logged. *)
Definition afterEvent (wd : World) (ev : event) : World :=
  mkWorld (w_clock wd) (w_dials wd) (w_writes wd) (w_trace wd ++ [ev]).

(** The world after a reading of the clock. *)
Definition afterClock (wd : World) : World :=
  mkWorld (S (w_clock wd)) (w_dials wd) (w_writes wd) (w_trace wd).

(** Number of positions of [s] at which [pat] starts. *)
Fixpoint countOccurrences (pat s : gostring) : nat :=
  match s with
  | [] => 0
  | _ :: s' => ((if HasPrefix s pat then 1 else 0) + countOccurrences pat s')%nat
  end.

(** No byte of [s] is 0xEF, the first byte of the BOM. *)
Definition noEF (s : gostring) : bool :=
  forallb (fun c => negb (Ascii.eqb c (ascii_of_nat 239))) s.

(** The wire formats of the design up to the place of the BOM:
    [<PRI>Mmm dd hh:mm:ss procName[pid]: ] (legacy local),
    [<PRI>Mmm dd hh:mm:ss hostName procName[pid]: ] (legacy network),
    [<PRI>1 timestamp hostName procName pid msgId structuredData ]
    (versioned network), with a hyphen for an empty field. *)
Definition wireHeader (p : Protocol) (pri : Z) (ts : Time)
    (host proc : gostring) (pid : Z) (msgID sd : gostring) : gostring :=
  if p =? ProtocolV0Local then
    str "<" ++ fmtInt pri ++ str ">" ++ FormatStamp ts ++ str " "
      ++ orHyphen proc ++ str "[" ++ fmtInt pid ++ str "]: "
  else if p =? ProtocolV0Net then
    str "<" ++ fmtInt pri ++ str ">" ++ FormatStamp ts ++ str " "
      ++ orHyphen host ++ str " " ++ orHyphen proc
      ++ str "[" ++ fmtInt pid ++ str "]: "
  else
    str "<" ++ fmtInt pri ++ str ">1 " ++ FormatRFC3339Nano ts ++ str " "
      ++ orHyphen host ++ str " " ++ orHyphen proc ++ str " " ++ fmtInt pid
      ++ str " " ++ orHyphen msgID ++ str " " ++ orHyphen sd ++ str " ".

(** What follows the place of the BOM: the body, which for the two legacy
    protocols starts with the message id and a space when a message id is
    given. *)
Definition wirePayload (p : Protocol) (msgID body : gostring) : gostring :=
  if p =? ProtocolV1Net then body
  else match msgID with
       | [] => body
       | _ => msgID ++ str " " ++ body
       end.

(** [holds allowed Q m]: in every world, [m] returns a value satisfying
    [Q], or panics with an allowed panic; it never runs out of fuel. *)
Definition holds {A} (allowed : panic -> Prop) (Q : A -> Prop) (m : M A) : Prop :=
  forall wd,
    match fst (m wd) with
    | Ret a => Q a
    | Panic e => allowed e
    | OutOfFuel => False
    end.

(** The panics a logger made by [New] can still run into: an index or
    slice-bounds failure, a nil handle; not the unknown protocol. *)
Definition notUnknownProtocol (e : panic) : Prop := e <> panicUnknownProtocol.

Definition anyPanic (e : panic) : Prop := True.

(** ** Notions used to state the properties of the client *)

Section ClientNotions.

Context {B : Type} `{BackoffPolicy B}.
Variable env : Env.

(** The dial function a logger uses: its [DialFunc] if set, else [net.Dialer]. *)
Definition dialOf (l : Logger B) : dialFunc :=
  match cfg_DialFunc (l_cfg l) with
  | Some d => d
  | None => env_netDial env
  end.

Definition dialEvent (l : Logger B) (t : connTarget) : event :=
  EvDial (negb (isNil (cfg_DialFunc (l_cfg l)))) (Network t) (Address t).

(** The world after the targets [ts] have been dialled, one after another. *)
Definition afterDials (l : Logger B) (ts : list connTarget) (wd : World) : World :=
  mkWorld (w_clock wd) (w_dials wd + length ts)%nat (w_writes wd)
          (w_trace wd ++ map (dialEvent l) ts).

(** The outcome of dialling the [i]-th target when the dials start in [wd]. *)
Definition dialResult (l : Logger B) (wd : World) (i : nat) (t : connTarget)
  : conn + error :=
  dialOf l (w_dials wd + i)%nat (Network t) (Address t).

Definition fails (r : conn + error) : Prop := exists e, r = inr e.

(** [ConnectBackoff.Reset()] on the logger's policy. *)
Definition resetBackoff (l : Logger B) : Logger B :=
  set_cfg l (set_ConnectBackoff (l_cfg l) (Reset (cfg_ConnectBackoff (l_cfg l)))).

(** The bytes [Write] formats for [msg] with the logger's current settings. *)
Definition formatFor (l : Logger B) (msg : Message) (timestamp : Time)
  : Outcome (gostring * formatter) :=
  formatBytes (env_grow env) (l_fmtr l) (cfg_Protocol (l_cfg l))
              (cfg_Framing (l_cfg l)) (cfg_BOMMode (l_cfg l))
              (makePri (m_Severity msg) (m_Facility msg)) timestamp
              (cfg_HostName (l_cfg l)) (cfg_ProcName (l_cfg l)) (env_pid env)
              (m_ID msg) (m_Body msg) (m_StructuredData msg).

(** The backoff window of [ensureConn] has passed (or none was set). *)
Definition windowPassed (l : Logger B) (wd : World) : Prop :=
  IsZero (l_reconnectStartTime l) = true
  \/ Before (env_now env (w_clock wd)) (l_reconnectStartTime l) = false.

(** The world in which [ensureConn] reads the clock for the new not-before
    time: the window check has read it once already unless no time was stored. *)
Definition windowClock (l : Logger B) (wd : World) : World :=
  if IsZero (l_reconnectStartTime l) then wd else afterClock wd.

(** The logger as [ensureConn] leaves it before it dials: the policy has
    produced its next delay and the not-before time is the current time
    plus that delay. *)
Definition advanced (l : Logger B) (wd : World) : Logger B :=
  let now := env_now env (w_clock (windowClock l wd)) in
  let r := NextDelay (cfg_ConnectBackoff (l_cfg l)) in
  set_reconnectStartTime (set_cfg l (set_ConnectBackoff (l_cfg l) (snd r)))
                         (Add now (fst r)).

(** The world in which the first candidate is dialled. *)
Definition advancedWorld (l : Logger B) (wd : World) : World :=
  afterEvent (afterClock (windowClock l wd))
             (EvNextDelay (fst (NextDelay (cfg_ConnectBackoff (l_cfg l))))).

(** What no call changes: the targets, the dial function, the
    [autoconfigDone] flag; and [closed] is only changed by [Close]. *)
Definition keeps (l l' : Logger B) : Prop :=
  l_connTargets l' = l_connTargets l
  /\ l_closed l' = l_closed l
  /\ l_autoconfigDone l' = l_autoconfigDone l
  /\ cfg_DialFunc (l_cfg l') = cfg_DialFunc (l_cfg l).

(** A configured protocol is one of the four defined values. *)
Definition definedProtocol (p : Protocol) : Prop :=
  p = ProtocolAuto \/ knownProtocol p.

(** The protocol invariant of a logger: autoconfiguration is never marked
    done, the protocol is a defined value, and it is a concrete variant
    whenever a connection is held. *)
Definition protocolInv (l : Logger B) : Prop :=
  l_autoconfigDone l = false
  /\ definedProtocol (cfg_Protocol (l_cfg l))
  /\ (l_w l <> None -> knownProtocol (cfg_Protocol (l_cfg l))).

(** What [ensureConn] guarantees about its result [r] when started on [l]:
    a connected logger is returned as it is; a disconnected one either
    stays disconnected, with an error and its protocol untouched, or has
    been autoconfigured. *)
Definition ensured (l : Logger B) (r : option error * Logger B) : Prop :=
  keeps l (snd r)
  /\ l_fmtr (snd r) = l_fmtr l
  /\ (l_w l <> None -> snd r = l /\ fst r = None)
  /\ (l_w l = None ->
      (exists e, fst r = Some e /\ l_w (snd r) = None
                 /\ cfg_Protocol (l_cfg (snd r)) = cfg_Protocol (l_cfg l))
      \/ (fst r = None
          /\ (l_autoconfigDone l = false ->
              exists u, cfg_Protocol (l_cfg (snd r))
                        = Protocol_resolve (cfg_Protocol (l_cfg l)) u)
          /\ (l_autoconfigDone l = true ->
              cfg_Protocol (l_cfg (snd r)) = cfg_Protocol (l_cfg l)))).

(** Calls on a logger, and runs of several calls. *)
Inductive op := OpWrite (msg : Message) | OpClose.

Definition step (l : Logger B) (o : op) : M (option error * Logger B) :=
  match o with
  | OpWrite msg => Write env l msg
  | OpClose => Close l
  end.

Fixpoint runOps (l : Logger B) (ops : list op) : M (list (option error) * Logger B) :=
  match ops with
  | [] => ret ([], l)
  | o :: rest =>
      r <- step l o ;;
      rs <- runOps (snd r) rest ;;
      ret (fst r :: fst rs, snd rs)
  end.

(** What every call answers once the logger is closed. *)
Definition closedAnswer (o : op) : option error :=
  match o with
  | OpWrite _ => Some errClosed
  | OpClose => None
  end.

End ClientNotions.

(** ** slogsyslog.go: from log records to SYSLOG messages

    A [slog.Level] is an [int]; the four named levels of
    golang.org/x/exp/slog are -4, 0, 4 and 8. *)
Definition Level := Z.
Definition LevelDebug : Level := -4.
Definition LevelInfo : Level := 0.
Definition LevelWarn : Level := 4.
Definition LevelError : Level := 8.

Definition mapLevelToSeverity (level : Level) : Severity :=
  if level <=? LevelDebug then SeverityDebug
  else if level <=? LevelInfo then SeverityInfo
  else if level <=? 2 then SeverityNotice
  else if level <=? LevelWarn then SeverityWarning
  else if level <=? LevelError then SeverityErr
  else if level <=? 12 then SeverityCrit
  else if level <=? 16 then SeverityAlert
  else SeverityEmerg.

(** The message the handler's [WriterFunc] passes to [Logger.Write] for a
    record with time [rTime], level [rLevel] and message [rMessage] whose
    rendered attributes are [b]. *)
Definition recordMessage (facility : Facility) (rTime : Time) (rLevel : Level)
    (rMessage b : gostring) : Message :=
  mkMessage rTime (mapLevelToSeverity rLevel) facility rMessage b [].

(** ** sink-syslog.go: the syslog target option *)

(** Go's [strings.Cut]: the text before and after the first occurrence of
    [sep], and whether [sep] occurs; without occurrence, [(s, "", false)]. *)
Fixpoint Cut (s sep : gostring) : gostring * gostring * bool :=
  if HasPrefix s sep then ([], drop (length sep) s, true)
  else match s with
       | [] => ([], [], false)
       | c :: s' => let '(before, after, found) := Cut s' sep in
                    (c :: before, after, found)
       end.

(** Go's [strings.TrimPrefix]. *)
Definition TrimPrefix (s prefix : gostring) : gostring :=
  if HasPrefix s prefix then drop (length prefix) s else s.

Inductive targetError :=
| errTargetForm.   (* "target must be of form 'network:address'" *)

Definition parseSyslogTarget (s : gostring)
  : gostring * gostring * option targetError :=
  if isEmpty s then ([], [], None)
  else
    let '(l, r, ok) := Cut s (str ":") in
    if negb ok then ([], [], Some errTargetForm)
    else (l, TrimPrefix r (str "//"), None).

(** ** Notions used to state the further properties *)

(** The byte [c] does not occur in [s]. *)
Definition lacks (c : ascii) (s : gostring) : bool :=
  forallb (fun x => negb (Ascii.eqb x c)) s.

(** The name is in the table. *)
Definition listedIn {V} (names : list (gostring * V)) (n : gostring) : bool :=
  existsb (fun nv => gostring_eqb (fst nv) n) names.

(** The request is one the unix resolver answers: no network or a unix
    network, and no address or a path. *)
Definition localRequest (network address : gostring) : bool :=
  (isEmpty network || gostring_eqb network (str "unix")
   || gostring_eqb network (str "unixgram"))
  && (isEmpty address || HasPrefix address (str "/")).

Definition standardPaths : list gostring :=
  [str "/dev/log"; str "/var/run/syslog"; str "/var/run/log"].

(** The digits the length loop writes in front of index [i] for the
    length [lrem], when they fit. *)
Fixpoint lenDigits (i : nat) (lrem : Z) : option gostring :=
  if 0 <? lrem then
    match i with
    | O => None
    | S i' =>
        match lenDigits i' (lrem / 10) with
        | Some ds => Some (ds ++ [byte_of_Z (48 + lrem mod 10)])
        | None => None
        end
    end
  else Some [].

(** The environment with another default network dialer. *)
Definition withNetDial (env : Env) (d : dialFunc) : Env :=
  mkEnv (env_now env) d (env_write env) (env_hostname env) (env_pid env)
        (env_grow env) (env_HasPort env).

Section FurtherNotions.

Context {B : Type} `{BackoffPolicy B}.
Variable env : Env.

(** The network a connection reports, or else the network of the first
    target (what [getNetwork] returns when it returns). *)
Definition actualNetwork (l : Logger B) (c : conn) : gostring :=
  match conn_localNetwork c with
  | Some n => n
  | None => match l_connTargets l with
            | t :: _ => Network t
            | [] => []
            end
  end.

(** The configuration after autoconfiguration on a connection whose
    network is [n]. *)
Definition resolvedConfig (n : gostring) (c : Config B) : Config B :=
  let protocol := Protocol_resolve (cfg_Protocol c) (isUnix n) in
  mkConfig protocol
           (Framing_resolve (cfg_Framing c) (needsFraming n))
           (BOMMode_resolve (cfg_BOMMode c) protocol)
           (cfg_ConnectBackoff c) (cfg_DialFunc c)
           (cfg_Network c) (cfg_Address c)
           (if isEmpty (cfg_HostName c) then env_hostname env else cfg_HostName c)
           (cfg_ProcName c).

(** The logger as [ensureConn] leaves it after the dial that gave [c]:
    connected, and autoconfigured for the network of [c]. *)
Definition connectedTo (l : Logger B) (wd : World) (c : conn) : Logger B :=
  set_cfg (set_w (advanced env l wd) (Some c))
          (resolvedConfig (actualNetwork l c) (l_cfg (advanced env l wd))).

(** What a run of calls leaves of a configuration: the targets, the dial
    function, the process name and the requested network and address never
    change; a protocol, a BOM mode and a host name that are set stay as
    they are; a framing of none stays none, and length framing is never
    introduced. *)
Definition settled (l l' : Logger B) : Prop :=
  l_connTargets l' = l_connTargets l
  /\ cfg_DialFunc (l_cfg l') = cfg_DialFunc (l_cfg l)
  /\ cfg_ProcName (l_cfg l') = cfg_ProcName (l_cfg l)
  /\ cfg_Network (l_cfg l') = cfg_Network (l_cfg l)
  /\ cfg_Address (l_cfg l') = cfg_Address (l_cfg l)
  /\ (cfg_Protocol (l_cfg l) <> ProtocolAuto ->
      cfg_Protocol (l_cfg l') = cfg_Protocol (l_cfg l))
  /\ (cfg_BOMMode (l_cfg l) <> BOMModeAuto ->
      cfg_BOMMode (l_cfg l') = cfg_BOMMode (l_cfg l))
  /\ (cfg_HostName (l_cfg l) <> [] ->
      cfg_HostName (l_cfg l') = cfg_HostName (l_cfg l))
  /\ (cfg_Framing (l_cfg l) = FramingNone ->
      cfg_Framing (l_cfg l') = FramingNone)
  /\ (cfg_Framing (l_cfg l) <> FramingLength ->
      cfg_Framing (l_cfg l') <> FramingLength).

(** A logger in working order: the protocol invariant, a usable scratch
    buffer, at least one target, and no automatic framing or BOM mode
    while a connection is held. *)
Definition sound (l : Logger B) : Prop :=
  protocolInv l /\ usable (l_fmtr l) /\ l_connTargets l <> []
  /\ (l_w l <> None ->
      cfg_Framing (l_cfg l) <> FramingAuto
      /\ cfg_BOMMode (l_cfg l) <> BOMModeAuto).

End FurtherNotions.
(** ** Theorems *)

Lemma makePri_check_all :
  forallb (fun s => forallb (makePri_check s) (map Z.of_nat (seq 0 24)))
          (map Z.of_nat (seq 0 8)) = true.
Proof. vm_compute. reflexivity. Qed.

(** C1: for every severity in [0,7] and facility in [0,23], [makePri]
    is [(s & 7) | ((f & 31) << 3)] and lies in [0,191]. *)
Theorem makePri_spec (s : Severity) (f : Facility) :
  0 <= s <= 7 -> 0 <= f <= 23 ->
  makePri s f = Z.lor (Z.land s 7) (Z.shiftl (Z.land f 31) 3)
  /\ 0 <= makePri s f <= 191.
Proof.
  intros Hs Hf.
  pose proof makePri_check_all as H.
  rewrite forallb_forall in H.
  assert (In s (map Z.of_nat (seq 0 8))) as Hins.
  { apply in_map_iff. exists (Z.to_nat s). split; [lia|]. apply in_seq. lia. }
  specialize (H s Hins). rewrite forallb_forall in H.
  assert (In f (map Z.of_nat (seq 0 24))) as Hinf.
  { apply in_map_iff. exists (Z.to_nat f). split; [lia|]. apply in_seq. lia. }
  specialize (H f Hinf). unfold makePri_check in H.
  apply andb_prop in H as [H H3]. apply andb_prop in H as [H1 H2].
  apply Z.eqb_eq in H1. apply Z.leb_le in H2, H3. auto.
Qed.

Lemma makePri_spec_witness :
  makePri SeverityWarning FacilityAuth
  = Z.lor (Z.land SeverityWarning 7) (Z.shiftl (Z.land FacilityAuth 31) 3)
  /\ 0 <= makePri SeverityWarning FacilityAuth <= 191.
Proof.
  apply (makePri_spec SeverityWarning FacilityAuth);
    [unfold SeverityWarning | unfold FacilityAuth]; lia.
Defined.

(** ** Bytes *)

Lemma Z_of_byte_range (c : ascii) : 0 <= Z_of_byte c < 256.
Proof.
  unfold Z_of_byte. pose proof (N_ascii_bounded c). lia.
Qed.

Lemma Z_of_byte_of_Z (z : Z) : 0 <= z < 256 -> Z_of_byte (byte_of_Z z) = z.
Proof.
  intros Hz. unfold Z_of_byte, byte_of_Z.
  rewrite Z.mod_small by lia.
  rewrite N_ascii_embedding by lia. lia.
Qed.

Lemma byte_of_Z_of_byte (c : ascii) : byte_of_Z (Z_of_byte c) = c.
Proof.
  unfold byte_of_Z. pose proof (Z_of_byte_range c).
  rewrite Z.mod_small by lia. unfold Z_of_byte.
  rewrite N2Z.id. apply ascii_N_embedding.
Qed.

Lemma gostring_eqb_eq (a b : gostring) : gostring_eqb a b = true <-> a = b.
Proof.
  revert b. induction a as [|x a IH]; intros [|y b]; simpl; try easy.
  rewrite andb_true_iff, Ascii.eqb_eq, IH. split.
  - intros [-> ->]. reflexivity.
  - intros E. injection E. auto.
Qed.

Lemma gostring_eqb_refl (a : gostring) : gostring_eqb a a = true.
Proof. apply gostring_eqb_eq. reflexivity. Qed.

Lemma gostring_eqb_neq (a b : gostring) : gostring_eqb a b = false <-> a <> b.
Proof.
  rewrite <- gostring_eqb_eq. destruct (gostring_eqb a b); split; congruence.
Qed.

(** ** Parsing of severities and facilities *)

Lemma caseVariant_char (c d : ascii) :
  isASCII d && negb (isUpperASCII d) = true ->
  Ascii.eqb c d || (isLowerASCII d && Ascii.eqb c (upperASCII d)) = true ->
  isASCII c = true /\ lowerASCII c = d.
Proof.
  intros Hd Hc.
  apply andb_true_iff in Hd as [Hd1 Hd2]. apply negb_true_iff in Hd2.
  apply orb_true_iff in Hc as [Hc|Hc].
  - apply Ascii.eqb_eq in Hc. subst c. split; [assumption|].
    unfold lowerASCII. rewrite Hd2. reflexivity.
  - apply andb_true_iff in Hc as [Hl Hc]. apply Ascii.eqb_eq in Hc. subst c.
    unfold upperASCII. rewrite Hl.
    unfold isLowerASCII in Hl. apply andb_true_iff in Hl as [Hl1 Hl2].
    apply Z.leb_le in Hl1, Hl2.
    assert (Z_of_byte (byte_of_Z (Z_of_byte d - 32)) = Z_of_byte d - 32) as E
      by (apply Z_of_byte_of_Z; lia).
    split.
    + unfold isASCII. rewrite E. apply Z.ltb_lt. lia.
    + unfold lowerASCII, isUpperASCII. rewrite E.
      replace (65 <=? Z_of_byte d - 32) with true by (symmetry; apply Z.leb_le; lia).
      replace (Z_of_byte d - 32 <=? 90) with true by (symmetry; apply Z.leb_le; lia).
      simpl. replace (Z_of_byte d - 32 + 32) with (Z_of_byte d) by lia.
      apply byte_of_Z_of_byte.
Qed.

Lemma caseVariant_lower (s n : gostring) :
  lowerName n = true -> caseVariant s n = true ->
  forallb isASCII s = true /\ map lowerASCII s = n.
Proof.
  revert n. induction s as [|c s IH]; intros [|d n]; simpl; try easy.
  intros Hn Hv. apply andb_true_iff in Hn as [Hd Hn].
  apply andb_true_iff in Hv as [Hc Hv].
  destruct (caseVariant_char c d Hd Hc) as [Hc1 Hc2].
  destruct (IH n Hn Hv) as [H1 H2].
  rewrite Hc1, Hc2, H1, H2. split; reflexivity.
Qed.

Lemma map_lowerASCII_id (s : gostring) :
  existsb isUpperASCII s = false -> map lowerASCII s = s.
Proof.
  induction s as [|c s IH]; simpl; [reflexivity|].
  intros Hs. apply orb_false_iff in Hs as [Hc Hs].
  unfold lowerASCII at 1. rewrite Hc, IH by assumption. reflexivity.
Qed.

Lemma lowerASCII_variant (c : ascii) :
  isASCII c = true ->
  Ascii.eqb c (lowerASCII c)
  || (isLowerASCII (lowerASCII c) && Ascii.eqb c (upperASCII (lowerASCII c))) = true.
Proof.
  intros Hc. unfold lowerASCII. destruct (isUpperASCII c) eqn:Hu.
  - apply orb_true_iff. right.
    unfold isUpperASCII in Hu. apply andb_true_iff in Hu as [H1 H2].
    apply Z.leb_le in H1, H2.
    assert (Z_of_byte (byte_of_Z (Z_of_byte c + 32)) = Z_of_byte c + 32) as E
      by (apply Z_of_byte_of_Z; lia).
    assert (isLowerASCII (byte_of_Z (Z_of_byte c + 32)) = true) as Hl.
    { unfold isLowerASCII. rewrite E. apply andb_true_iff.
      split; apply Z.leb_le; lia. }
    rewrite Hl. simpl. unfold upperASCII. rewrite Hl, E.
    replace (Z_of_byte c + 32 - 32) with (Z_of_byte c) by lia.
    rewrite byte_of_Z_of_byte. apply Ascii.eqb_refl.
  - rewrite Ascii.eqb_refl. reflexivity.
Qed.

Lemma caseVariant_of_lower (s : gostring) :
  forallb isASCII s = true -> caseVariant s (map lowerASCII s) = true.
Proof.
  induction s as [|c s IH]; simpl; [reflexivity|].
  intros Hs. apply andb_true_iff in Hs as [Hc Hs].
  rewrite lowerASCII_variant, IH by assumption. reflexivity.
Qed.

Section ParsingFacts.

Variable unicodeLower : gostring -> gostring.

Lemma ToLower_ascii (s : gostring) :
  forallb isASCII s = true -> ToLower unicodeLower s = map lowerASCII s.
Proof.
  intros Hs. unfold ToLower. rewrite Hs.
  destruct (existsb isUpperASCII s) eqn:Hu; [reflexivity|].
  symmetry. apply map_lowerASCII_id. assumption.
Qed.

Lemma ToLower_caseVariant (s n : gostring) :
  lowerName n = true -> caseVariant s n = true -> ToLower unicodeLower s = n.
Proof.
  intros Hn Hv. destruct (caseVariant_lower s n Hn Hv) as [H1 H2].
  rewrite ToLower_ascii by assumption. assumption.
Qed.

Lemma ParseSeverity_listed (n : gostring) (v : Severity) (s : gostring) :
  In (n, v) severityNames -> ToLower unicodeLower s = n ->
  ParseSeverity unicodeLower s = (v, None).
Proof.
  intros Hin Hl. unfold ParseSeverity. rewrite Hl. clear Hl.
  unfold severityNames in Hin. simpl in Hin.
  repeat (destruct Hin as [Hin|Hin];
          [injection Hin as <- <-; vm_compute; reflexivity|]).
  contradiction.
Qed.

Lemma ParseFacility_listed (n : gostring) (v : Facility) (s : gostring) :
  In (n, v) facilityNames -> ToLower unicodeLower s = n ->
  ParseFacility unicodeLower s = (v, None).
Proof.
  intros Hin Hl. unfold ParseFacility. rewrite Hl. clear Hl.
  unfold facilityNames in Hin. simpl in Hin.
  repeat (destruct Hin as [Hin|Hin];
          [injection Hin as <- <-; vm_compute; reflexivity|]).
  contradiction.
Qed.

Ltac unlisted_case H :=
  match goal with
  | |- context [gostring_eqb ?l ?n] =>
      let E := fresh "E" in
      destruct (gostring_eqb l n) eqn:E;
      [ exfalso; apply gostring_eqb_eq in E;
        eapply H; [|exact E]; simpl; tauto
      | simpl ]
  end.

Lemma ParseSeverity_unlisted (s : gostring) :
  (forall n v, In (n, v) severityNames -> ToLower unicodeLower s <> n) ->
  ParseSeverity unicodeLower s = (SeverityDebug, Some errBadSeverity).
Proof.
  intros H. unfold ParseSeverity.
  repeat unlisted_case H. reflexivity.
Qed.

Lemma ParseFacility_unlisted (s : gostring) :
  (forall n v, In (n, v) facilityNames -> ToLower unicodeLower s <> n) ->
  ParseFacility unicodeLower s = (FacilityLocal7, Some errBadFacility).
Proof.
  intros H. unfold ParseFacility.
  repeat unlisted_case H. reflexivity.
Qed.

Lemma noVariantOf_unlisted {V} (names : list (gostring * V)) (s : gostring) :
  forallb isASCII s = true -> noVariantOf names s = true ->
  forall n v, In (n, v) names -> ToLower unicodeLower s <> n.
Proof.
  intros Hs Hno n v Hin E.
  unfold noVariantOf in Hno. rewrite forallb_forall in Hno.
  specialize (Hno (n, v) Hin). simpl in Hno.
  apply negb_true_iff in Hno.
  rewrite ToLower_ascii in E by assumption. subst n.
  rewrite caseVariant_of_lower in Hno by assumption. discriminate.
Qed.

End ParsingFacts.

Lemma severityNames_lower :
  forall n v, In (n, v) severityNames -> lowerName n = true.
Proof.
  assert (forallb (fun nv => lowerName (fst nv)) severityNames = true) as H
    by (vm_compute; reflexivity).
  rewrite forallb_forall in H. intros n v Hin. exact (H (n, v) Hin).
Qed.

Lemma facilityNames_lower :
  forall n v, In (n, v) facilityNames -> lowerName n = true.
Proof.
  assert (forallb (fun nv => lowerName (fst nv)) facilityNames = true) as H
    by (vm_compute; reflexivity).
  rewrite forallb_forall in H. intros n v Hin. exact (H (n, v) Hin).
Qed.

(** C9: [ParseSeverity] and [ParseFacility] are total functions that depend
    on their argument only through its lower-casing. Every listed name,
    spelled in any letter case, yields its value and no error; every string
    whose lower-casing is not a listed name (in particular every ASCII
    string that spells no listed name in any letter case) yields the error
    together with the fallback [SeverityDebug], respectively
    [FacilityLocal7]. *)
Theorem parse_case_insensitive_total (unicodeLower : gostring -> gostring) :
  (forall n v s, In (n, v) severityNames -> caseVariant s n = true ->
     ParseSeverity unicodeLower s = (v, None))
  /\ (forall n v s, In (n, v) severityNames -> ToLower unicodeLower s = n ->
     ParseSeverity unicodeLower s = (v, None))
  /\ (forall s, (forall n v, In (n, v) severityNames -> ToLower unicodeLower s <> n) ->
     ParseSeverity unicodeLower s = (SeverityDebug, Some errBadSeverity))
  /\ (forall s, forallb isASCII s = true -> noVariantOf severityNames s = true ->
     ParseSeverity unicodeLower s = (SeverityDebug, Some errBadSeverity))
  /\ (forall n v s, In (n, v) facilityNames -> caseVariant s n = true ->
     ParseFacility unicodeLower s = (v, None))
  /\ (forall n v s, In (n, v) facilityNames -> ToLower unicodeLower s = n ->
     ParseFacility unicodeLower s = (v, None))
  /\ (forall s, (forall n v, In (n, v) facilityNames -> ToLower unicodeLower s <> n) ->
     ParseFacility unicodeLower s = (FacilityLocal7, Some errBadFacility))
  /\ (forall s, forallb isASCII s = true -> noVariantOf facilityNames s = true ->
     ParseFacility unicodeLower s = (FacilityLocal7, Some errBadFacility)).
Proof.
  repeat split.
  - intros n v s Hin Hv. apply (ParseSeverity_listed _ n); [assumption|].
    apply ToLower_caseVariant; [|assumption]. eapply severityNames_lower; eauto.
  - intros n v s Hin Hl. apply (ParseSeverity_listed _ n); assumption.
  - apply ParseSeverity_unlisted.
  - intros s Hs Hno. apply ParseSeverity_unlisted.
    apply noVariantOf_unlisted; assumption.
  - intros n v s Hin Hv. apply (ParseFacility_listed _ n); [assumption|].
    apply ToLower_caseVariant; [|assumption]. eapply facilityNames_lower; eauto.
  - intros n v s Hin Hl. apply (ParseFacility_listed _ n); assumption.
  - apply ParseFacility_unlisted.
  - intros s Hs Hno. apply ParseFacility_unlisted.
    apply noVariantOf_unlisted; assumption.
Qed.

Lemma parse_case_insensitive_total_witness :
  ParseSeverity (fun s => s) (str "WaRn") = (SeverityWarning, None)
  /\ ParseSeverity (fun s => s) (str "fatal") = (SeverityDebug, Some errBadSeverity)
  /\ ParseFacility (fun s => s) (str "LOCAL3") = (FacilityLocal3, None)
  /\ ParseFacility (fun s => s) (str "kernal") = (FacilityLocal7, Some errBadFacility).
Proof.
  destruct (parse_case_insensitive_total (fun s => s))
    as (S1 & _ & _ & S4 & F1 & _ & _ & F4).
  split; [|split; [|split]].
  - apply (S1 (str "warn")); [simpl; tauto | vm_compute; reflexivity].
  - apply S4; vm_compute; reflexivity.
  - apply (F1 (str "local3")); [simpl; tauto | vm_compute; reflexivity].
  - apply F4; vm_compute; reflexivity.
Defined.

(** ** The time model on known dates *)

Example format_reference_time :
  FormatRFC3339Nano (Date 2021 10 11 7 25 0 0 UTC) = str "2021-10-11T07:25:00Z"
  /\ FormatStamp (Date 2021 10 11 7 25 0 0 UTC) = str "Oct 11 07:25:00".
Proof. split; vm_compute; reflexivity. Qed.

Example format_unix_epoch :
  FormatRFC3339Nano (mkTime 62135596800 0 0) = str "1970-01-01T00:00:00Z"
  /\ FormatRFC3339Nano (mkTime (62135596800 + 1633937100) 0 0)
     = str "2021-10-11T07:25:00Z"
  /\ FormatRFC3339Nano zeroTime = str "0001-01-01T00:00:00Z".
Proof. repeat split; vm_compute; reflexivity. Qed.

Example format_leap_day_fraction_offset :
  FormatRFC3339Nano (Date 2024 2 29 23 59 59 120000000 (-19800))
  = str "2024-02-29T23:59:59.12-05:30"
  /\ FormatStamp (Date 2024 3 1 2 3 4 0 3600) = str "Mar  1 02:03:04"
  /\ FormatRFC3339Nano (Add (Date 2024 12 31 23 59 59 900000000 3600) 200000001)
     = str "2025-01-01T00:00:00.100000001+01:00".
Proof. repeat split; vm_compute; reflexivity. Qed.

Example legacy_local_example :
  written (exampleBytes (fun _ _ => 0%nat) (formatter_init zeroFormatter)
                        ProtocolV0Local FramingNone BOMModeNever)
  = Some (str "<36>Oct 11 07:25:00 ProcName[12345]: MsgID MsgBody").
Proof. vm_compute. reflexivity. Qed.

(** ** Slices and the scratch buffer *)

Lemma sliceAppend_arr (grow : nat -> nat -> nat) (s : slice) (xs : list ascii) :
  exists post,
    s_arr (sliceAppend grow s xs) = take (s_len s) (s_arr s) ++ xs ++ post
    /\ s_len (sliceAppend grow s xs) = (s_len s + length xs)%nat.
Proof.
  unfold sliceAppend. destruct (fits s (length xs)); simpl; eauto.
Qed.

Lemma sliceAppend_elems (grow : nat -> nat -> nat) (s : slice) (xs : list ascii) :
  (s_len s <= cap s)%nat ->
  elemsFrom (sliceAppend grow s xs) (s_len s) = xs.
Proof.
  intros Hlen. destruct (sliceAppend_arr grow s xs) as (post & Ha & Hl).
  unfold elemsFrom. rewrite Ha, Hl. unfold cap in Hlen.
  assert (length (take (s_len s) (s_arr s)) = s_len s) as Ht
    by (apply length_take_le; exact Hlen).
  rewrite app_assoc, take_app_length'
    by (rewrite length_app, Ht; reflexivity).
  apply drop_app_length'. symmetry. exact Ht.
Qed.

Lemma formatText_total (p : Protocol) pri ts host proc pid msgID body sd pfx e :
  knownProtocol p ->
  exists text, formatText p pri ts host proc pid msgID body sd pfx e = Ret text.
Proof.
  intros [-> | [-> | ->]]; unfold formatText; simpl; eauto.
Qed.

Lemma formatText_outcome (p : Protocol) pri ts host proc pid msgID body sd pfx e :
  (exists text, formatText p pri ts host proc pid msgID body sd pfx e = Ret text)
  \/ formatText p pri ts host proc pid msgID body sd pfx e = Panic panicUnknownProtocol.
Proof.
  unfold formatText.
  destruct (p =? ProtocolV0Local); [eauto|].
  destruct (p =? ProtocolV0Net); [eauto|].
  destruct (p =? ProtocolV1Net); eauto.
Qed.

Lemma formatBytes_unframed (grow : nat -> nat -> nat) (fmtr : formatter)
    p f b pri ts host proc pid msgID body sd text :
  (16 <= cap (writeBuf fmtr))%nat ->
  f <> FramingLength ->
  formatText p pri ts (orHyphen host) (orHyphen proc) pid msgID body
             (orHyphen sd) (bomPfxOf b) (endCharOf f) = Ret text ->
  exists fmtr',
    formatBytes grow fmtr p f b pri ts host proc pid msgID body sd
    = Ret (text, fmtr')
    /\ (usable fmtr -> usable fmtr').
Proof.
  intros Hcap Hf Ht. unfold formatBytes.
  replace (cap (writeBuf fmtr) <? 16)%nat with false
    by (symmetry; apply Nat.ltb_ge; exact Hcap).
  rewrite Ht.
  replace (f =? FramingLength) with false
    by (symmetry; apply Z.eqb_neq; exact Hf).
  simpl negb. cbv iota.
  set (buf := mkSlice (s_arr (writeBuf fmtr)) 16).
  assert (elemsFrom (sliceAppend grow buf text) 16 = text) as He
    by (apply (sliceAppend_elems grow buf text); exact Hcap).
  rewrite He. eexists. split; [reflexivity|].
  intros [_ H15]. destruct (fits buf (length text)); [|split; assumption].
  destruct (sliceAppend_arr grow buf text) as (post & Ha & _).
  unfold usable, cap. simpl. rewrite Ha. simpl.
  assert (length (take 16 (s_arr (writeBuf fmtr))) = 16%nat) as Ht16
    by (apply length_take_le; exact Hcap).
  split.
  - rewrite length_app. lia.
  - rewrite lookup_app_l by lia. rewrite lookup_take_lt by lia. exact H15.
Qed.

Lemma formatTo_run (env : Env) (fmtr : formatter) (w : conn)
    p f b pri ts host proc pid msgID body sd (wd : World) data fmtr' :
  formatBytes (env_grow env) fmtr p f b pri ts host proc pid msgID body sd
  = Ret (data, fmtr') ->
  formatTo env fmtr w p f b pri ts host proc pid msgID body sd wd
  = (Ret (env_write env (w_writes wd) w data, fmtr'), afterWrite wd w data).
Proof.
  intros Hb. unfold formatTo, bind, lift, connWrite, ret. rewrite Hb.
  reflexivity.
Qed.

Lemma formatTo_panic (env : Env) (fmtr : formatter) (w : conn)
    p f b pri ts host proc pid msgID body sd (wd : World) e :
  formatBytes (env_grow env) fmtr p f b pri ts host proc pid msgID body sd
  = Panic e ->
  formatTo env fmtr w p f b pri ts host proc pid msgID body sd wd
  = (Panic e, wd).
Proof.
  intros Hb. unfold formatTo, bind, lift. rewrite Hb. reflexivity.
Qed.

(** C2: the worked example. With the versioned network protocol, no
    framing and the BOM always on, severity Warning and facility Auth give
    PRI 36, and [formatTo] hands the writer, in one write, exactly
    ["<36>1 2021-10-11T07:25:00Z HostName ProcName 12345 MsgID SD "], the
    three bytes EF BB BF and ["MsgBody"]. *)
Theorem formatTo_versioned_example (env : Env) (fmtr : formatter) (w : conn)
    (wd : World) :
  (16 <= cap (writeBuf fmtr))%nat ->
  let expected :=
    str "<36>1 2021-10-11T07:25:00Z HostName ProcName 12345 MsgID SD "
      ++ [ascii_of_nat 239; ascii_of_nat 187; ascii_of_nat 191]
      ++ str "MsgBody" in
  makePri SeverityWarning FacilityAuth = 36
  /\ exists fmtr',
      formatTo env fmtr w ProtocolV1Net FramingNone BOMModeAlways
               (makePri SeverityWarning FacilityAuth)
               (Date 2021 10 11 7 25 0 0 UTC)
               (str "HostName") (str "ProcName") 12345
               (str "MsgID") (str "MsgBody") (str "SD") wd
      = (Ret (env_write env (w_writes wd) w expected, fmtr'),
         afterWrite wd w expected).
Proof.
  intros Hcap expected. split; [reflexivity|].
  destruct (formatBytes_unframed (env_grow env) fmtr ProtocolV1Net FramingNone
              BOMModeAlways (makePri SeverityWarning FacilityAuth)
              (Date 2021 10 11 7 25 0 0 UTC) (str "HostName") (str "ProcName")
              12345 (str "MsgID") (str "MsgBody") (str "SD") expected Hcap)
    as (fmtr' & Hb & _).
  - discriminate.
  - vm_compute. reflexivity.
  - exists fmtr'. apply formatTo_run. exact Hb.
Qed.

Lemma formatTo_versioned_example_witness :
  exists fmtr',
    formatTo (sampleEnv never never) (formatter_init zeroFormatter) (mkConn 0 None)
             ProtocolV1Net FramingNone BOMModeAlways
             (makePri SeverityWarning FacilityAuth)
             (Date 2021 10 11 7 25 0 0 UTC)
             (str "HostName") (str "ProcName") 12345
             (str "MsgID") (str "MsgBody") (str "SD") world0
    = (Ret (None, fmtr'),
       mkWorld 0 0 1
         [EvWrite (mkConn 0 None)
            (str "<36>1 2021-10-11T07:25:00Z HostName ProcName 12345 MsgID SD "
               ++ [ascii_of_nat 239; ascii_of_nat 187; ascii_of_nat 191]
               ++ str "MsgBody")]).
Proof.
  assert (16 <= cap (writeBuf (formatter_init zeroFormatter)))%nat as Hcap
    by (vm_compute; lia).
  destruct (formatTo_versioned_example (sampleEnv never never)
              (formatter_init zeroFormatter) (mkConn 0 None) world0 Hcap)
    as (_ & fmtr' & Hrun).
  exists fmtr'. exact Hrun.
Defined.

(** ** The decimal length prefix *)

Lemma decimalFold_snoc (ds : gostring) (c : ascii) :
  decimalFold (ds ++ [c]) = 10 * decimalFold ds + (Z_of_byte c - 48).
Proof. unfold decimalFold. rewrite fold_left_app. reflexivity. Qed.

Lemma digit_byte (d : Z) :
  0 <= d < 10 ->
  Z_of_byte (byte_of_Z (48 + d)) = 48 + d /\ isDigit (byte_of_Z (48 + d)) = true.
Proof.
  intros Hd. assert (Z_of_byte (byte_of_Z (48 + d)) = 48 + d) as E
    by (apply Z_of_byte_of_Z; lia).
  split; [exact E|]. unfold isDigit. rewrite E.
  apply andb_true_iff. split; apply Z.leb_le; lia.
Qed.

Lemma encodeLen_spec (i : nat) :
  forall (lrem : Z) (arr : list ascii),
    0 <= lrem < 10 ^ Z.of_nat i -> (i <= length arr)%nat ->
    exists ds,
      encodeLen i lrem arr
      = Ret ((i - length ds)%nat,
             take (i - length ds) arr ++ ds ++ drop i arr)
      /\ (length ds <= i)%nat
      /\ forallb isDigit ds = true
      /\ decimalFold ds = lrem
      /\ (lrem = 0 -> ds = [])
      /\ (0 < lrem -> ds <> [])
      /\ hd_error ds <> Some "0"%char.
Proof.
  induction i as [|i IH]; intros lrem arr Hl Harr.
  - assert (lrem = 0) as -> by (simpl in Hl; lia).
    exists []. simpl. repeat split; try lia; try congruence.
  - destruct (Z.ltb_spec 0 lrem) as [Hpos|Hzero].
    + assert (0 <= lrem / 10 < 10 ^ Z.of_nat i) as Hq.
      { split; [apply Z.div_pos; lia|].
        apply Z.div_lt_upper_bound; [lia|].
        replace (Z.of_nat (S i)) with (Z.succ (Z.of_nat i)) in Hl by lia.
        rewrite Z.pow_succ_r in Hl by lia. lia. }
      pose proof (Z.mod_pos_bound lrem 10 ltac:(lia)) as Hm.
      set (d := byte_of_Z (48 + lrem mod 10)).
      destruct (digit_byte (lrem mod 10) Hm) as [Hd1 Hd2]. fold d in Hd1, Hd2.
      destruct (IH (lrem / 10) (<[i := d]> arr) Hq) as
        (ds & Hrun & Hlen & Hdig & Hval & Hz & Hnz & Hhd).
      { rewrite length_insert. lia. }
      exists (ds ++ [d]).
      assert (length (ds ++ [d]) = S (length ds)) as Hlen'
        by (rewrite length_app; simpl; lia).
      simpl encodeLen.
      replace (0 <? lrem) with true by (symmetry; apply Z.ltb_lt; exact Hpos).
      fold d. rewrite Hrun, Hlen'.
      replace (S i - S (length ds))%nat with (i - length ds)%nat by lia.
      rewrite take_insert_ge by lia.
      rewrite (insert_take_drop arr i d) by lia.
      rewrite drop_app_length' by (rewrite length_take_le; lia).
      rewrite <- app_assoc. simpl.
      repeat split.
      * lia.
      * rewrite forallb_app, Hdig. simpl. rewrite Hd2. reflexivity.
      * rewrite decimalFold_snoc, Hval, Hd1.
        pose proof (Z.div_mod lrem 10 ltac:(lia)). lia.
      * lia.
      * intros _ E. destruct ds; discriminate.
      * destruct ds as [|c ds'].
        -- simpl. intros E. injection E as E.
           assert (lrem / 10 = 0) as Hq0.
           { destruct (Z.eq_dec (lrem / 10) 0) as [|Hne]; [assumption|].
             exfalso. apply Hnz; [lia | reflexivity]. }
           assert (Z_of_byte d = 48) as E' by (rewrite E; reflexivity).
           pose proof (Z.div_mod lrem 10 ltac:(lia)). lia.
        -- simpl. simpl in Hhd. exact Hhd.
    + assert (lrem = 0) as -> by lia.
      exists []. simpl encodeLen. simpl length.
      rewrite Nat.sub_0_r, app_nil_l, take_drop.
      repeat split; try lia; try congruence. simpl. congruence.
Qed.

Lemma encodeLen_no_fuel (i : nat) (lrem : Z) (arr : list ascii) :
  encodeLen i lrem arr <> OutOfFuel.
Proof.
  revert lrem arr. induction i as [|i IH]; intros lrem arr; simpl;
    destruct (0 <? lrem); try discriminate. apply IH.
Qed.

Lemma encodeLen_not_unknown (i : nat) (lrem : Z) (arr : list ascii) :
  encodeLen i lrem arr <> Panic panicUnknownProtocol.
Proof.
  revert lrem arr. induction i as [|i IH]; intros lrem arr; simpl;
    destruct (0 <? lrem); try discriminate. apply IH.
Qed.

Lemma formatText_nonempty (p : Protocol) pri ts host proc pid msgID body sd pfx e text :
  formatText p pri ts host proc pid msgID body sd pfx e = Ret text -> text <> [].
Proof.
  unfold formatText.
  destruct (p =? ProtocolV0Local); [intros E; injection E as <-; discriminate|].
  destruct (p =? ProtocolV0Net); [intros E; injection E as <-; discriminate|].
  destruct (p =? ProtocolV1Net); [intros E; injection E as <-; discriminate|].
  discriminate.
Qed.

Lemma usable_prefix (fmtr : formatter) :
  usable fmtr ->
  take 16 (s_arr (writeBuf fmtr)) = take 15 (s_arr (writeBuf fmtr)) ++ [" "%char]
  /\ length (take 15 (s_arr (writeBuf fmtr))) = 15%nat.
Proof.
  intros [Hcap H15]. unfold cap in Hcap. split.
  - apply take_S_r. exact H15.
  - apply length_take_le. lia.
Qed.

Lemma formatBytes_length (grow : nat -> nat -> nat) (fmtr : formatter)
    p b pri ts host proc pid msgID body sd msg :
  usable fmtr ->
  formatText p pri ts (orHyphen host) (orHyphen proc) pid msgID body
             (orHyphen sd) (bomPfxOf b) [] = Ret msg ->
  Z.of_nat (length msg) < 10 ^ 15 ->
  exists count fmtr',
    formatBytes grow fmtr p FramingLength b pri ts host proc pid msgID body sd
    = Ret (count ++ str " " ++ msg, fmtr')
    /\ decimalValue count = Some (Z.of_nat (length msg))
    /\ hd_error count <> Some "0"%char
    /\ usable fmtr'.
Proof.
  intros Hus Ht Hlen.
  destruct (usable_prefix fmtr Hus) as [H16 HP15].
  destruct Hus as [Hcap H15].
  pose proof (formatText_nonempty _ _ _ _ _ _ _ _ _ _ _ _ Ht) as Hne.
  unfold formatBytes.
  replace (cap (writeBuf fmtr) <? 16)%nat with false
    by (symmetry; apply Nat.ltb_ge; exact Hcap).
  change (endCharOf FramingLength) with (@nil ascii). rewrite Ht.
  change (negb (FramingLength =? FramingLength)) with false. cbv iota.
  set (buf := mkSlice (s_arr (writeBuf fmtr)) 16).
  assert (elemsFrom (sliceAppend grow buf msg) 16 = msg) as He
    by (apply (sliceAppend_elems grow buf msg); exact Hcap).
  rewrite He.
  destruct (sliceAppend_arr grow buf msg) as (post & Ha & Hl).
  simpl in Ha, Hl. rewrite H16 in Ha. rewrite Ha, Hl.
  set (P := take 15 (s_arr (writeBuf fmtr))) in *.
  destruct (encodeLen_spec 15 (Z.of_nat (length msg))
              ((P ++ [" "%char]) ++ msg ++ post)) as
    (ds & Hrun & Hdl & Hdig & Hval & _ & Hnz & Hhd).
  { split; [lia | exact Hlen]. }
  { rewrite !length_app, HP15. simpl. lia. }
  rewrite Hrun. clear Hrun.
  set (j := (15 - length ds)%nat).
  assert (take j ((P ++ [" "%char]) ++ msg ++ post) = take j P) as Htk.
  { rewrite <- app_assoc. apply take_app_le. lia. }
  assert (drop 15 ((P ++ [" "%char]) ++ msg ++ post) = " "%char :: msg ++ post)
    as Hdr.
  { rewrite <- app_assoc. rewrite drop_app_length' by (symmetry; exact HP15).
    reflexivity. }
  rewrite Htk, Hdr.
  assert (length (take j P) = j) as Hj by (apply length_take_le; lia).
  exists ds. eexists. split; [|split; [|split]].
  - f_equal. f_equal. unfold elemsFrom. simpl s_arr. simpl s_len.
    replace (take j P ++ ds ++ " "%char :: msg ++ post)
      with ((take j P ++ ds ++ " "%char :: msg) ++ post)
      by (rewrite <- !app_assoc; reflexivity).
    rewrite take_app_length'.
    + apply drop_app_length'. symmetry. exact Hj.
    + rewrite !length_app, Hj. simpl. unfold j. lia.
  - unfold decimalValue.
    assert (ds <> []) as Hds.
    { apply Hnz. destruct msg; [congruence | simpl; lia]. }
    destruct ds; [congruence|]. simpl isEmpty. cbv iota.
    rewrite Hdig, Hval. reflexivity.
  - exact Hhd.
  - unfold usable, cap. simpl. split.
    + rewrite !length_app, Hj. simpl. unfold j. lia.
    + rewrite app_assoc. rewrite lookup_app_r
        by (rewrite length_app, Hj; unfold j; lia).
      rewrite length_app, Hj. unfold j.
      replace (15 - (15 - length ds + length ds))%nat with 0%nat by lia.
      reflexivity.
Qed.

(** C3: length framing. For a usable scratch buffer and a known protocol,
    the message is assembled with an empty suffix ([msg], which is also
    what is written when no framing is selected); with length framing
    [formatTo] writes a decimal count, one space and [msg], nothing after
    it. The count is a non-empty digit string without leading zero whose
    value is the byte length of [msg]. The count is stored in the 15 bytes
    in front of the space, so the length must have at most 15 digits, which
    holds for every message that fits in memory. For the worked example
    the count is 70. *)
Theorem length_framing_count (grow : nat -> nat -> nat) (fmtr : formatter)
    (p : Protocol) (b : BOMMode) (pri : Z) (ts : Time)
    (host proc : gostring) (pid : Z) (msgID body sd : gostring) :
  usable fmtr -> knownProtocol p ->
  (exists msg,
     formatText p pri ts (orHyphen host) (orHyphen proc) pid msgID body
                (orHyphen sd) (bomPfxOf b) [] = Ret msg
     /\ written (formatBytes grow fmtr p FramingNone b pri ts host proc pid
                             msgID body sd) = Some msg
     /\ (Z.of_nat (length msg) < 10 ^ 15 ->
         exists count fmtr',
           formatBytes grow fmtr p FramingLength b pri ts host proc pid
                       msgID body sd
           = Ret (count ++ str " " ++ msg, fmtr')
           /\ decimalValue count = Some (Z.of_nat (length msg))
           /\ hd_error count <> Some "0"%char
           /\ usable fmtr'))
  /\ written (exampleBytes grow (formatter_init zeroFormatter)
                           ProtocolV1Net FramingLength BOMModeAlways)
     = Some (str "70 <36>1 2021-10-11T07:25:00Z HostName ProcName 12345 MsgID SD "
               ++ [ascii_of_nat 239; ascii_of_nat 187; ascii_of_nat 191]
               ++ str "MsgBody").
Proof.
  intros Hus Hp. split; [|vm_compute; reflexivity].
  destruct (formatText_total p pri ts (orHyphen host) (orHyphen proc) pid
              msgID body (orHyphen sd) (bomPfxOf b) [] Hp) as (msg & Ht).
  exists msg. split; [exact Ht|]. split.
  - destruct (formatBytes_unframed grow fmtr p FramingNone b pri ts host proc
                pid msgID body sd msg) as (fmtr' & Hb & _).
    + apply Hus.
    + discriminate.
    + exact Ht.
    + rewrite Hb. reflexivity.
  - intros Hlen. apply formatBytes_length; assumption.
Qed.

Lemma length_framing_count_witness :
  exists count fmtr',
    exampleBytes (fun _ _ => 0%nat) (formatter_init zeroFormatter)
                 ProtocolV0Local FramingLength BOMModeNever
    = Ret (count ++ str " "
             ++ str "<36>Oct 11 07:25:00 ProcName[12345]: MsgID MsgBody", fmtr')
    /\ decimalValue count = Some 50.
Proof.
  assert (usable (formatter_init zeroFormatter)) as Hus
    by (split; [vm_compute; lia | reflexivity]).
  assert (knownProtocol ProtocolV0Local) as Hp by (left; reflexivity).
  destruct (length_framing_count (fun _ _ => 0%nat) (formatter_init zeroFormatter)
              ProtocolV0Local BOMModeNever (makePri SeverityWarning FacilityAuth)
              (Date 2021 10 11 7 25 0 0 UTC) (str "HostName") (str "ProcName")
              12345 (str "MsgID") (str "MsgBody") (str "SD") Hus Hp)
    as ((msg & Ht & _ & Hlen) & _).
  assert (msg = str "<36>Oct 11 07:25:00 ProcName[12345]: MsgID MsgBody") as ->.
  { assert (Ret msg
            = Ret (str "<36>Oct 11 07:25:00 ProcName[12345]: MsgID MsgBody"))
      as E by (rewrite <- Ht; vm_compute; reflexivity).
    injection E as E. exact E. }
  destruct Hlen as (count & fmtr' & Hb & Hv & _).
  - vm_compute. reflexivity.
  - exists count, fmtr'. split; [exact Hb | exact Hv].
Defined.

(** ** Placement of the byte-order marker *)

Lemma formatText_wire (p : Protocol) pri ts host proc pid msgID body sd e :
  knownProtocol p ->
  formatText p pri ts (orHyphen host) (orHyphen proc) pid msgID body
             (orHyphen sd) (bomPfxOf BOMModeAlways) e
  = Ret (wireHeader p pri ts host proc pid msgID sd ++ bom
           ++ wirePayload p msgID body ++ e).
Proof.
  change (bomPfxOf BOMModeAlways) with bom.
  intros [-> | [-> | ->]]; unfold formatText, wireHeader, wirePayload;
    simpl Z.eqb; cbv iota; f_equal; destruct msgID;
    repeat rewrite <- app_assoc; reflexivity.
Qed.

Lemma noEF_app (a b : gostring) : noEF (a ++ b) = noEF a && noEF b.
Proof. apply forallb_app. Qed.

Lemma isASCII_noEF (s : gostring) : forallb isASCII s = true -> noEF s = true.
Proof.
  unfold noEF. rewrite !forallb_forall. intros H c Hc.
  specialize (H c Hc). apply negb_true_iff, Ascii.eqb_neq. intros ->.
  vm_compute in H. discriminate.
Qed.

Lemma count_bom_none (s : gostring) :
  noEF s = true -> countOccurrences bom s = 0%nat.
Proof.
  induction s as [|c s IH]; [reflexivity|].
  intros Hs. simpl in Hs. apply andb_true_iff in Hs as [Hc Hs].
  apply negb_true_iff in Hc.
  cbn [countOccurrences]. rewrite IH by assumption.
  unfold bom. cbn [HasPrefix]. rewrite Hc. reflexivity.
Qed.

Lemma count_bom_skip (pre t : gostring) :
  noEF pre = true ->
  countOccurrences bom (pre ++ t) = countOccurrences bom t.
Proof.
  induction pre as [|c pre IH]; [reflexivity|].
  intros Hs. simpl in Hs. apply andb_true_iff in Hs as [Hc Hs].
  apply negb_true_iff in Hc.
  rewrite <- app_comm_cons. cbn [countOccurrences]. rewrite IH by assumption.
  unfold bom. cbn [HasPrefix]. rewrite Hc. reflexivity.
Qed.

Lemma count_bom_once (pre post : gostring) :
  noEF pre = true -> noEF post = true ->
  countOccurrences bom (pre ++ bom ++ post) = 1%nat.
Proof.
  intros Hpre Hpost. rewrite count_bom_skip by assumption.
  unfold bom. simpl app. cbn [countOccurrences].
  fold bom. rewrite (count_bom_none post Hpost).
  vm_compute. reflexivity.
Qed.

(** The generated parts of a message (numbers, timestamps) are ASCII. *)

Lemma digitChar_ascii (d : Z) : 0 <= d < 10 -> isASCII (digitChar d) = true.
Proof.
  intros Hd. unfold isASCII, digitChar.
  rewrite Z_of_byte_of_Z by lia. apply Z.ltb_lt. lia.
Qed.

Lemma fmtUint_aux_ascii (fuel : nat) :
  forall n acc, forallb isASCII acc = true ->
                forallb isASCII (fmtUint_aux fuel n acc) = true.
Proof.
  induction fuel as [|fuel IH]; intros n acc Hacc; simpl; [exact Hacc|].
  assert (forallb isASCII (digitChar (n mod 10) :: acc) = true) as Hacc'.
  { simpl. rewrite Hacc, digitChar_ascii; [reflexivity|].
    apply Z.mod_pos_bound. lia. }
  destruct (n / 10 =? 0); [exact Hacc' | apply IH; exact Hacc'].
Qed.

Lemma fmtUint_ascii (n : Z) : forallb isASCII (fmtUint n) = true.
Proof. apply fmtUint_aux_ascii. reflexivity. Qed.

Lemma fmtInt_ascii (n : Z) : forallb isASCII (fmtInt n) = true.
Proof.
  unfold fmtInt. destruct (n <? 0); [|apply fmtUint_ascii].
  rewrite forallb_app, fmtUint_ascii. reflexivity.
Qed.

Lemma replicate_ascii (k : nat) (c : ascii) :
  isASCII c = true -> forallb isASCII (replicate k c) = true.
Proof. intros Hc. induction k; simpl; [reflexivity|]. rewrite Hc. exact IHk. Qed.

Lemma appendInt_ascii (x : Z) (width : nat) :
  forallb isASCII (appendInt x width) = true.
Proof.
  unfold appendInt. rewrite !forallb_app, fmtUint_ascii, replicate_ascii
    by reflexivity.
  destruct (x <? 0); reflexivity.
Qed.

Lemma monthAbbrev_ascii (m : Z) : forallb isASCII (monthAbbrev m) = true.
Proof.
  unfold monthAbbrev.
  generalize (Z.to_nat (m - 1)). intros k.
  do 12 (destruct k as [|k]; [vm_compute; reflexivity|]).
  destruct k; reflexivity.
Qed.

Lemma formatClock_ascii (c : civilTime) : forallb isASCII (formatClock c) = true.
Proof.
  unfold formatClock. rewrite !forallb_app, !appendInt_ascii. reflexivity.
Qed.

Lemma FormatStamp_ascii (t : Time) : forallb isASCII (FormatStamp t) = true.
Proof.
  unfold FormatStamp.
  rewrite !forallb_app, monthAbbrev_ascii, appendInt_ascii, formatClock_ascii.
  destruct (c_day (civil t) <? 10); reflexivity.
Qed.

Lemma trimZeros_rev_In (r : gostring) (c : ascii) :
  In c (trimZeros_rev r) -> In c r.
Proof.
  induction r as [|x r IH]; simpl; [tauto|].
  destruct (Ascii.eqb x "0"); [auto | simpl; tauto].
Qed.

Lemma appendNano_ascii (nsec : Z) : forallb isASCII (appendNano nsec) = true.
Proof.
  unfold appendNano. destruct (nsec =? 0); [reflexivity|].
  rewrite forallb_app. simpl. apply forallb_forall. intros c Hc.
  apply in_rev, trimZeros_rev_In in Hc. apply in_rev in Hc.
  pose proof (appendInt_ascii nsec 9) as H. rewrite forallb_forall in H.
  apply H. exact Hc.
Qed.

Lemma formatZone_ascii (off : Z) : forallb isASCII (formatZone off) = true.
Proof.
  unfold formatZone. destruct (off =? 0); [reflexivity|].
  rewrite !forallb_app, !appendInt_ascii.
  destruct (Z.quot off 60 <? 0); reflexivity.
Qed.

Lemma FormatRFC3339Nano_ascii (t : Time) :
  forallb isASCII (FormatRFC3339Nano t) = true.
Proof.
  unfold FormatRFC3339Nano.
  rewrite !forallb_app, !appendInt_ascii, formatClock_ascii, appendNano_ascii,
    formatZone_ascii. reflexivity.
Qed.

Lemma orHyphen_noEF (s : gostring) : noEF s = true -> noEF (orHyphen s) = true.
Proof. destruct s; [reflexivity | auto]. Qed.

Lemma wireHeader_noEF (p : Protocol) pri ts host proc pid msgID sd :
  noEF host = true -> noEF proc = true -> noEF msgID = true -> noEF sd = true ->
  noEF (wireHeader p pri ts host proc pid msgID sd) = true.
Proof.
  intros Hh Hp Hm Hs. unfold wireHeader.
  pose proof (isASCII_noEF _ (fmtInt_ascii pri)) as Hpri.
  pose proof (isASCII_noEF _ (fmtInt_ascii pid)) as Hpid.
  pose proof (isASCII_noEF _ (FormatStamp_ascii ts)) as Hst.
  pose proof (isASCII_noEF _ (FormatRFC3339Nano_ascii ts)) as Hrfc.
  apply orHyphen_noEF in Hh, Hp, Hm, Hs.
  destruct (p =? ProtocolV0Local); [|destruct (p =? ProtocolV0Net)];
    rewrite !noEF_app, ?Hpri, ?Hpid, ?Hst, ?Hrfc, ?Hh, ?Hp, ?Hm, ?Hs;
    reflexivity.
Qed.

Lemma wirePayload_noEF (p : Protocol) (msgID body : gostring) :
  noEF msgID = true -> noEF body = true -> noEF (wirePayload p msgID body) = true.
Proof.
  intros Hm Hb. unfold wirePayload.
  destruct (p =? ProtocolV1Net); [exact Hb|].
  destruct msgID as [|c m]; [exact Hb|].
  rewrite !noEF_app, Hm, Hb. reflexivity.
Qed.

Lemma endCharOf_ascii (f : Framing) : forallb isASCII (endCharOf f) = true.
Proof.
  unfold endCharOf.
  destruct (f =? FramingDelimiterNUL); [reflexivity|].
  destruct (f =? FramingDelimiterLF); reflexivity.
Qed.

Lemma isDigit_ascii (s : gostring) :
  forallb isDigit s = true -> forallb isASCII s = true.
Proof.
  rewrite !forallb_forall. intros H c Hc. specialize (H c Hc).
  unfold isDigit in H. apply andb_true_iff in H as [_ H].
  apply Z.leb_le in H. unfold isASCII. apply Z.ltb_lt. lia.
Qed.

Lemma decimalValue_digits (s : gostring) (v : Z) :
  decimalValue s = Some v -> forallb isDigit s = true.
Proof.
  unfold decimalValue. destruct (isEmpty s); [discriminate|].
  destruct (forallb isDigit s); [reflexivity | discriminate].
Qed.

(** C4, as the code has it: with the BOM always on, every protocol writes
    the header of its wire format, the three-byte marker, and the payload
    followed by the framing suffix (after the decimal count and a space
    under length framing). For the versioned network protocol the payload
    is the body, so the marker stands immediately before the body and
    after the message id and the structured data. For the two legacy
    protocols the message id is folded into the body, so the payload is
    the message id, a space and the body, and the marker stands immediately
    before the message id when one is given. When no field supplied by the
    caller contains the byte 0xEF, the marker occurs exactly once. *)
Theorem bom_placement (grow : nat -> nat -> nat) (fmtr : formatter)
    (p : Protocol) (f : Framing) (pri : Z) (ts : Time)
    (host proc : gostring) (pid : Z) (msgID body sd : gostring) :
  usable fmtr -> knownProtocol p ->
  let msg := wireHeader p pri ts host proc pid msgID sd ++ bom
               ++ wirePayload p msgID body ++ endCharOf f in
  (f = FramingLength -> Z.of_nat (length msg) < 10 ^ 15) ->
  exists pre fmtr',
    formatBytes grow fmtr p f BOMModeAlways pri ts host proc pid msgID body sd
    = Ret (pre ++ msg, fmtr')
    /\ (f <> FramingLength -> pre = [])
    /\ forallb isASCII pre = true
    /\ (noEF host = true -> noEF proc = true -> noEF msgID = true ->
        noEF sd = true -> noEF body = true ->
        countOccurrences bom (pre ++ msg) = 1%nat).
Proof.
  intros Hus Hp msg Hlen.
  assert (forall pre, forallb isASCII pre = true ->
            noEF host = true -> noEF proc = true -> noEF msgID = true ->
            noEF sd = true -> noEF body = true ->
            countOccurrences bom (pre ++ msg) = 1%nat) as Hcount.
  { intros pre Hpre Hh Hpr Hm Hs Hb. unfold msg.
    rewrite app_assoc. apply count_bom_once.
    - rewrite noEF_app, (isASCII_noEF pre Hpre), wireHeader_noEF by assumption.
      reflexivity.
    - rewrite noEF_app, wirePayload_noEF by assumption.
      rewrite (isASCII_noEF _ (endCharOf_ascii f)). reflexivity. }
  pose proof (formatText_wire p pri ts host proc pid msgID body sd
                (endCharOf f) Hp) as Ht. fold msg in Ht.
  destruct (Z.eq_dec f FramingLength) as [Ef|Ef].
  - subst f. specialize (Hlen eq_refl).
    change (endCharOf FramingLength) with (@nil ascii) in Ht.
    destruct (formatBytes_length grow fmtr p BOMModeAlways pri ts host proc pid
                msgID body sd msg Hus Ht Hlen)
      as (count & fmtr' & Hb & Hv & _ & _).
    assert (forallb isASCII (count ++ str " ") = true) as Hpre.
    { rewrite forallb_app, (isDigit_ascii count (decimalValue_digits _ _ Hv)).
      reflexivity. }
    exists (count ++ str " "), fmtr'. split; [|split; [|split]].
    + rewrite Hb, <- app_assoc. reflexivity.
    + congruence.
    + exact Hpre.
    + apply Hcount. exact Hpre.
  - destruct (formatBytes_unframed grow fmtr p f BOMModeAlways pri ts host proc
                pid msgID body sd msg (proj1 Hus) Ef Ht) as (fmtr' & Hb & _).
    exists [], fmtr'. split; [|split; [|split]].
    + exact Hb.
    + reflexivity.
    + reflexivity.
    + apply Hcount. reflexivity.
Qed.

Lemma bom_placement_witness :
  exists pre fmtr',
    exampleBytes (fun _ _ => 0%nat) (formatter_init zeroFormatter)
                 ProtocolV0Net FramingDelimiterLF BOMModeAlways
    = Ret (pre ++ str "<36>Oct 11 07:25:00 HostName ProcName[12345]: " ++ bom
             ++ str "MsgID MsgBody" ++ [ascii_of_nat 10], fmtr')
    /\ pre = []
    /\ countOccurrences bom
         (pre ++ str "<36>Oct 11 07:25:00 HostName ProcName[12345]: " ++ bom
            ++ str "MsgID MsgBody" ++ [ascii_of_nat 10]) = 1%nat.
Proof.
  assert (usable (formatter_init zeroFormatter)) as Hus
    by (split; [vm_compute; lia | reflexivity]).
  assert (knownProtocol ProtocolV0Net) as Hp by (right; left; reflexivity).
  destruct (bom_placement (fun _ _ => 0%nat) (formatter_init zeroFormatter)
              ProtocolV0Net FramingDelimiterLF
              (makePri SeverityWarning FacilityAuth)
              (Date 2021 10 11 7 25 0 0 UTC) (str "HostName") (str "ProcName")
              12345 (str "MsgID") (str "MsgBody") (str "SD") Hus Hp)
    as (pre & fmtr' & Hb & Hpre & _ & Hcount).
  - discriminate.
  - exists pre, fmtr'. split; [exact Hb|]. split.
    + apply Hpre. discriminate.
    + apply Hcount; reflexivity.
Defined.

(** C4 does not hold as stated. With the legacy local protocol the marker
    is followed by the message id, not by the body; and a body that itself
    starts with the three bytes makes the marker occur twice. *)
Lemma bom_placement_counterexample :
  written (exampleBytes (fun _ _ => 0%nat) (formatter_init zeroFormatter)
                        ProtocolV0Local FramingNone BOMModeAlways)
  = Some (str "<36>Oct 11 07:25:00 ProcName[12345]: " ++ bom
            ++ str "MsgID MsgBody")
  /\ countOccurrences (bom ++ str "MsgBody")
       (str "<36>Oct 11 07:25:00 ProcName[12345]: " ++ bom
          ++ str "MsgID MsgBody") = 0%nat
  /\ countOccurrences (bom ++ str "MsgID")
       (str "<36>Oct 11 07:25:00 ProcName[12345]: " ++ bom
          ++ str "MsgID MsgBody") = 1%nat
  /\ (exists out,
        written (formatBytes (fun _ _ => 0%nat) (formatter_init zeroFormatter)
                   ProtocolV1Net FramingNone BOMModeAlways 36
                   (Date 2021 10 11 7 25 0 0 UTC) (str "HostName")
                   (str "ProcName") 12345 (str "MsgID")
                   (bom ++ str "MsgBody") (str "SD")) = Some out
        /\ countOccurrences bom out = 2%nat).
Proof.
  split; [vm_compute; reflexivity|].
  split; [vm_compute; reflexivity|].
  split; [vm_compute; reflexivity|].
  eexists. split; vm_compute; reflexivity.
Qed.

(** ** The client: running the monad *)

Lemma bind_Ret {A C} (m : M A) (k : A -> M C) (wd wd1 : World) (a : A) :
  m wd = (Ret a, wd1) -> bind m k wd = k a wd1.
Proof. intros Hm. unfold bind. rewrite Hm. reflexivity. Qed.

Lemma bind_Ret_inv {A C} (m : M A) (k : A -> M C) (wd wd' : World) (c : C) :
  bind m k wd = (Ret c, wd') ->
  exists a wd1, m wd = (Ret a, wd1) /\ k a wd1 = (Ret c, wd').
Proof.
  unfold bind. destruct (m wd) as [[a|e|] wd1]; intros Hk;
    [eauto | discriminate | discriminate].
Qed.

Section ClientFacts.

Context {B : Type} `{BackoffPolicy B}.
Variable env : Env.

Lemma afterDials_nil (l : Logger B) (wd : World) : afterDials l [] wd = wd.
Proof.
  destruct wd. unfold afterDials. simpl.
  rewrite Nat.add_0_r, app_nil_r. reflexivity.
Qed.

Lemma afterDials_cons (l : Logger B) (t : connTarget) ts (wd : World) :
  afterDials l ts (afterDials l [t] wd) = afterDials l (t :: ts) wd.
Proof.
  unfold afterDials. simpl. f_equal; [lia|].
  rewrite <- app_assoc. reflexivity.
Qed.

Lemma getNewConnUsingTarget_run (l : Logger B) (t : connTarget) (wd : World) :
  getNewConnUsingTarget env l (Network t) (Address t) wd
  = (Ret (dialResult env l wd 0 t), afterDials l [t] wd).
Proof.
  unfold getNewConnUsingTarget, dialResult, dialOf, afterDials, dialEvent.
  rewrite Nat.add_0_r, Nat.add_1_r.
  destruct (cfg_DialFunc (l_cfg l)); reflexivity.
Qed.

Lemma dialResult_shift (l : Logger B) (t t' : connTarget) (wd : World) (i : nat) :
  dialResult env l (afterDials l [t] wd) i t' = dialResult env l wd (S i) t'.
Proof.
  unfold dialResult, afterDials. simpl. f_equal. lia.
Qed.

(** The loop of [getNewConn] when every candidate fails. *)
Lemma getNewConn_loop_all_fail (l : Logger B) (targets : list connTarget) :
  forall (firstErr : option error) (wd : World),
    (forall i t, targets !! i = Some t -> fails (dialResult env l wd i t)) ->
    getNewConn_loop env l targets firstErr wd
    = (Ret (None,
            match firstErr with
            | Some e => Some e
            | None =>
                match targets with
                | t :: _ =>
                    match dialResult env l wd 0 t with
                    | inr e => Some e
                    | inl _ => None
                    end
                | [] => None
                end
            end),
       afterDials l targets wd).
Proof.
  induction targets as [|t rest IH]; intros firstErr wd Hall.
  - simpl. unfold ret. rewrite afterDials_nil. destruct firstErr; reflexivity.
  - cbn [getNewConn_loop].
    rewrite (bind_Ret _ _ _ _ _ (getNewConnUsingTarget_run l t wd)).
    destruct (Hall 0%nat t eq_refl) as [e He]. rewrite He.
    rewrite IH.
    + rewrite afterDials_cons. destruct firstErr; reflexivity.
    + intros i t' Hi. rewrite dialResult_shift. apply (Hall (S i)). exact Hi.
Qed.

(** The loop of [getNewConn] when candidate [k] is the first to succeed. *)
Lemma getNewConn_loop_success (l : Logger B) (targets : list connTarget) :
  forall (k : nat) (t : connTarget) (c : conn) (firstErr : option error)
         (wd : World),
    targets !! k = Some t ->
    dialResult env l wd k t = inl c ->
    (forall i t', (i < k)%nat -> targets !! i = Some t' ->
                  fails (dialResult env l wd i t')) ->
    getNewConn_loop env l targets firstErr wd
    = (Ret (Some c, None), afterDials l (take (S k) targets) wd).
Proof.
  induction targets as [|t0 rest IH]; intros k t c firstErr wd Hk Hc Hbefore.
  - discriminate.
  - cbn [getNewConn_loop].
    rewrite (bind_Ret _ _ _ _ _ (getNewConnUsingTarget_run l t0 wd)).
    destruct k as [|k].
    + injection Hk as ->. rewrite Hc. reflexivity.
    + destruct (Hbefore 0%nat t0 ltac:(lia) eq_refl) as [e He]. rewrite He.
      rewrite (IH k t c).
      * rewrite afterDials_cons. reflexivity.
      * exact Hk.
      * rewrite dialResult_shift. exact Hc.
      * intros i t' Hi Ht'. rewrite dialResult_shift.
        apply (Hbefore (S i)); [lia | exact Ht'].
Qed.

(** In every case the loop dials a prefix of the list, in order, and ends
    with a handle and no error, or with no handle. *)
Lemma getNewConn_loop_run (l : Logger B) (targets : list connTarget) :
  forall (firstErr : option error) (wd : World),
  exists k r,
    getNewConn_loop env l targets firstErr wd
    = (Ret r, afterDials l (take k targets) wd)
    /\ (targets <> [] -> (0 < k)%nat)
    /\ ((exists c, r = (Some c, None))
        \/ (exists fe, r = (None, fe)
                       /\ (targets <> [] -> fe <> None)
                       /\ (fe = None -> targets = []))).
Proof.
  induction targets as [|t rest IH]; intros firstErr wd.
  - exists 0%nat, (None, firstErr). simpl. unfold ret.
    rewrite afterDials_nil. split; [reflexivity|]. split; [congruence|].
    right. exists firstErr. split; [reflexivity|]. split; congruence.
  - cbn [getNewConn_loop].
    rewrite (bind_Ret _ _ _ _ _ (getNewConnUsingTarget_run l t wd)).
    destruct (dialResult env l wd 0 t) as [c|e].
    + exists 1%nat, (Some c, None). simpl. split; [reflexivity|].
      split; [lia|]. left. eauto.
    + set (fe' := match firstErr with None => Some e | Some _ => firstErr end).
      destruct (IH fe' (afterDials l [t] wd)) as (k & r & Hrun & _ & Hr).
      exists (S k), r. rewrite Hrun, afterDials_cons. simpl.
      split; [reflexivity|]. split; [lia|].
      destruct Hr as [Hr | (fe & -> & Hfe & Hnone)]; [left; exact Hr|].
      right. exists fe. split; [reflexivity|].
      assert (fe <> None) as Hne.
      { intros ->. specialize (Hnone eq_refl). subst rest.
        simpl in Hrun. unfold ret in Hrun. injection Hrun as Hfe' _.
        unfold fe' in Hfe'. destruct firstErr; discriminate. }
      split; [intros _; exact Hne | intros E; contradiction].
Qed.

(** [ensureConn], case by case. *)

Lemma ensureConn_connected (l : Logger B) (c : conn) (wd : World) :
  l_w l = Some c -> ensureConn env l wd = (Ret (None, l), wd).
Proof. intros Hw. unfold ensureConn. rewrite Hw. reflexivity. Qed.

Lemma ensureConn_closed (l : Logger B) (wd : World) :
  l_w l = None -> l_closed l = true ->
  ensureConn env l wd = (Ret (Some errClosed, l), wd).
Proof. intros Hw Hc. unfold ensureConn. rewrite Hw, Hc. reflexivity. Qed.

Lemma ensureConn_waiting (l : Logger B) (wd : World) :
  l_w l = None -> l_closed l = false ->
  IsZero (l_reconnectStartTime l) = false ->
  Before (env_now env (w_clock wd)) (l_reconnectStartTime l) = true ->
  ensureConn env l wd = (Ret (Some errReconnectBackoff, l), afterClock wd).
Proof.
  intros Hw Hc Hz Hb. unfold ensureConn. rewrite Hw, Hc, Hz. simpl negb.
  unfold bind, timeNow, ret. rewrite Hb. reflexivity.
Qed.

Lemma ensureConn_dial (l : Logger B) (wd : World) :
  l_w l = None -> l_closed l = false -> windowPassed env l wd ->
  ensureConn env l wd
  = bind (getNewConn env (advanced env l wd))
         (fun r =>
            let l1 := set_w (advanced env l wd) (fst r) in
            match snd r with
            | None => bind (lift (autoconfig env l1)) (fun l' => ret (None, l'))
            | Some err => ret (Some err, l1)
            end)
         (advancedWorld l wd).
Proof.
  intros Hw Hc Hpass. unfold ensureConn, advanced, advancedWorld, windowClock.
  rewrite Hw, Hc.
  destruct (IsZero (l_reconnectStartTime l)) eqn:Hz; simpl negb.
  - unfold bind at 1. unfold ret at 1. unfold bind at 1. unfold timeNow at 1.
    destruct (NextDelay (cfg_ConnectBackoff (l_cfg l))) as [d bo].
    reflexivity.
  - destruct Hpass as [Hg|Hg]; [congruence|].
    unfold bind at 1. unfold bind at 1. unfold timeNow at 1. unfold ret at 1.
    rewrite Hg.
    unfold bind at 1. unfold timeNow at 1.
    destruct (NextDelay (cfg_ConnectBackoff (l_cfg l))) as [d bo].
    reflexivity.
Qed.

Lemma autoconfig_run (l : Logger B) :
  l_connTargets l <> [] ->
  exists c',
    autoconfig env l = Ret (set_cfg l c')
    /\ cfg_ConnectBackoff c' = cfg_ConnectBackoff (l_cfg l)
    /\ cfg_DialFunc c' = cfg_DialFunc (l_cfg l)
    /\ (l_autoconfigDone l = false ->
        exists u, cfg_Protocol c' = Protocol_resolve (cfg_Protocol (l_cfg l)) u).
Proof.
  intros Hts. unfold autoconfig.
  destruct (l_autoconfigDone l) eqn:Hdone.
  - exists (l_cfg l). split; [destruct l; reflexivity|].
    repeat split. discriminate.
  - assert (exists n, getNetwork l (l_w l) = Ret n) as [n Hn].
    { unfold getNetwork. destruct (l_w l) as [[i [n|]]|]; eauto;
        destruct (l_connTargets l); eauto; congruence. }
    rewrite Hn. eexists. split; [reflexivity|]. simpl.
    repeat split. intros _. eauto.
Qed.

Lemma keeps_refl (l : Logger B) : keeps l l.
Proof. repeat split. Qed.

Lemma keeps_trans (l1 l2 l3 : Logger B) : keeps l1 l2 -> keeps l2 l3 -> keeps l1 l3.
Proof.
  intros (A1 & A2 & A3 & A4) (B1 & B2 & B3 & B4).
  repeat split; congruence.
Qed.

Lemma ensureConn_dial_run (l : Logger B) (wd : World) :
  l_w l = None -> l_closed l = false -> windowPassed env l wd ->
  l_connTargets l <> [] ->
  exists k r l',
    ensureConn env l wd
    = (Ret (r, l'), afterDials l (take k (l_connTargets l)) (advancedWorld l wd))
    /\ (0 < k)%nat
    /\ l_reconnectStartTime l' = l_reconnectStartTime (advanced env l wd)
    /\ cfg_ConnectBackoff (l_cfg l') = cfg_ConnectBackoff (l_cfg (advanced env l wd))
    /\ l_fmtr l' = l_fmtr l
    /\ keeps l l'
    /\ ((r = None
         /\ exists c, l_w l' = Some c
            /\ (l_autoconfigDone l = false ->
                exists u, cfg_Protocol (l_cfg l')
                          = Protocol_resolve (cfg_Protocol (l_cfg l)) u))
        \/ (exists e, r = Some e /\ l_w l' = None)).
Proof.
  intros Hw Hc Hpass Hts.
  rewrite (ensureConn_dial l wd Hw Hc Hpass).
  unfold getNewConn.
  destruct (getNewConn_loop_run (advanced env l wd)
              (l_connTargets (advanced env l wd)) None (advancedWorld l wd))
    as (k & r & Hrun & Hk & Hr).
  change (l_connTargets (advanced env l wd)) with (l_connTargets l) in *.
  rewrite (bind_Ret _ _ _ _ _ Hrun).
  change (afterDials (advanced env l wd)) with (afterDials l).
  destruct Hr as [[c ->] | (fe & -> & Hfe & _)]; cbn [fst snd].
  - destruct (autoconfig_run (set_w (advanced env l wd) (Some c)) Hts)
      as (c' & Hauto & Hbo & Hdf & Hproto).
    unfold bind, lift, ret. rewrite Hauto.
    exists k, None, (set_cfg (set_w (advanced env l wd) (Some c)) c').
    split; [reflexivity|]. split; [auto|]. split; [reflexivity|].
    split; [exact Hbo|]. split; [reflexivity|].
    split; [repeat split; exact Hdf|].
    left. split; [reflexivity|]. exists c. split; [reflexivity|]. exact Hproto.
  - destruct fe as [e|]; [|exfalso; apply (Hfe Hts); reflexivity].
    exists k, (Some e), (set_w (advanced env l wd) None).
    unfold ret. split; [reflexivity|]. split; [auto|].
    repeat split. right. exists e. split; reflexivity.
Qed.

Lemma dialResult_advanced (l : Logger B) (wd : World) (i : nat) (t : connTarget) :
  dialResult env (advanced env l wd) (advancedWorld l wd) i t
  = dialResult env l wd i t.
Proof.
  unfold dialResult, advancedWorld, windowClock.
  change (dialOf env (advanced env l wd)) with (dialOf env l).
  destruct (IsZero (l_reconnectStartTime l)); reflexivity.
Qed.

Lemma ensureConn_all_fail (l : Logger B) (wd : World) (t0 : connTarget) (e0 : error) :
  l_w l = None -> l_closed l = false -> windowPassed env l wd ->
  head (l_connTargets l) = Some t0 ->
  dialResult env l wd 0 t0 = inr e0 ->
  (forall i t, l_connTargets l !! i = Some t -> fails (dialResult env l wd i t)) ->
  ensureConn env l wd
  = (Ret (Some e0, set_w (advanced env l wd) None),
     afterDials l (l_connTargets l) (advancedWorld l wd)).
Proof.
  intros Hw Hc Hpass Hhd He0 Hall.
  rewrite (ensureConn_dial l wd Hw Hc Hpass). unfold getNewConn.
  change (l_connTargets (advanced env l wd)) with (l_connTargets l).
  rewrite (bind_Ret _ _ _ _ _
             (getNewConn_loop_all_fail (advanced env l wd) (l_connTargets l)
                None (advancedWorld l wd)
                ltac:(intros i t Hi; rewrite dialResult_advanced; auto))).
  destruct (l_connTargets l) as [|t ts]; [discriminate|].
  injection Hhd as ->. rewrite dialResult_advanced, He0. reflexivity.
Qed.

End ClientFacts.

Lemma New_sample (env : Env) :
  New env (sampleConfig [] []) = (Some sampleLogger, None).
Proof. reflexivity. Qed.

(** C7: when every candidate of a non-empty target list fails, the
    connection attempt has dialled all candidates in list order and returns
    the error of the first one, and [ensureConn] passes that error on and
    leaves the logger without connection; when candidate [k] is the first
    to succeed, exactly the candidates up to [k] are dialled, in order. *)
Theorem first_error_reported {B : Type} `{BackoffPolicy B} (env : Env)
    (l : Logger B) (wd : World) :
  l_connTargets l <> [] ->
  ((forall i t, l_connTargets l !! i = Some t -> fails (dialResult env l wd i t)) ->
   exists t0 e0,
     head (l_connTargets l) = Some t0
     /\ dialResult env l wd 0 t0 = inr e0
     /\ getNewConn env l wd
        = (Ret (None, Some e0), afterDials l (l_connTargets l) wd)
     /\ (l_w l = None -> l_closed l = false -> windowPassed env l wd ->
         exists l',
           ensureConn env l wd
           = (Ret (Some e0, l'),
              afterDials l (l_connTargets l) (advancedWorld l wd))
           /\ l_w l' = None /\ l_closed l' = false))
  /\ (forall k t c,
        l_connTargets l !! k = Some t ->
        dialResult env l wd k t = inl c ->
        (forall i t', (i < k)%nat -> l_connTargets l !! i = Some t' ->
                      fails (dialResult env l wd i t')) ->
        getNewConn env l wd
        = (Ret (Some c, None), afterDials l (take (S k) (l_connTargets l)) wd)).
Proof.
  intros Hts. split.
  - intros Hall.
    destruct (l_connTargets l) as [|t0 ts] eqn:Etargets; [congruence|].
    destruct (Hall 0%nat t0 eq_refl) as [e0 He0].
    exists t0, e0. split; [reflexivity|]. split; [exact He0|]. split.
    + unfold getNewConn. rewrite Etargets.
      rewrite (getNewConn_loop_all_fail env l (t0 :: ts) None wd Hall).
      rewrite He0. reflexivity.
    + intros Hw Hc Hpass.
      exists (set_w (advanced env l wd) None).
      split; [|split; [reflexivity | exact Hc]].
      rewrite <- Etargets.
      apply (ensureConn_all_fail env l wd t0 e0); try assumption.
      * rewrite Etargets. reflexivity.
      * rewrite Etargets. exact Hall.
  - intros k t c Hk Hc Hbefore. unfold getNewConn.
    apply (getNewConn_loop_success env l (l_connTargets l) k t c None wd);
      assumption.
Qed.

Lemma first_error_reported_witness :
  getNewConn (sampleEnv always never) sampleLogger world0
  = (Ret (None, Some (errExternal 100)),
     afterDials sampleLogger (l_connTargets sampleLogger) world0).
Proof.
  assert (l_connTargets sampleLogger <> []) as Hts by discriminate.
  destruct (first_error_reported (sampleEnv always never) sampleLogger world0 Hts)
    as [Hfail _].
  destruct Hfail as (t0 & e0 & Hhd & He0 & Hrun & _).
  - intros i t _. eexists. reflexivity.
  - injection Hhd as <-. injection He0 as <-. exact Hrun.
Defined.

Lemma Write_ensure_error {B : Type} `{BackoffPolicy B} (env : Env)
    (l l' : Logger B) (msg : Message) (wd wd' : World) (e : error) :
  ensureConn env l wd = (Ret (Some e, l'), wd') ->
  Write env l msg wd = (Ret (Some e, l'), wd').
Proof.
  intros He. unfold Write. rewrite (bind_Ret _ _ _ _ _ He). reflexivity.
Qed.

(** C6: a logger that is disconnected and not closed. While the clock is
    before the stored not-before time, [ensureConn] and [Write] return the
    backoff error at once: the logger is unchanged and the world has seen
    one reading of the clock, no dial, no write and no other event.
    Otherwise [ensureConn] first takes the policy's next delay and sets the
    not-before time to the current time plus that delay, and only then
    dials (the event of the policy precedes every dial in the trace); the
    new not-before time and policy state are in the logger whether the
    dials succeed or fail, and on failure [Write] returns with them. *)
Theorem backoff_window {B : Type} `{BackoffPolicy B} (env : Env)
    (l : Logger B) (msg : Message) (wd : World) :
  l_w l = None -> l_closed l = false ->
  (IsZero (l_reconnectStartTime l) = false ->
   Before (env_now env (w_clock wd)) (l_reconnectStartTime l) = true ->
   ensureConn env l wd = (Ret (Some errReconnectBackoff, l), afterClock wd)
   /\ Write env l msg wd = (Ret (Some errReconnectBackoff, l), afterClock wd)
   /\ w_trace (afterClock wd) = w_trace wd
   /\ w_dials (afterClock wd) = w_dials wd
   /\ w_writes (afterClock wd) = w_writes wd)
  /\ (windowPassed env l wd -> l_connTargets l <> [] ->
      let now := env_now env (w_clock (windowClock l wd)) in
      let next := NextDelay (cfg_ConnectBackoff (l_cfg l)) in
      exists k r l' wd',
        ensureConn env l wd = (Ret (r, l'), wd')
        /\ (0 < k)%nat
        /\ w_trace wd'
           = w_trace wd ++ EvNextDelay (fst next)
               :: map (dialEvent l) (take k (l_connTargets l))
        /\ l_reconnectStartTime l' = Add now (fst next)
        /\ cfg_ConnectBackoff (l_cfg l') = snd next
        /\ (forall e, r = Some e ->
              l_w l' = None /\ Write env l msg wd = (Ret (Some e, l'), wd'))).
Proof.
  intros Hw Hc. split.
  - intros Hz Hb.
    pose proof (ensureConn_waiting env l wd Hw Hc Hz Hb) as He.
    split; [exact He|]. split; [|repeat split].
    apply Write_ensure_error. exact He.
  - intros Hpass Hts now next.
    destruct (ensureConn_dial_run env l wd Hw Hc Hpass Hts)
      as (k & r & l' & Hrun & Hk & Hrst & Hbo & _ & _ & Hr).
    exists k, r, l'. eexists. split; [exact Hrun|]. split; [exact Hk|].
    split; [|split; [exact Hrst | split; [exact Hbo|]]].
    + unfold afterDials, advancedWorld, afterEvent, windowClock. simpl.
      rewrite <- app_assoc.
      destruct (IsZero (l_reconnectStartTime l)); reflexivity.
    + intros e ->. destruct Hr as [[Hr _] | (e' & He' & Hw')]; [discriminate|].
      split; [exact Hw'|]. apply Write_ensure_error. exact Hrun.
Qed.

Lemma backoff_window_witness :
  let l := mkLogger (sampleConfig [] []) None (l_connTargets sampleLogger)
                    false (Date 2030 1 1 0 0 0 0 UTC) false
                    (formatter_init zeroFormatter) in
  Write (sampleEnv always never) l sampleMessage world0
  = (Ret (Some errReconnectBackoff, l), mkWorld 1 0 0 []).
Proof.
  intros l.
  destruct (backoff_window (sampleEnv always never) l sampleMessage world0)
    as [Hwait _]; [reflexivity | reflexivity |].
  destruct Hwait as (_ & Hwrite & _); [reflexivity | reflexivity |].
  exact Hwrite.
Defined.

(** ** Reasoning about outcomes in every world *)

Lemma holds_ret {A} (allowed : panic -> Prop) (Q : A -> Prop) (a : A) :
  Q a -> holds allowed Q (ret a).
Proof. intros Ha wd. exact Ha. Qed.

Lemma holds_bind {A C} (allowed : panic -> Prop) (P : A -> Prop) (Q : C -> Prop)
    (m : M A) (k : A -> M C) :
  holds allowed P m -> (forall a, P a -> holds allowed Q (k a)) ->
  holds allowed Q (bind m k).
Proof.
  intros Hm Hk wd. specialize (Hm wd). unfold bind.
  destruct (m wd) as [[a|e|] wd1]; simpl in *.
  - apply Hk. exact Hm.
  - exact Hm.
  - exact Hm.
Qed.

Lemma holds_weaken {A} (allowed : panic -> Prop) (P Q : A -> Prop) (m : M A) :
  holds allowed P m -> (forall a, P a -> Q a) -> holds allowed Q m.
Proof.
  intros Hm HPQ wd. specialize (Hm wd).
  destruct (fst (m wd)); auto.
Qed.

Lemma holds_lift {A} (allowed : panic -> Prop) (Q : A -> Prop) (o : Outcome A) :
  match o with Ret a => Q a | Panic e => allowed e | OutOfFuel => False end ->
  holds allowed Q (lift o).
Proof. intros Ho wd. exact Ho. Qed.

Lemma holds_throw {A} (allowed : panic -> Prop) (Q : A -> Prop) (e : panic) :
  allowed e -> holds allowed Q (@throw A e).
Proof. intros He wd. exact He. Qed.

Lemma holds_emit (allowed : panic -> Prop) (ev : event) :
  holds allowed (fun _ => True) (emit ev).
Proof. intros wd. exact I. Qed.

Lemma holds_run {A} (allowed : panic -> Prop) (Q : A -> Prop) (m : M A)
    (wd wd' : World) (a : A) :
  holds allowed Q m -> m wd = (Ret a, wd') -> Q a.
Proof. intros Hm E. specialize (Hm wd). rewrite E in Hm. exact Hm. Qed.

Lemma formatText_no_fuel (p : Protocol) pri ts host proc pid msgID body sd pfx e :
  formatText p pri ts host proc pid msgID body sd pfx e <> OutOfFuel.
Proof.
  destruct (formatText_outcome p pri ts host proc pid msgID body sd pfx e)
    as [[text ->] | ->]; discriminate.
Qed.

(** What [formatBytes] can do: return, or panic; the unknown-protocol panic
    needs an unknown protocol. *)
Lemma formatBytes_outcome (grow : nat -> nat -> nat) (fmtr : formatter)
    p f b pri ts host proc pid msgID body sd :
  match formatBytes grow fmtr p f b pri ts host proc pid msgID body sd with
  | Ret _ => True
  | Panic e => e = panicUnknownProtocol -> ~ knownProtocol p
  | OutOfFuel => False
  end.
Proof.
  unfold formatBytes.
  destruct (cap (writeBuf fmtr) <? 16)%nat; [discriminate|].
  destruct (formatText_outcome p pri ts (orHyphen host) (orHyphen proc) pid
              msgID body (orHyphen sd) (bomPfxOf b) (endCharOf f))
    as [[text Ht] | Ht].
  - rewrite Ht. destruct (negb (f =? FramingLength)); [exact I|].
    match goal with |- context [encodeLen ?i ?n ?a] =>
      pose proof (encodeLen_no_fuel i n a) as Hnf;
      pose proof (encodeLen_not_unknown i n a) as Hnu;
      destruct (encodeLen i n a) as [[j arr]|e|] end.
    + exact I.
    + intros ->. congruence.
    + congruence.
  - rewrite Ht. intros _ Hp.
    destruct (formatText_total p pri ts (orHyphen host) (orHyphen proc) pid
                msgID body (orHyphen sd) (bomPfxOf b) (endCharOf f) Hp)
      as [text Ht']. congruence.
Qed.

Lemma Protocol_resolve_known (p : Protocol) (u : bool) :
  definedProtocol p -> knownProtocol (Protocol_resolve p u).
Proof.
  intros [-> | Hk].
  - destruct u; [left | right; right]; reflexivity.
  - destruct Hk as [-> | [-> | ->]]; [left | right; left | right; right];
      reflexivity.
Qed.

Lemma Protocol_resolve_not_auto (p : Protocol) (u : bool) :
  Protocol_resolve p u <> ProtocolAuto.
Proof.
  unfold Protocol_resolve. destruct (Z.eqb_spec p ProtocolAuto) as [->|Hne].
  - destruct u; discriminate.
  - exact Hne.
Qed.

Section ClientInvariants.

Context {B : Type} `{BackoffPolicy B}.
Variable env : Env.
Variable allowed : panic -> Prop.
Hypothesis allowed_other : forall e, e <> panicUnknownProtocol -> allowed e.

Lemma formatTo_holds (fmtr : formatter) (w : conn)
    p f b pri ts host proc pid msgID body sd :
  knownProtocol p \/ allowed panicUnknownProtocol ->
  holds allowed (fun _ => True)
        (formatTo env fmtr w p f b pri ts host proc pid msgID body sd).
Proof.
  intros Hp wd. unfold formatTo, bind, lift.
  pose proof (formatBytes_outcome (env_grow env) fmtr p f b pri ts host proc
                pid msgID body sd) as Ho.
  destruct (formatBytes (env_grow env) fmtr p f b pri ts host proc pid
              msgID body sd) as [r|e|]; simpl.
  - exact I.
  - destruct e; try (apply allowed_other; discriminate).
    destruct Hp as [Hp|Hp]; [|exact Hp]. exfalso. exact (Ho eq_refl Hp).
  - exact Ho.
Qed.

Lemma destroyConn_holds (l : Logger B) :
  holds allowed (fun l' => l' = set_w l None) (destroyConn l).
Proof.
  intros wd. unfold destroyConn. destruct (l_w l) eqn:Hw; simpl.
  - reflexivity.
  - destruct l. simpl in Hw. subst. reflexivity.
Qed.

Lemma autoconfig_outcome (l : Logger B) :
  match autoconfig env l with
  | Ret l' =>
      exists c', l' = set_cfg l c'
        /\ cfg_DialFunc c' = cfg_DialFunc (l_cfg l)
        /\ (l_autoconfigDone l = false ->
            exists u, cfg_Protocol c' = Protocol_resolve (cfg_Protocol (l_cfg l)) u)
        /\ (l_autoconfigDone l = true -> c' = l_cfg l)
  | Panic e => e = panicIndexOutOfRange
  | OutOfFuel => False
  end.
Proof.
  unfold autoconfig. destruct (l_autoconfigDone l) eqn:Hdone.
  - exists (l_cfg l). split; [destruct l; reflexivity|].
    repeat split; congruence.
  - assert ((exists n, getNetwork l (l_w l) = Ret n)
            \/ getNetwork l (l_w l) = Panic panicIndexOutOfRange) as [[n Hn]|Hn].
    { unfold getNetwork. destruct (l_w l) as [[i [n|]]|]; eauto;
        destruct (l_connTargets l); eauto. }
    + rewrite Hn. eexists. split; [reflexivity|]. simpl.
      repeat split; [eauto | discriminate].
    + rewrite Hn. reflexivity.
Qed.

Lemma getNewConn_holds (l : Logger B) :
  holds allowed
        (fun r => (exists c, r = (Some c, None)) \/ (exists fe, r = (None, fe)))
        (getNewConn env l).
Proof.
  intros wd. unfold getNewConn.
  destruct (getNewConn_loop_run env l (l_connTargets l) None wd)
    as (k & r & Hrun & _ & Hr).
  rewrite Hrun. simpl.
  destruct Hr as [Hr | (fe & Hfe & _)]; [left | right; exists fe]; assumption.
Qed.

Lemma ensureConn_holds (l : Logger B) :
  holds allowed (ensured l) (ensureConn env l).
Proof.
  unfold ensureConn. destruct (l_w l) as [c|] eqn:Hw.
  { apply holds_ret. unfold ensured. simpl.
    split; [apply keeps_refl|]. split; [reflexivity|].
    split; [auto | congruence]. }
  assert (ensured l (Some errClosed, l) /\ ensured l (Some errReconnectBackoff, l))
    as [Hq1 Hq2].
  { unfold ensured; simpl; split;
      (split; [apply keeps_refl|]; split; [reflexivity|];
       split; [congruence|]; intros _; left; eauto). }
  destruct (l_closed l) eqn:Hc; [apply holds_ret; exact Hq1|].
  apply (holds_bind allowed (fun _ => True)).
  { destruct (negb (IsZero (l_reconnectStartTime l))); intros wd; exact I. }
  intros waiting _. destruct waiting; [apply holds_ret; exact Hq2|].
  apply (holds_bind allowed (fun _ => True)); [intros wd; exact I|].
  intros now _.
  destruct (NextDelay (cfg_ConnectBackoff (l_cfg l))) as [delay backoff].
  apply (holds_bind allowed (fun _ => True)); [apply holds_emit|].
  intros _ _.
  set (l1 := set_reconnectStartTime
               (set_cfg l (set_ConnectBackoff (l_cfg l) backoff))
               (Add now delay)).
  apply (holds_bind allowed _ _ _ _ (getNewConn_holds l1)).
  intros r [[c ->] | [fe ->]]; cbn [fst snd].
  - pose proof (autoconfig_outcome (set_w l1 (Some c))) as Ha.
    apply (holds_bind allowed
             (fun l' => exists c', l' = set_cfg (set_w l1 (Some c)) c'
                /\ cfg_DialFunc c' = cfg_DialFunc (l_cfg l)
                /\ (l_autoconfigDone l = false ->
                    exists u, cfg_Protocol c'
                              = Protocol_resolve (cfg_Protocol (l_cfg l)) u)
                /\ (l_autoconfigDone l = true ->
                    cfg_Protocol c' = cfg_Protocol (l_cfg l)))).
    + apply holds_lift.
      destruct (autoconfig env (set_w l1 (Some c))) as [l'|e|].
      * destruct Ha as (c' & -> & Hdf & Hp & Hsame).
        exists c'. split; [reflexivity|]. split; [exact Hdf|].
        split; [exact Hp|]. intros Hd. rewrite (Hsame Hd). reflexivity.
      * subst e. apply allowed_other. discriminate.
      * exact Ha.
    + intros l' (c' & -> & Hdf & Hp & Hsame). apply holds_ret.
      unfold ensured. simpl.
      split; [repeat split; exact Hdf|]. split; [reflexivity|].
      split; [congruence|]. intros _. right. auto.
  - destruct fe as [e|].
    + apply holds_ret. unfold ensured. simpl.
      split; [repeat split|]. split; [reflexivity|].
      split; [congruence|]. intros _. left. eauto.
    + pose proof (autoconfig_outcome (set_w l1 None)) as Ha.
      apply (holds_bind allowed
               (fun l' => exists c', l' = set_cfg (set_w l1 None) c'
                  /\ cfg_DialFunc c' = cfg_DialFunc (l_cfg l)
                  /\ (l_autoconfigDone l = false ->
                      exists u, cfg_Protocol c'
                                = Protocol_resolve (cfg_Protocol (l_cfg l)) u)
                  /\ (l_autoconfigDone l = true ->
                      cfg_Protocol c' = cfg_Protocol (l_cfg l)))).
      * apply holds_lift.
        destruct (autoconfig env (set_w l1 None)) as [l'|e|].
        -- destruct Ha as (c' & -> & Hdf & Hp & Hsame).
           exists c'. split; [reflexivity|]. split; [exact Hdf|].
           split; [exact Hp|]. intros Hd. rewrite (Hsame Hd). reflexivity.
        -- subst e. apply allowed_other. discriminate.
        -- exact Ha.
      * intros l' (c' & -> & Hdf & Hp & Hsame). apply holds_ret.
        unfold ensured. simpl.
        split; [repeat split; exact Hdf|]. split; [reflexivity|].
        split; [congruence|]. intros _. right. auto.
Qed.

Lemma protocolInv_disconnect (l : Logger B) :
  protocolInv l -> protocolInv (set_w l None).
Proof.
  intros (Hd & Hp & _). split; [exact Hd|]. split; [exact Hp|].
  simpl. congruence.
Qed.

Lemma protocolInv_ensured (l : Logger B) (r : option error * Logger B) :
  protocolInv l -> l_w l = None -> ensured l r -> protocolInv (snd r).
Proof.
  intros (Hd & Hp & _) Hw ((_ & _ & Hd' & _) & _ & _ & Hr).
  destruct (Hr Hw) as [(e & _ & Hw' & Hp') | (_ & Hres & _)].
  - split; [congruence|]. split; [rewrite Hp'; exact Hp | congruence].
  - destruct (Hres Hd) as [u Hu].
    pose proof (Protocol_resolve_known _ u Hp) as Hk. rewrite <- Hu in Hk.
    split; [congruence|]. split; [right; exact Hk | intros _; exact Hk].
Qed.

Lemma Write_loop_holds (msg : Message) (pri : Z) (ts : Time) (fuel : nat) :
  forall (i : Z) (l : Logger B),
    0 <= i ->
    (0 < i /\ (1 <= fuel)%nat) \/ (2 <= fuel)%nat ->
    protocolInv l \/ allowed panicUnknownProtocol ->
    holds allowed
          (fun r => keeps l (snd r) /\ (protocolInv l -> protocolInv (snd r)))
          (Write_loop env fuel i l msg pri ts).
Proof.
  induction fuel as [|fuel IH]; intros i l Hi Hfuel Hpre; [lia|].
  cbn [Write_loop]. destruct (l_w l) as [w|] eqn:Hw.
  2:{ apply holds_throw. apply allowed_other. discriminate. }
  apply (holds_bind allowed (fun _ => True)).
  { apply formatTo_holds.
    destruct Hpre as [(_ & _ & Hk)|Hu]; [left; apply Hk; congruence | right; exact Hu]. }
  intros r _. set (l2 := set_fmtr l (snd r)).
  assert (keeps l l2) as K2 by (repeat split).
  assert (protocolInv l -> protocolInv l2) as I2 by (intros Hinv; exact Hinv).
  destruct (fst r) as [err|].
  - destruct (0 <? i) eqn:Hpos.
    + apply (holds_bind allowed _ _ _ _ (destroyConn_holds l2)).
      intros l3 ->. apply holds_ret. simpl. split; [repeat split|].
      intros Hinv. apply protocolInv_disconnect. exact Hinv.
    + apply Z.ltb_ge in Hpos.
      apply (holds_bind allowed _ _ _ _ (destroyConn_holds l2)).
      intros l3 ->.
      apply (holds_bind allowed _ _ _ _
               (ensureConn_holds (set_w l2 None))).
      intros r2 Hens.
      assert (keeps l (snd r2)) as K3.
      { destruct Hens as (K & _). apply (keeps_trans l (set_w l2 None));
          [repeat split | exact K]. }
      assert (protocolInv l -> protocolInv (snd r2)) as I3.
      { intros Hinv. apply (protocolInv_ensured (set_w l2 None));
          [apply protocolInv_disconnect; exact Hinv | reflexivity | exact Hens]. }
      destruct (fst r2) as [e2|].
      * apply holds_ret. simpl. split; assumption.
      * eapply holds_weaken.
        -- apply IH; [lia | left; lia |].
           destruct Hpre as [Hinv|Hu]; [left; auto | right; exact Hu].
        -- intros a [Ka Ia]. split; [apply (keeps_trans l (snd r2)); assumption|].
           auto.
  - apply (holds_bind allowed (fun _ => True)); [apply holds_emit|].
    intros _ _. apply holds_ret. simpl. split; [repeat split|].
    intros Hinv. exact Hinv.
Qed.

Lemma Write_holds (l : Logger B) (msg : Message) :
  protocolInv l \/ allowed panicUnknownProtocol ->
  holds allowed
        (fun r => keeps l (snd r) /\ (protocolInv l -> protocolInv (snd r)))
        (Write env l msg).
Proof.
  intros Hpre. unfold Write.
  apply (holds_bind allowed _ _ _ _ (ensureConn_holds l)).
  intros r Hens.
  assert (protocolInv l -> protocolInv (snd r)) as Ir.
  { intros Hinv. destruct (l_w l) as [c|] eqn:Hw.
    - destruct Hens as (_ & _ & Hsame & _).
      destruct Hsame as [-> _]; [congruence | exact Hinv].
    - apply (protocolInv_ensured l); assumption. }
  destruct (fst r) as [err|].
  - apply holds_ret. simpl. split; [apply Hens | exact Ir].
  - apply (holds_bind allowed (fun _ => True)).
    { destruct (IsZero (m_Time msg)); intros wd; exact I. }
    intros timestamp _. eapply holds_weaken.
    + apply (Write_loop_holds msg _ timestamp 2 0 (snd r)); [lia | right; lia |].
      destruct Hpre as [Hinv|Hu]; [left; auto | right; exact Hu].
    + intros a [Ka Ia]. split; [apply (keeps_trans l (snd r)); [apply Hens | exact Ka]|].
      auto.
Qed.

Lemma Close_holds (l : Logger B) :
  holds allowed
        (fun r => fst r = None /\ snd r = set_closed (set_w l None) true)
        (Close l).
Proof.
  unfold Close.
  apply (holds_bind allowed _ _ _ _ (destroyConn_holds l)).
  intros l' ->. apply holds_ret. split; reflexivity.
Qed.

Lemma step_holds (l : Logger B) (o : op) :
  protocolInv l \/ allowed panicUnknownProtocol ->
  holds allowed
        (fun r => (l_closed l = true -> l_closed (snd r) = true)
                  /\ (protocolInv l -> protocolInv (snd r)))
        (step env l o).
Proof.
  intros Hpre. destruct o as [msg|]; simpl.
  - eapply holds_weaken; [apply Write_holds; exact Hpre|].
    intros a [(_ & Hc & _) Ia]. split; [congruence | exact Ia].
  - eapply holds_weaken; [apply Close_holds|].
    intros a [_ ->]. split; [reflexivity|].
    intros (Hd & Hp & _). split; [exact Hd|]. split; [exact Hp|].
    simpl. congruence.
Qed.

Lemma runOps_holds (ops : list op) :
  forall (l : Logger B),
    protocolInv l \/ allowed panicUnknownProtocol ->
    holds allowed (fun rs => protocolInv l -> protocolInv (snd rs))
          (runOps env l ops).
Proof.
  induction ops as [|o ops IH]; intros l Hpre; cbn [runOps].
  - apply holds_ret. auto.
  - apply (holds_bind allowed _ _ _ _ (step_holds l o Hpre)).
    intros r [_ Ir].
    apply (holds_bind allowed (fun rs => protocolInv (snd r) -> protocolInv (snd rs))).
    + apply IH. destruct Hpre as [Hinv|Hu]; [left; auto | right; exact Hu].
    + intros rs Irs. apply holds_ret. simpl. auto.
Qed.

End ClientInvariants.

(** [Write] always comes back within the two passes of its loop. *)
Lemma Write_terminates {B : Type} `{BackoffPolicy B} (env : Env)
    (l : Logger B) (msg : Message) (wd : World) :
  fst (Write env l msg wd) <> OutOfFuel.
Proof.
  intros E.
  assert (forall e, e <> panicUnknownProtocol -> anyPanic e) as Hany
    by (intros e _; exact I).
  pose proof (Write_holds env anyPanic Hany l msg (or_intror I) wd) as Hh.
  rewrite E in Hh. exact Hh.
Qed.

Lemma set_closed_disconnected {B : Type} (l : Logger B) :
  l_w l = None -> set_closed (set_w l None) true = set_closed l true.
Proof. intros Hw. destruct l. simpl in Hw. subst. reflexivity. Qed.

Lemma closed_step {B : Type} `{BackoffPolicy B} (env : Env) (l : Logger B)
    (o : op) (wd : World) :
  l_w l = None -> l_closed l = true ->
  step env l o wd = (Ret (closedAnswer o, l), wd).
Proof.
  intros Hw Hc. destruct o as [msg|]; simpl.
  - apply Write_ensure_error. apply ensureConn_closed; assumption.
  - unfold Close, destroyConn. rewrite Hw. unfold bind, ret.
    destruct l. simpl in Hw, Hc. subst. reflexivity.
Qed.

Lemma closed_runOps {B : Type} `{BackoffPolicy B} (env : Env) (l : Logger B)
    (ops : list op) (wd : World) :
  l_w l = None -> l_closed l = true ->
  runOps env l ops wd = (Ret (map closedAnswer ops, l), wd).
Proof.
  intros Hw Hc. induction ops as [|o ops IH]; [reflexivity|].
  cbn [runOps]. rewrite (bind_Ret _ _ _ _ _ (closed_step env l o wd Hw Hc)).
  cbn [fst snd]. rewrite (bind_Ret _ _ _ _ _ IH). reflexivity.
Qed.

(** C8: [Close] returns no error from every state, closes the connection
    handle if there is one, and leaves the logger closed and disconnected.
    From then on the logger never changes again: a further [Close] returns
    no error and closes nothing (the world, with its trace, is unchanged),
    and every [Write] returns the closed error, in any sequence of calls.
    No call ever clears the closed flag. *)
Theorem Close_idempotent_terminal {B : Type} `{BackoffPolicy B} (env : Env)
    (l : Logger B) (wd : World) :
  let l1 := set_closed (set_w l None) true in
  let wd1 := match l_w l with
             | Some c => afterEvent wd (EvClose c)
             | None => wd
             end in
  Close l wd = (Ret (None, l1), wd1)
  /\ l_closed l1 = true /\ l_w l1 = None
  /\ Close l1 wd1 = (Ret (None, l1), wd1)
  /\ (forall msg, Write env l1 msg wd1 = (Ret (Some errClosed, l1), wd1))
  /\ (forall ops, runOps env l1 ops wd1 = (Ret (map closedAnswer ops, l1), wd1))
  /\ (forall (l0 : Logger B) o wd0 r wd0',
        l_closed l0 = true -> step env l0 o wd0 = (Ret r, wd0') ->
        l_closed (snd r) = true).
Proof.
  intros l1 wd1.
  assert (l_w l1 = None) as Hw1 by reflexivity.
  assert (l_closed l1 = true) as Hc1 by reflexivity.
  split; [|split; [exact Hc1 | split; [exact Hw1 | split; [|split; [|split]]]]].
  - unfold Close, destroyConn, bind, ret, emit. subst l1 wd1.
    destruct (l_w l) eqn:Hw; simpl; [reflexivity|].
    rewrite (set_closed_disconnected l Hw). reflexivity.
  - exact (closed_step env l1 OpClose wd1 Hw1 Hc1).
  - intros msg. exact (closed_step env l1 (OpWrite msg) wd1 Hw1 Hc1).
  - intros ops. apply closed_runOps; assumption.
  - intros l0 o wd0 r wd0' Hc0 Hstep.
    assert (forall e, e <> panicUnknownProtocol -> anyPanic e) as Hany
      by (intros e _; exact I).
    pose proof (step_holds env anyPanic Hany l0 o (or_intror I)) as Hh.
    apply (holds_run _ _ _ _ _ _ Hh Hstep). exact Hc0.
Qed.

Lemma Close_idempotent_terminal_witness :
  let l := set_w sampleLogger (Some (mkConn 7 None)) in
  let l1 := set_closed sampleLogger true in
  runOps (sampleEnv never never) l
         [OpClose; OpClose; OpWrite sampleMessage; OpClose] world0
  = (Ret ([None; None; Some errClosed; None], l1),
     mkWorld 0 0 0 [EvClose (mkConn 7 None)]).
Proof.
  intros l l1.
  destruct (Close_idempotent_terminal (sampleEnv never never) l world0)
    as (Hclose & _ & _ & _ & _ & Hrun & _).
  cbn [runOps step].
  rewrite (bind_Ret _ _ _ _ _ Hclose). cbn [fst snd].
  rewrite (bind_Ret _ _ _ _ _ (Hrun [OpClose; OpWrite sampleMessage; OpClose])).
  reflexivity.
Defined.

(** C10: the unknown-protocol panic of the formatter is unreachable.
    [Protocol.resolve] never returns [ProtocolAuto]; a logger made by [New]
    from a configuration whose protocol is one of the four defined values
    satisfies the protocol invariant, every sequence of [Write] and [Close]
    calls keeps it (so whenever a connection is held, and hence whenever
    [Write] calls [formatTo], the protocol is one of the three concrete
    variants), and no such sequence ends in the unknown-protocol panic or
    exhausts the bound on the passes of the loop in [Write]. *)
Theorem unknown_protocol_unreachable {B : Type} `{BackoffPolicy B} (env : Env)
    (cfg : Config B) (l0 : Logger B) :
  definedProtocol (cfg_Protocol cfg) ->
  New env cfg = (Some l0, None) ->
  (forall p u, Protocol_resolve p u <> ProtocolAuto)
  /\ protocolInv l0
  /\ (forall ops wd,
        match runOps env l0 ops wd with
        | (Ret (_, l), _) => protocolInv l
        | (Panic e, _) => e <> panicUnknownProtocol
        | (OutOfFuel, _) => False
        end).
Proof.
  intros Hp Hnew.
  assert (protocolInv l0) as Hinv.
  { unfold New in Hnew.
    destruct (determineConnTargets env (cfg_Network cfg) (cfg_Address cfg))
      as [targets [e|]]; [discriminate|].
    injection Hnew as <-. split; [reflexivity|]. split; [exact Hp|].
    simpl. congruence. }
  split; [apply Protocol_resolve_not_auto|]. split; [exact Hinv|].
  intros ops wd.
  assert (forall e, e <> panicUnknownProtocol -> notUnknownProtocol e) as Hok
    by (intros e He; exact He).
  pose proof (runOps_holds env notUnknownProtocol Hok ops l0 (or_introl Hinv) wd)
    as Hh.
  destruct (runOps env l0 ops wd) as [[[rs l]|e|] wd']; simpl in Hh.
  - apply Hh. exact Hinv.
  - exact Hh.
  - exact Hh.
Qed.

Lemma unknown_protocol_unreachable_witness :
  protocolInv sampleLogger
  /\ match runOps (sampleEnv never always) sampleLogger
                  [OpWrite sampleMessage; OpWrite sampleMessage] world0 with
     | (Ret (_, l), _) => protocolInv l
     | (Panic e, _) => e <> panicUnknownProtocol
     | (OutOfFuel, _) => False
     end.
Proof.
  assert (definedProtocol (cfg_Protocol (sampleConfig [] []))) as Hp
    by (left; reflexivity).
  destruct (unknown_protocol_unreachable (sampleEnv never always)
              (sampleConfig [] []) sampleLogger Hp
              (New_sample (sampleEnv never always))) as (_ & Hinv & Hrun).
  split; [exact Hinv|].
  exact (Hrun [OpWrite sampleMessage; OpWrite sampleMessage] world0).
Defined.

(** ** [Write] on a connected logger *)

Section WriteFacts.

Context {B : Type} `{BackoffPolicy B}.
Variable env : Env.

Lemma Write_connected (l : Logger B) (msg : Message) (wd : World) (c : conn) :
  l_w l = Some c ->
  Write env l msg wd
  = Write_loop env 2 0 l msg (makePri (m_Severity msg) (m_Facility msg))
      (if IsZero (m_Time msg) then env_now env (w_clock wd) else m_Time msg)
      (if IsZero (m_Time msg) then afterClock wd else wd).
Proof.
  intros Hw. unfold Write.
  rewrite (bind_Ret _ _ _ _ _ (ensureConn_connected env l c wd Hw)).
  cbn [fst snd]. destruct (IsZero (m_Time msg)); reflexivity.
Qed.

Lemma Write_loop_success (l : Logger B) (msg : Message) (ts : Time)
    (fuel : nat) (i : Z) (wd : World) (c : conn) data f1 :
  l_w l = Some c -> formatFor env l msg ts = Ret (data, f1) ->
  env_write env (w_writes wd) c data = None ->
  Write_loop env (S fuel) i l msg (makePri (m_Severity msg) (m_Facility msg)) ts wd
  = (Ret (None, resetBackoff (set_fmtr l f1)),
     afterEvent (afterWrite wd c data) EvReset).
Proof.
  intros Hw Hf Hwr. cbn [Write_loop]. rewrite Hw.
  rewrite (bind_Ret _ _ _ _ _ (formatTo_run env _ c _ _ _ _ _ _ _ _ _ _ _ wd _ _ Hf)).
  cbn [fst snd]. rewrite Hwr. reflexivity.
Qed.

Lemma Write_loop_last_failure (l : Logger B) (msg : Message) (ts : Time)
    (fuel : nat) (i : Z) (wd : World) (c : conn) data f1 e :
  l_w l = Some c -> formatFor env l msg ts = Ret (data, f1) ->
  env_write env (w_writes wd) c data = Some e -> 0 < i ->
  Write_loop env (S fuel) i l msg (makePri (m_Severity msg) (m_Facility msg)) ts wd
  = (Ret (Some e, set_w (set_fmtr l f1) None),
     afterEvent (afterWrite wd c data) (EvClose c)).
Proof.
  intros Hw Hf Hwr Hi. cbn [Write_loop]. rewrite Hw.
  rewrite (bind_Ret _ _ _ _ _ (formatTo_run env _ c _ _ _ _ _ _ _ _ _ _ _ wd _ _ Hf)).
  cbn [fst snd]. rewrite Hwr.
  replace (0 <? i) with true by (symmetry; apply Z.ltb_lt; exact Hi).
  unfold destroyConn. simpl l_w. rewrite Hw. reflexivity.
Qed.

Lemma Write_loop_first_failure (l : Logger B) (msg : Message) (ts : Time)
    (fuel : nat) (wd : World) (c : conn) data f1 e :
  l_w l = Some c -> formatFor env l msg ts = Ret (data, f1) ->
  env_write env (w_writes wd) c data = Some e ->
  Write_loop env (S fuel) 0 l msg (makePri (m_Severity msg) (m_Facility msg)) ts wd
  = bind (ensureConn env (set_w (set_fmtr l f1) None))
         (fun r2 =>
            match fst r2 with
            | Some _ => ret (Some e, snd r2)
            | None =>
                Write_loop env fuel 1 (snd r2) msg
                           (makePri (m_Severity msg) (m_Facility msg)) ts
            end)
         (afterEvent (afterWrite wd c data) (EvClose c)).
Proof.
  intros Hw Hf Hwr. cbn [Write_loop]. rewrite Hw.
  rewrite (bind_Ret _ _ _ _ _ (formatTo_run env _ c _ _ _ _ _ _ _ _ _ _ _ wd _ _ Hf)).
  cbn [fst snd]. rewrite Hwr. change (0 <? 0) with false. cbv iota.
  unfold destroyConn at 1. simpl l_w. rewrite Hw. reflexivity.
Qed.

(** A disconnected logger with a target list always gets an answer from
    [ensureConn]: a connection, or an error and no connection. *)
Lemma ensureConn_disconnected_total (l : Logger B) (wd : World) :
  l_w l = None -> l_connTargets l <> [] ->
  exists r l' wd',
    ensureConn env l wd = (Ret (r, l'), wd')
    /\ (r = None -> exists c, l_w l' = Some c)
    /\ (forall e, r = Some e -> l_w l' = None).
Proof.
  intros Hw Hts. destruct (l_closed l) eqn:Hc.
  { exists (Some errClosed), l, wd. split; [apply ensureConn_closed; assumption|].
    split; [discriminate | auto]. }
  destruct (IsZero (l_reconnectStartTime l)) eqn:Hz.
  2: destruct (Before (env_now env (w_clock wd)) (l_reconnectStartTime l)) eqn:Hb.
  2:{ exists (Some errReconnectBackoff), l, (afterClock wd).
      split; [apply ensureConn_waiting; assumption|].
      split; [discriminate | auto]. }
  all: (assert (windowPassed env l wd) as Hpass by (unfold windowPassed; auto);
        destruct (ensureConn_dial_run env l wd Hw Hc Hpass Hts)
          as (k & r & l' & Hrun & _ & _ & _ & _ & _ & Hr);
        exists r, l'; eexists; split; [exact Hrun|];
        destruct Hr as [(-> & c & Hc' & _) | (e & -> & Hw')];
        [split; [eauto | discriminate] | split; [discriminate | auto]]).
Qed.

End WriteFacts.

(** C5: [Write] on a connected logger whose message formats. If the
    transport write succeeds, the backoff policy is reset and [Write]
    returns success. If it fails with [e1], the connection is closed and
    [ensureConn] is run once: if that fails, [Write] returns [e1], the
    error of the write, and the logger stays disconnected; if it succeeds,
    the message is formatted and written once more on the new connection,
    and [Write] returns success (policy reset) or, when this second write
    fails with [e2], closes the new connection and returns [e2]. *)
Theorem Write_retry_once {B : Type} `{BackoffPolicy B} (env : Env)
    (l : Logger B) (msg : Message) (wd : World) (c : conn) :
  l_w l = Some c -> l_connTargets l <> [] ->
  let ts := if IsZero (m_Time msg) then env_now env (w_clock wd) else m_Time msg in
  let wd0 := if IsZero (m_Time msg) then afterClock wd else wd in
  forall data f1, formatFor env l msg ts = Ret (data, f1) ->
  let wd1 := afterWrite wd0 c data in
  (env_write env (w_writes wd0) c data = None ->
   Write env l msg wd
   = (Ret (None, resetBackoff (set_fmtr l f1)), afterEvent wd1 EvReset))
  /\ (forall e1, env_write env (w_writes wd0) c data = Some e1 ->
      exists r l3 wd3,
        ensureConn env (set_w (set_fmtr l f1) None) (afterEvent wd1 (EvClose c))
        = (Ret (r, l3), wd3)
        /\ (forall e2, r = Some e2 ->
              l_w l3 = None /\ Write env l msg wd = (Ret (Some e1, l3), wd3))
        /\ (r = None ->
            exists c2, l_w l3 = Some c2
              /\ forall data2 f2, formatFor env l3 msg ts = Ret (data2, f2) ->
                 let wd4 := afterWrite wd3 c2 data2 in
                 (env_write env (w_writes wd3) c2 data2 = None ->
                  Write env l msg wd
                  = (Ret (None, resetBackoff (set_fmtr l3 f2)),
                     afterEvent wd4 EvReset))
                 /\ (forall e2, env_write env (w_writes wd3) c2 data2 = Some e2 ->
                     Write env l msg wd
                     = (Ret (Some e2, set_w (set_fmtr l3 f2) None),
                        afterEvent wd4 (EvClose c2))))).
Proof.
  intros Hw Hts ts wd0 data f1 Hf wd1.
  rewrite (Write_connected env l msg wd c Hw). fold ts wd0.
  split.
  - intros Hwr. apply Write_loop_success; assumption.
  - intros e1 Hwr.
    rewrite (Write_loop_first_failure env l msg ts 1 wd0 c data f1 e1 Hw Hf Hwr).
    fold wd1.
    destruct (ensureConn_disconnected_total env (set_w (set_fmtr l f1) None)
                (afterEvent wd1 (EvClose c)) eq_refl Hts)
      as (r & l3 & wd3 & Hens & Hok & Herr).
    exists r, l3, wd3. split; [exact Hens|].
    rewrite (bind_Ret _ _ _ _ _ Hens). cbn [fst snd]. split.
    + intros e2 ->. split; [apply (Herr e2); reflexivity | reflexivity].
    + intros ->. destruct (Hok eq_refl) as [c2 Hc2].
      exists c2. split; [exact Hc2|].
      intros data2 f2 Hf2. split.
      * intros Hwr2. apply Write_loop_success; assumption.
      * intros e2 Hwr2. apply Write_loop_last_failure; [assumption..|lia].
Qed.

Lemma Write_retry_once_witness :
  Write (sampleEnv never never) sampleConnected sampleMessage world0
  = (Ret (None, sampleConnected),
     mkWorld 0 0 1
       [EvWrite (mkConn 0 None)
                (str "<36>Oct 11 07:25:00 ProcName[12345]: MsgID MsgBody");
        EvReset]).
Proof.
  assert (l_connTargets sampleConnected <> []) as Hts by discriminate.
  destruct (Write_retry_once (sampleEnv never never) sampleConnected
              sampleMessage world0 (mkConn 0 None) eq_refl Hts
              (str "<36>Oct 11 07:25:00 ProcName[12345]: MsgID MsgBody")
              (formatter_init zeroFormatter)) as [Hok _].
  - vm_compute. reflexivity.
  - apply Hok. reflexivity.
Defined.

(** Worked runs of [Write]: a write that fails once and succeeds after the
    reconnect; a failed reconnect, which leaves the first write's error; a
    second write that fails as well. *)
Example Write_retry_succeeds :
  match Write (sampleEnv never (Nat.eqb 0))
              (set_reconnectStartTime sampleConnected zeroTime)
              sampleMessage world0 with
  | (Ret (r, l), wd) =>
      r = None /\ l_w l = Some (mkConn 0 None)
      /\ w_trace wd
         = [EvWrite (mkConn 0 None)
                    (str "<36>Oct 11 07:25:00 ProcName[12345]: MsgID MsgBody");
            EvClose (mkConn 0 None);
            EvNextDelay 1000000000;
            EvDial false (str "unixgram") (str "/dev/log");
            EvWrite (mkConn 0 None)
                    (str "<36>Oct 11 07:25:00 ProcName[12345]: MsgID MsgBody");
            EvReset]
  | _ => False
  end.
Proof. vm_compute. repeat split. Qed.

Example Write_reconnect_fails :
  match Write (sampleEnv always (Nat.eqb 0))
              (set_reconnectStartTime sampleConnected zeroTime)
              sampleMessage world0 with
  | (Ret (r, l), wd) =>
      r = Some (errExternal 200) /\ l_w l = None
      /\ length (w_trace wd) = 9%nat
  | _ => False
  end.
Proof. vm_compute. repeat split. Qed.

Example Write_retry_fails :
  match Write (sampleEnv never always)
              (set_reconnectStartTime sampleConnected zeroTime)
              sampleMessage world0 with
  | (Ret (r, l), wd) =>
      r = Some (errExternal 201) /\ l_w l = None
      /\ w_trace wd
         = [EvWrite (mkConn 0 None)
                    (str "<36>Oct 11 07:25:00 ProcName[12345]: MsgID MsgBody");
            EvClose (mkConn 0 None);
            EvNextDelay 1000000000;
            EvDial false (str "unixgram") (str "/dev/log");
            EvWrite (mkConn 0 None)
                    (str "<36>Oct 11 07:25:00 ProcName[12345]: MsgID MsgBody");
            EvClose (mkConn 0 None)]
  | _ => False
  end.
Proof. vm_compute. repeat split. Qed.

(** * Further properties of the code *)

(** ** PRI for arbitrary values *)

Lemma wrap64_mod256 (x : Z) : wrap64 x mod 256 = x mod 256.
Proof.
  unfold wrap64.
  change (2 ^ 64) with (256 * 2 ^ 56).
  rewrite Z.rem_mul_r by lia.
  set (K := ((x + 2 ^ 63) / 256) mod 2 ^ 56).
  replace ((x + 2 ^ 63) mod 256 + 256 * K - 2 ^ 63)
    with ((x + 2 ^ 63) mod 256 + (K - 2 ^ 55) * 256) by lia.
  rewrite Z.mod_add, Z.mod_mod by lia.
  replace (x + 2 ^ 63) with (x + 2 ^ 55 * 256) by lia.
  apply Z.mod_add. lia.
Qed.

Lemma land_248 (x : Z) : Z.land x 248 = Z.land (x mod 256) 248.
Proof.
  change 248 with (Z.land 255 248) at 1.
  rewrite Z.land_assoc. change 255 with (Z.ones 8).
  rewrite Z.land_ones by lia. reflexivity.
Qed.

Lemma land_248_mul8 (k : Z) : 0 <= k < 32 -> Z.land (8 * k) 248 = 8 * k.
Proof.
  intros Hk.
  assert (forallb (fun k => Z.land (8 * k) 248 =? 8 * k)
                  (map Z.of_nat (seq 0 32)) = true) as H
    by (vm_compute; reflexivity).
  rewrite forallb_forall in H. apply Z.eqb_eq, H.
  apply in_map_iff. exists (Z.to_nat k). split; [lia|]. apply in_seq. lia.
Qed.

Lemma makePri_general (s : Severity) (f : Facility) :
  makePri s f = s mod 8 + 8 * (f mod 32).
Proof.
  unfold makePri.
  change 7 with (Z.ones 3). rewrite Z.land_ones by lia.
  rewrite land_248, wrap64_mod256, Z.shiftl_mul_pow2 by lia.
  change (2 ^ 3) with 8. change 256 with (32 * 8).
  rewrite Z.mul_mod_distr_r by lia.
  pose proof (Z.mod_pos_bound f 32 ltac:(lia)) as Hf.
  pose proof (Z.mod_pos_bound s 8 ltac:(lia)) as Hs.
  replace (f mod 32 * 8) with (8 * (f mod 32)) by lia.
  rewrite land_248_mul8 by lia.
  unfold wrap64. rewrite Z.mod_small by lia. lia.
Qed.

(** X1: [makePri] masks whatever it is given: for all values, also outside
    the valid ranges, the PRI is [s mod 8 + 8 * (f mod 32)] and lies in
    [0,255]; on the valid ranges the severity and the facility are read
    back from the PRI as [pri & 7] and [pri >> 3], so distinct pairs give
    distinct PRIs. *)
Theorem makePri_masks_and_decodes :
  (forall s f, makePri s f = s mod 8 + 8 * (f mod 32)
               /\ 0 <= makePri s f <= 255)
  /\ (forall s f, 0 <= s <= 7 -> 0 <= f <= 31 ->
        Z.land (makePri s f) 7 = s /\ Z.shiftr (makePri s f) 3 = f)
  /\ (forall s1 f1 s2 f2,
        0 <= s1 <= 7 -> 0 <= f1 <= 31 -> 0 <= s2 <= 7 -> 0 <= f2 <= 31 ->
        makePri s1 f1 = makePri s2 f2 -> s1 = s2 /\ f1 = f2).
Proof.
  assert (forall s f, 0 <= s <= 7 -> 0 <= f <= 31 ->
            Z.land (makePri s f) 7 = s /\ Z.shiftr (makePri s f) 3 = f) as Hdec.
  { intros s f Hs Hf. rewrite makePri_general.
    rewrite (Z.mod_small s 8), (Z.mod_small f 32) by lia.
    change 7 with (Z.ones 3). rewrite Z.land_ones, Z.shiftr_div_pow2 by lia.
    change (2 ^ 3) with 8.
    replace (s + 8 * f) with (s + f * 8) by lia. split.
    - rewrite Z.mod_add by lia. apply Z.mod_small. lia.
    - rewrite Z.div_add by lia. rewrite (Z.div_small s 8) by lia. lia. }
  split; [|split; [exact Hdec|]].
  - intros s f. rewrite makePri_general. split; [reflexivity|].
    pose proof (Z.mod_pos_bound f 32 ltac:(lia)).
    pose proof (Z.mod_pos_bound s 8 ltac:(lia)). lia.
  - intros s1 f1 s2 f2 Hs1 Hf1 Hs2 Hf2 E.
    destruct (Hdec s1 f1 Hs1 Hf1) as [A1 B1].
    destruct (Hdec s2 f2 Hs2 Hf2) as [A2 B2].
    rewrite E in A1, B1. split; congruence.
Qed.

Lemma makePri_masks_and_decodes_witness :
  Z.land (makePri SeverityErr FacilityLocal7) 7 = SeverityErr
  /\ Z.shiftr (makePri SeverityErr FacilityLocal7) 3 = FacilityLocal7.
Proof.
  destruct makePri_masks_and_decodes as (_ & Hdec & _).
  apply Hdec; [unfold SeverityErr | unfold FacilityLocal7]; lia.
Defined.

(** ** Levels, severities and the PRI of a record *)

Lemma mapLevelToSeverity_range (level : Level) :
  0 <= mapLevelToSeverity level <= 7.
Proof.
  unfold mapLevelToSeverity.
  repeat match goal with |- context [?a <=? ?b] => destruct (a <=? b) end;
    vm_compute; split; discriminate.
Qed.

(** X2: [mapLevelToSeverity] always yields a valid severity, a higher level
    never yields a less urgent severity, the four named levels map to
    Debug, Info, Warning and Err, and every message built from a record
    for a valid facility has its PRI in [0,191]. *)
Theorem mapLevelToSeverity_monotone :
  (forall level, 0 <= mapLevelToSeverity level <= 7)
  /\ (forall l1 l2, l1 <= l2 -> mapLevelToSeverity l2 <= mapLevelToSeverity l1)
  /\ (mapLevelToSeverity LevelDebug = SeverityDebug
      /\ mapLevelToSeverity LevelInfo = SeverityInfo
      /\ mapLevelToSeverity LevelWarn = SeverityWarning
      /\ mapLevelToSeverity LevelError = SeverityErr)
  /\ (forall facility rTime rLevel rMessage b,
        0 <= facility <= 23 ->
        let msg := recordMessage facility rTime rLevel rMessage b in
        0 <= makePri (m_Severity msg) (m_Facility msg) <= 191).
Proof.
  split; [exact mapLevelToSeverity_range|]. split; [|split].
  - intros l1 l2 Hl. unfold mapLevelToSeverity, LevelDebug, LevelInfo,
      LevelWarn, LevelError.
    repeat match goal with
           | |- context [?a <=? ?b] => destruct (Z.leb_spec a b)
           end; try lia; vm_compute; discriminate.
  - repeat split.
  - intros facility rTime rLevel rMessage b Hf msg. simpl.
    rewrite makePri_general.
    pose proof (mapLevelToSeverity_range rLevel) as Hs.
    rewrite (Z.mod_small _ 8), (Z.mod_small facility 32) by lia. lia.
Qed.

Lemma mapLevelToSeverity_monotone_witness :
  0 <= makePri (m_Severity (recordMessage FacilityDaemon refTime 5 [] []))
               (m_Facility (recordMessage FacilityDaemon refTime 5 [] []))
    <= 191.
Proof.
  destruct mapLevelToSeverity_monotone as (_ & _ & _ & Hpri).
  apply (Hpri FacilityDaemon refTime 5 [] []). unfold FacilityDaemon. lia.
Defined.

(** ** Parsing: range, failure and coverage *)

Lemma listedIn_spec {V} (names : list (gostring * V)) (n : gostring) :
  listedIn names n = true <-> exists v, In (n, v) names.
Proof.
  unfold listedIn. rewrite existsb_exists. split.
  - intros [[n' v] [Hin E]]. simpl in E. apply gostring_eqb_eq in E. subst n'.
    eauto.
  - intros [v Hin]. exists (n, v). split; [exact Hin|]. apply gostring_eqb_refl.
Qed.

Lemma caseVariant_refl (s : gostring) : caseVariant s s = true.
Proof.
  induction s as [|c s IH]; [reflexivity|]. simpl.
  rewrite Ascii.eqb_refl, IH. reflexivity.
Qed.

(** X3: parsing in full. A parse fails exactly when the lower-cased string
    is not a listed name; whether it fails or not, the severity returned
    lies in [0,7] and the facility in [0,23], so any pair of parsed values
    gives a PRI in [0,191]; and every severity and every facility is the
    value of some name. *)
Theorem parse_range_failure_coverage (unicodeLower : gostring -> gostring) :
  (forall s,
     snd (ParseSeverity unicodeLower s) = None
     <-> listedIn severityNames (ToLower unicodeLower s) = true)
  /\ (forall s,
     snd (ParseFacility unicodeLower s) = None
     <-> listedIn facilityNames (ToLower unicodeLower s) = true)
  /\ (forall s1 s2,
        let sev := fst (ParseSeverity unicodeLower s1) in
        let fac := fst (ParseFacility unicodeLower s2) in
        0 <= sev <= 7 /\ 0 <= fac <= 23 /\ 0 <= makePri sev fac <= 191)
  /\ (forall v, 0 <= v <= 7 ->
        exists n, ParseSeverity unicodeLower n = (v, None))
  /\ (forall v, 0 <= v <= 23 ->
        exists n, ParseFacility unicodeLower n = (v, None)).
Proof.
  assert (forall s,
            (exists v, ParseSeverity unicodeLower s = (v, None)
                       /\ In (ToLower unicodeLower s, v) severityNames)
            \/ (ParseSeverity unicodeLower s = (SeverityDebug, Some errBadSeverity)
                /\ listedIn severityNames (ToLower unicodeLower s) = false))
    as Hsev.
  { intros s. destruct (listedIn severityNames (ToLower unicodeLower s)) eqn:E.
    - apply listedIn_spec in E as [v Hin]. left. exists v. split; [|exact Hin].
      apply (ParseSeverity_listed _ _ v s Hin). reflexivity.
    - right. split; [|reflexivity]. apply ParseSeverity_unlisted.
      intros n v Hin Hn. subst n.
      assert (listedIn severityNames (ToLower unicodeLower s) = true)
        by (apply listedIn_spec; eauto). congruence. }
  assert (forall s,
            (exists v, ParseFacility unicodeLower s = (v, None)
                       /\ In (ToLower unicodeLower s, v) facilityNames)
            \/ (ParseFacility unicodeLower s = (FacilityLocal7, Some errBadFacility)
                /\ listedIn facilityNames (ToLower unicodeLower s) = false))
    as Hfac.
  { intros s. destruct (listedIn facilityNames (ToLower unicodeLower s)) eqn:E.
    - apply listedIn_spec in E as [v Hin]. left. exists v. split; [|exact Hin].
      apply (ParseFacility_listed _ _ v s Hin). reflexivity.
    - right. split; [|reflexivity]. apply ParseFacility_unlisted.
      intros n v Hin Hn. subst n.
      assert (listedIn facilityNames (ToLower unicodeLower s) = true)
        by (apply listedIn_spec; eauto). congruence. }
  assert (forall n v, In (n, v) severityNames -> 0 <= v <= 7) as Rsev.
  { assert (forallb (fun nv => (0 <=? snd nv) && (snd nv <=? 7)) severityNames
            = true) as H by (vm_compute; reflexivity).
    rewrite forallb_forall in H. intros n v Hin. specialize (H _ Hin).
    simpl in H. lia. }
  assert (forall n v, In (n, v) facilityNames -> 0 <= v <= 23) as Rfac.
  { assert (forallb (fun nv => (0 <=? snd nv) && (snd nv <=? 23)) facilityNames
            = true) as H by (vm_compute; reflexivity).
    rewrite forallb_forall in H. intros n v Hin. specialize (H _ Hin).
    simpl in H. lia. }
  split; [|split; [|split; [|split]]].
  - intros s. destruct (Hsev s) as [(v & -> & Hin) | [-> E]]; cbn [snd].
    + split; [intros _; apply listedIn_spec; eauto | reflexivity].
    + rewrite E. split; discriminate.
  - intros s. destruct (Hfac s) as [(v & -> & Hin) | [-> E]]; cbn [snd].
    + split; [intros _; apply listedIn_spec; eauto | reflexivity].
    + rewrite E. split; discriminate.
  - intros s1 s2 sev fac.
    assert (0 <= sev <= 7) as Hs.
    { subst sev. destruct (Hsev s1) as [(v & -> & Hin) | [-> _]]; simpl;
        [eapply Rsev; eauto | vm_compute; split; discriminate]. }
    assert (0 <= fac <= 23) as Hf.
    { subst fac. destruct (Hfac s2) as [(v & -> & Hin) | [-> _]]; simpl;
        [eapply Rfac; eauto | vm_compute; split; discriminate]. }
    split; [exact Hs|]. split; [exact Hf|].
    rewrite makePri_general, (Z.mod_small sev 8), (Z.mod_small fac 32) by lia.
    lia.
  - intros v Hv.
    assert (forallb (fun v => existsb (fun nv => snd nv =? v) severityNames)
                    (map Z.of_nat (seq 0 8)) = true) as H
      by (vm_compute; reflexivity).
    rewrite forallb_forall in H.
    assert (In v (map Z.of_nat (seq 0 8))) as Hin.
    { apply in_map_iff. exists (Z.to_nat v). split; [lia|]. apply in_seq. lia. }
    apply H, existsb_exists in Hin as [[n v'] [Hin E]]. simpl in E.
    apply Z.eqb_eq in E. subst v'. exists n.
    apply (ParseSeverity_listed _ n); [exact Hin|].
    apply ToLower_caseVariant; [eapply severityNames_lower; eauto|].
    apply caseVariant_refl.
  - intros v Hv.
    assert (forallb (fun v => existsb (fun nv => snd nv =? v) facilityNames)
                    (map Z.of_nat (seq 0 24)) = true) as H
      by (vm_compute; reflexivity).
    rewrite forallb_forall in H.
    assert (In v (map Z.of_nat (seq 0 24))) as Hin.
    { apply in_map_iff. exists (Z.to_nat v). split; [lia|]. apply in_seq. lia. }
    apply H, existsb_exists in Hin as [[n v'] [Hin E]]. simpl in E.
    apply Z.eqb_eq in E. subst v'. exists n.
    apply (ParseFacility_listed _ n); [exact Hin|].
    apply ToLower_caseVariant; [eapply facilityNames_lower; eauto|].
    apply caseVariant_refl.
Qed.

Lemma parse_range_failure_coverage_witness :
  snd (ParseSeverity (fun s => s) (str "Verbose")) <> None
  /\ exists n, ParseFacility (fun s => s) n = (FacilityNtp, None).
Proof.
  destruct (parse_range_failure_coverage (fun s => s))
    as (Hfail & _ & _ & _ & Hcover).
  split.
  - intros E. apply Hfail in E. vm_compute in E. discriminate.
  - apply Hcover. unfold FacilityNtp. lia.
Defined.

(** ** The target resolver *)

Lemma isEmpty_true {A} (s : list A) : isEmpty s = true <-> s = [].
Proof. destruct s; simpl; split; congruence. Qed.

Lemma unix_targets_shape (network address : gostring) :
  localRequest network address = true ->
  fst (determineOSSpecificConnTargets network address)
  = flat_map (fun n => map (mkTarget n)
                           (if isEmpty address then standardPaths else [address]))
             (if isEmpty network then [str "unixgram"; str "unix"] else [network]).
Proof.
  intros Hloc. unfold determineOSSpecificConnTargets.
  fold (localRequest network address). rewrite Hloc. cbn [fst].
  unfold localRequest in Hloc. apply andb_true_iff in Hloc as [Hn _].
  destruct (isEmpty network) eqn:En.
  - simpl. destruct (isEmpty address); reflexivity.
  - simpl in Hn. apply orb_true_iff in Hn as [Hn|Hn];
      apply gostring_eqb_eq in Hn; subst network;
      destruct (isEmpty address); reflexivity.
Qed.

Lemma unix_resolver_basic (network address : gostring) :
  snd (determineOSSpecificConnTargets network address) = None
  /\ (localRequest network address = false ->
      fst (determineOSSpecificConnTargets network address) = [])
  /\ (localRequest network address = true ->
      fst (determineOSSpecificConnTargets network address) <> []).
Proof.
  split; [|split].
  - unfold determineOSSpecificConnTargets.
    destruct (_ && _); reflexivity.
  - intros Hloc. unfold determineOSSpecificConnTargets.
    fold (localRequest network address). rewrite Hloc. reflexivity.
  - intros Hloc. rewrite (unix_targets_shape network address Hloc).
    unfold localRequest in Hloc. apply andb_true_iff in Hloc as [Hn _].
    apply orb_true_iff in Hn as [Hn|Hn];
      [apply orb_true_iff in Hn as [Hn|Hn]|].
    + apply isEmpty_true in Hn. subst network.
      destruct address; discriminate.
    + apply gostring_eqb_eq in Hn. subst network.
      destruct address; discriminate.
    + apply gostring_eqb_eq in Hn. subst network.
      destruct address; discriminate.
Qed.

Lemma determineConnTargets_nonempty (env : Env) (network address : gostring) :
  snd (determineConnTargets env network address) = None
  <-> fst (determineConnTargets env network address) <> [].
Proof.
  pose proof (unix_resolver_basic network address) as (Herr & Hnone & Hsome).
  unfold determineConnTargets.
  destruct (determineOSSpecificConnTargets network address) as [ts err] eqn:Eos.
  simpl in Herr, Hnone, Hsome. subst err.
  destruct (localRequest network address) eqn:Hloc.
  - pose proof (Hsome eq_refl) as Hne.
    destruct ts as [|t ts]; [congruence|]. simpl.
    split; [discriminate | reflexivity].
  - rewrite (Hnone eq_refl). simpl.
    destruct address as [|c a]; simpl; [split; [discriminate | congruence]|].
    destruct (env_HasPort env (c :: a)) as [hp [e|]]; simpl;
      split; try discriminate; congruence.
Qed.

(** X4: the unix resolver. It never fails. A request without network or
    with a unix network, and without address or with a path, is answered
    with the candidates networks x paths, in that order: the requested
    network or else unixgram before unix, the requested path or else the
    three standard paths; every other request gets no candidate. *)
Theorem unix_resolver_candidates (network address : gostring) :
  snd (determineOSSpecificConnTargets network address) = None
  /\ (localRequest network address = false ->
      fst (determineOSSpecificConnTargets network address) = [])
  /\ (localRequest network address = true ->
      let targets := fst (determineOSSpecificConnTargets network address) in
      targets
      = flat_map (fun n => map (mkTarget n)
                               (if isEmpty address then standardPaths
                                else [address]))
                 (if isEmpty network then [str "unixgram"; str "unix"]
                  else [network])
      /\ targets <> []
      /\ (forall t, In t targets ->
            (Network t = str "unixgram" \/ Network t = str "unix")
            /\ (network <> [] -> Network t = network)
            /\ (address <> [] -> Address t = address)
            /\ HasPrefix (Address t) (str "/") = true)).
Proof.
  split; [|split].
  - unfold determineOSSpecificConnTargets.
    destruct (_ && _); reflexivity.
  - intros Hloc. unfold determineOSSpecificConnTargets.
    fold (localRequest network address). rewrite Hloc. reflexivity.
  - intros Hloc targets.
    pose proof (unix_targets_shape network address Hloc) as Hshape.
    fold targets in Hshape. split; [exact Hshape|].
    unfold localRequest in Hloc. apply andb_true_iff in Hloc as [Hn Ha].
    assert (network = [] \/ network = str "unix" \/ network = str "unixgram")
      as Hnet.
    { apply orb_true_iff in Hn as [Hn|Hn];
        [apply orb_true_iff in Hn as [Hn|Hn]|].
      - left. apply isEmpty_true. exact Hn.
      - right. left. apply gostring_eqb_eq. exact Hn.
      - right. right. apply gostring_eqb_eq. exact Hn. }
    assert (forall p, In p (if isEmpty address then standardPaths else [address])
                      -> HasPrefix p (str "/") = true
                         /\ (address <> [] -> p = address)) as Hpaths.
    { intros p Hp. destruct address as [|c a]; simpl in Hp.
      - split; [|congruence].
        destruct Hp as [<-|[<-|[<-|[]]]]; reflexivity.
      - destruct Hp as [<-|[]]. split; [|reflexivity].
        simpl in Ha. exact Ha. }
    split.
    + rewrite Hshape.
      destruct Hnet as [-> | [-> | ->]]; destruct address; discriminate.
    + intros t Ht. rewrite Hshape in Ht. apply in_flat_map in Ht as (n & Hn' & Ht).
      apply in_map_iff in Ht as (p & <- & Hp). simpl.
      destruct (Hpaths p Hp) as [Hpre Hsame].
      split; [|split; [|split; [exact Hsame | exact Hpre]]].
      * destruct Hnet as [-> | [-> | ->]]; simpl in Hn'; intuition.
      * intros Hne. destruct network; [congruence|].
        simpl in Hn'. destruct Hn' as [<-|[]]. reflexivity.
Qed.

Lemma unix_resolver_candidates_witness :
  fst (determineOSSpecificConnTargets (str "unix") (str "/run/log"))
  = [mkTarget (str "unix") (str "/run/log")].
Proof.
  destruct (unix_resolver_candidates (str "unix") (str "/run/log"))
    as (_ & _ & Hloc).
  destruct (Hloc eq_refl) as (Hshape & _). exact Hshape.
Defined.

(** X5: [determineConnTargets]. A request the unix resolver answers is
    answered by it alone, without looking at the port. Any other request
    needs an address: an empty one is the error "no syslog address
    specified", an error of the port check is passed on, and otherwise
    there is exactly one candidate, on the requested network or else udp,
    at the address, with ":514" appended when it has no port. An error
    comes with no candidate, and success with at least one. *)
Theorem determineConnTargets_cases (env : Env) (network address : gostring) :
  (localRequest network address = true ->
   determineConnTargets env network address
   = determineOSSpecificConnTargets network address)
  /\ (localRequest network address = false -> address = [] ->
      determineConnTargets env network address = ([], Some errNoAddress))
  /\ (localRequest network address = false -> address <> [] ->
      forall hp e, env_HasPort env address = (hp, Some e) ->
      determineConnTargets env network address = ([], Some e))
  /\ (localRequest network address = false -> address <> [] ->
      forall hp, env_HasPort env address = (hp, None) ->
      determineConnTargets env network address
      = ([mkTarget (if isEmpty network then str "udp" else network)
                   (if hp then address else address ++ str ":514")], None))
  /\ (snd (determineConnTargets env network address) = None
      <-> fst (determineConnTargets env network address) <> []).
Proof.
  pose proof (unix_resolver_basic network address) as (Herr & Hnone & Hsome).
  unfold determineConnTargets.
  destruct (determineOSSpecificConnTargets network address) as [ts err] eqn:Eos.
  simpl in Herr, Hnone, Hsome. subst err.
  destruct (localRequest network address) eqn:Hloc.
  - pose proof (Hsome eq_refl) as Hne.
    destruct ts as [|t ts]; [congruence|]. simpl.
    repeat split; try discriminate.
  - rewrite (Hnone eq_refl). simpl.
    split; [discriminate|]. split; [|split; [|split]].
    + intros _ ->. reflexivity.
    + intros _ Ha hp e Hp. destruct address; [congruence|]. simpl.
      rewrite Hp. reflexivity.
    + intros _ Ha hp Hp. destruct address as [|c a]; [congruence|]. simpl.
      rewrite Hp. destruct hp; reflexivity.
    + destruct address as [|c a]; simpl; [split; [discriminate | congruence]|].
      destruct (env_HasPort env (c :: a)) as [hp [e|]]; simpl;
        split; try discriminate; congruence.
Qed.

Lemma determineConnTargets_cases_witness :
  determineConnTargets (sampleEnv never never) (str "tcp") (str "logs.example")
  = ([mkTarget (str "tcp") (str "logs.example:514")], None).
Proof.
  destruct (determineConnTargets_cases (sampleEnv never never) (str "tcp")
              (str "logs.example")) as (_ & _ & _ & Hone & _).
  apply (Hone eq_refl ltac:(discriminate) false). reflexivity.
Defined.

(** X6: [New] returns either a logger and no error, or no logger and the
    resolver's error. The logger holds the configuration as given, at
    least one target, no connection, is not closed, has no not-before time
    and a usable scratch buffer. *)
Theorem New_result {B : Type} `{BackoffPolicy B} (env : Env) (cfg : Config B) :
  (exists l,
     New env cfg = (Some l, None)
     /\ l_cfg l = cfg
     /\ l_connTargets l
        = fst (determineConnTargets env (cfg_Network cfg) (cfg_Address cfg))
     /\ l_connTargets l <> []
     /\ l_w l = None /\ l_closed l = false
     /\ l_reconnectStartTime l = zeroTime /\ l_autoconfigDone l = false
     /\ usable (l_fmtr l))
  \/ (exists e,
        New env cfg = (None, Some e)
        /\ determineConnTargets env (cfg_Network cfg) (cfg_Address cfg)
           = ([], Some e)).
Proof.
  pose proof (determineConnTargets_nonempty env (cfg_Network cfg)
                (cfg_Address cfg)) as Hiff.
  unfold New.
  destruct (determineConnTargets env (cfg_Network cfg) (cfg_Address cfg))
    as [ts [e|]] eqn:E; simpl in Hiff.
  - right. exists e. split; [reflexivity|].
    destruct ts as [|t ts]; [reflexivity|].
    exfalso. assert (Some e = None) by (apply Hiff; discriminate). discriminate.
  - left. eexists. split; [reflexivity|]. simpl.
    repeat split; try reflexivity.
    apply Hiff. reflexivity.
Qed.

(** ** The syslog target option *)

Lemma Cut_colon_none (s : gostring) :
  lacks ":" s = true -> Cut s (str ":") = (s, [], false).
Proof.
  induction s as [|c s IH]; [reflexivity|].
  intros Hs. simpl in Hs. apply andb_true_iff in Hs as [Hc Hs].
  apply negb_true_iff in Hc.
  cbn [Cut]. change (HasPrefix (c :: s) (str ":")) with (Ascii.eqb c ":" && true).
  rewrite Hc. simpl andb. cbv iota. rewrite (IH Hs). reflexivity.
Qed.

Lemma Cut_colon_first (n a : gostring) :
  lacks ":" n = true -> Cut (n ++ str ":" ++ a) (str ":") = (n, a, true).
Proof.
  induction n as [|c n IH]; [reflexivity|].
  intros Hs. simpl in Hs. apply andb_true_iff in Hs as [Hc Hs].
  apply negb_true_iff in Hc.
  rewrite <- app_comm_cons. cbn [Cut].
  change (HasPrefix (c :: n ++ str ":" ++ a) (str ":"))
    with (Ascii.eqb c ":" && true).
  rewrite Hc. simpl andb. cbv iota. rewrite (IH Hs). reflexivity.
Qed.

Lemma Cut_colon_found (s l r : gostring) :
  Cut s (str ":") = (l, r, true) -> lacks ":" l = true /\ s = l ++ str ":" ++ r.
Proof.
  revert l r. induction s as [|c s IH]; intros l r; [discriminate|].
  cbn [Cut]. change (HasPrefix (c :: s) (str ":")) with (Ascii.eqb c ":" && true).
  destruct (Ascii.eqb c ":") eqn:Hc; simpl andb; cbv iota.
  - apply Ascii.eqb_eq in Hc. subst c. intros E. injection E as <- <-.
    split; reflexivity.
  - destruct (Cut s (str ":")) as [[l' r'] ok] eqn:Ecut.
    intros E. injection E as <- <- ->.
    destruct (IH l' r' eq_refl) as [Hl ->].
    split; [|reflexivity]. simpl. rewrite Hc, Hl. reflexivity.
Qed.

(** X7: [parseSyslogTarget]. The empty option gives an empty network and
    address and no error (the logger then uses the local system socket). A
    non-empty option without a colon is refused. Otherwise the option is
    split at its first colon: the network is what precedes it, and the
    address what follows, less one leading "//". Hence "net:addr" and
    "net://addr" name the same target, and a network returned never
    contains a colon. *)
Theorem parseSyslogTarget_forms :
  parseSyslogTarget [] = ([], [], None)
  /\ (forall s, s <> [] -> lacks ":" s = true ->
        parseSyslogTarget s = ([], [], Some errTargetForm))
  /\ (forall n a, lacks ":" n = true ->
        parseSyslogTarget (n ++ str ":" ++ a) = (n, TrimPrefix a (str "//"), None))
  /\ (forall n a, lacks ":" n = true -> HasPrefix a (str "//") = false ->
        parseSyslogTarget (n ++ str ":" ++ a) = (n, a, None)
        /\ parseSyslogTarget (n ++ str "://" ++ a) = (n, a, None))
  /\ (forall s n a, parseSyslogTarget s = (n, a, None) -> lacks ":" n = true).
Proof.
  assert (forall n a, lacks ":" n = true ->
            parseSyslogTarget (n ++ str ":" ++ a)
            = (n, TrimPrefix a (str "//"), None)) as Hsplit.
  { intros n a Hn. unfold parseSyslogTarget.
    rewrite (Cut_colon_first n a Hn).
    destruct n; reflexivity. }
  split; [reflexivity|]. split; [|split; [exact Hsplit|split]].
  - intros s Hs Hno. unfold parseSyslogTarget.
    rewrite (Cut_colon_none s Hno). destruct s; [congruence | reflexivity].
  - intros n a Hn Ha. split.
    + rewrite (Hsplit n a Hn). unfold TrimPrefix. rewrite Ha. reflexivity.
    + change (str "://" ++ a) with (str ":" ++ (str "//" ++ a)).
      rewrite (Hsplit n (str "//" ++ a) Hn). reflexivity.
  - intros s n a. unfold parseSyslogTarget.
    destruct s as [|c s]; [intros E; injection E as <- <-; reflexivity|].
    cbn [isEmpty]. cbv iota.
    destruct (Cut (c :: s) (str ":")) as [[l r] ok] eqn:Ecut.
    destruct ok; simpl negb; cbv iota; [|discriminate].
    intros E. injection E as <- <-.
    apply (Cut_colon_found _ _ _ Ecut).
Qed.

Lemma parseSyslogTarget_forms_witness :
  parseSyslogTarget (str "udp" ++ str ":" ++ str "127.0.0.1:514")
  = (str "udp", str "127.0.0.1:514", None)
  /\ parseSyslogTarget (str "unix" ++ str "://" ++ str "/dev/log")
     = (str "unix", str "/dev/log", None).
Proof.
  destruct parseSyslogTarget_forms as (_ & _ & _ & Hboth & _).
  split.
  - apply (Hboth (str "udp") (str "127.0.0.1:514")); reflexivity.
  - apply (Hboth (str "unix") (str "/dev/log")); reflexivity.
Defined.

(** ** The formatter: framing, marker, fields, scratch buffer *)

Lemma formatText_suffix (p : Protocol) pri ts host proc pid msgID body sd pfx e msg :
  formatText p pri ts host proc pid msgID body sd pfx [] = Ret msg ->
  formatText p pri ts host proc pid msgID body sd pfx e = Ret (msg ++ e).
Proof.
  unfold formatText.
  destruct (p =? ProtocolV0Local); [|destruct (p =? ProtocolV0Net);
                                      [|destruct (p =? ProtocolV1Net)]];
    try discriminate;
    match goal with
    | |- Ret ?x0 = Ret msg -> Ret ?xe = _ =>
        assert (xe = x0 ++ e) as Hx
          by (rewrite app_nil_r; repeat rewrite <- app_assoc; reflexivity);
        intros E; rewrite Hx; congruence
    end.
Qed.

(** X8: delimiter framing only appends. For every known protocol the bytes
    written under a framing other than length framing are the bytes written
    without framing followed by the framing's suffix: one NUL byte, one LF
    byte, or nothing; a framing value that is none of the defined
    delimiters, [FramingAuto] included, is formatted like no framing. *)
Theorem delimiter_framing_appends (grow : nat -> nat -> nat) (fmtr : formatter)
    (p : Protocol) (f : Framing) (b : BOMMode) (pri : Z) (ts : Time)
    (host proc : gostring) (pid : Z) (msgID body sd : gostring) :
  (16 <= cap (writeBuf fmtr))%nat -> knownProtocol p -> f <> FramingLength ->
  exists msg,
    written (formatBytes grow fmtr p FramingNone b pri ts host proc pid
                         msgID body sd) = Some msg
    /\ written (formatBytes grow fmtr p f b pri ts host proc pid msgID body sd)
       = Some (msg ++ endCharOf f)
    /\ (f = FramingDelimiterNUL -> endCharOf f = [ascii_of_nat 0])
    /\ (f = FramingDelimiterLF -> endCharOf f = [ascii_of_nat 10])
    /\ (f <> FramingDelimiterNUL -> f <> FramingDelimiterLF -> endCharOf f = []).
Proof.
  intros Hcap Hp Hf.
  destruct (formatText_total p pri ts (orHyphen host) (orHyphen proc) pid
              msgID body (orHyphen sd) (bomPfxOf b) [] Hp) as (msg & Ht).
  exists msg.
  destruct (formatBytes_unframed grow fmtr p FramingNone b pri ts host proc
              pid msgID body sd msg Hcap ltac:(discriminate) Ht)
    as (f1 & Hb1 & _).
  destruct (formatBytes_unframed grow fmtr p f b pri ts host proc
              pid msgID body sd (msg ++ endCharOf f) Hcap Hf
              (formatText_suffix _ _ _ _ _ _ _ _ _ _ _ _ Ht))
    as (f2 & Hb2 & _).
  rewrite Hb1, Hb2. split; [reflexivity|]. split; [reflexivity|].
  split; [intros ->; reflexivity|]. split; [intros ->; reflexivity|].
  intros H1 H2. unfold endCharOf.
  destruct (Z.eqb_spec f FramingDelimiterNUL); [contradiction|].
  destruct (Z.eqb_spec f FramingDelimiterLF); [contradiction|]. reflexivity.
Qed.

Lemma delimiter_framing_appends_witness :
  written (exampleBytes (fun _ _ => 0%nat) (formatter_init zeroFormatter)
                        ProtocolV0Local FramingDelimiterNUL BOMModeNever)
  = Some (str "<36>Oct 11 07:25:00 ProcName[12345]: MsgID MsgBody"
            ++ [ascii_of_nat 0]).
Proof.
  destruct (delimiter_framing_appends (fun _ _ => 0%nat)
              (formatter_init zeroFormatter) ProtocolV0Local FramingDelimiterNUL
              BOMModeNever (makePri SeverityWarning FacilityAuth)
              (Date 2021 10 11 7 25 0 0 UTC) (str "HostName") (str "ProcName")
              12345 (str "MsgID") (str "MsgBody") (str "SD"))
    as (msg & Hnone & Hnul & _).
  - vm_compute. lia.
  - left. reflexivity.
  - discriminate.
  - assert (msg = str "<36>Oct 11 07:25:00 ProcName[12345]: MsgID MsgBody") as ->.
    { assert (Some msg
              = Some (str "<36>Oct 11 07:25:00 ProcName[12345]: MsgID MsgBody"))
        as E by (rewrite <- Hnone; vm_compute; reflexivity).
      injection E as E. exact E. }
    exact Hnul.
Defined.

Lemma formatText_plain (p : Protocol) pri ts host proc pid msgID body sd e :
  knownProtocol p ->
  formatText p pri ts (orHyphen host) (orHyphen proc) pid msgID body
             (orHyphen sd) [] e
  = Ret (wireHeader p pri ts host proc pid msgID sd
           ++ wirePayload p msgID body ++ e).
Proof.
  intros [-> | [-> | ->]]; unfold formatText, wireHeader, wirePayload;
    simpl Z.eqb; cbv iota; f_equal; destruct msgID;
    repeat rewrite <- app_assoc; reflexivity.
Qed.

(** X9: the marker is inserted only for [BOMModeAlways]. Every other BOM
    mode, [BOMModeAuto] included when passed to the formatter unresolved,
    formats exactly like [BOMModeNever]: header, payload and framing
    suffix with nothing in between, so the output contains no marker
    unless a field supplied by the caller contains the byte 0xEF. *)
Theorem no_marker_unless_always (grow : nat -> nat -> nat) (fmtr : formatter)
    (p : Protocol) (f : Framing) (b : BOMMode) (pri : Z) (ts : Time)
    (host proc : gostring) (pid : Z) (msgID body sd : gostring) :
  b <> BOMModeAlways ->
  formatBytes grow fmtr p f b pri ts host proc pid msgID body sd
  = formatBytes grow fmtr p f BOMModeNever pri ts host proc pid msgID body sd
  /\ ((16 <= cap (writeBuf fmtr))%nat -> knownProtocol p -> f <> FramingLength ->
      let msg := wireHeader p pri ts host proc pid msgID sd
                   ++ wirePayload p msgID body ++ endCharOf f in
      written (formatBytes grow fmtr p f b pri ts host proc pid msgID body sd)
      = Some msg
      /\ (noEF host = true -> noEF proc = true -> noEF msgID = true ->
          noEF sd = true -> noEF body = true ->
          countOccurrences bom msg = 0%nat)).
Proof.
  intros Hb.
  assert (bomPfxOf b = []) as Hpfx.
  { unfold bomPfxOf. destruct (Z.eqb_spec b BOMModeAlways); [contradiction|].
    reflexivity. }
  split.
  - unfold formatBytes. rewrite Hpfx. reflexivity.
  - intros Hcap Hp Hf msg.
    pose proof (formatText_plain p pri ts host proc pid msgID body sd
                  (endCharOf f) Hp) as Ht.
    rewrite <- Hpfx in Ht.
    destruct (formatBytes_unframed grow fmtr p f b pri ts host proc pid
                msgID body sd msg Hcap Hf Ht) as (f' & Hrun & _).
    rewrite Hrun. split; [reflexivity|].
    intros Hh Hpr Hm Hs Hbody. apply count_bom_none. unfold msg.
    rewrite !noEF_app, wireHeader_noEF, wirePayload_noEF by assumption.
    rewrite (isASCII_noEF _ (endCharOf_ascii f)). reflexivity.
Qed.

Lemma no_marker_unless_always_witness :
  written (exampleBytes (fun _ _ => 0%nat) (formatter_init zeroFormatter)
                        ProtocolV1Net FramingNone BOMModeAuto)
  = Some (str "<36>1 2021-10-11T07:25:00Z HostName ProcName 12345 MsgID SD MsgBody").
Proof.
  destruct (no_marker_unless_always (fun _ _ => 0%nat)
              (formatter_init zeroFormatter) ProtocolV1Net FramingNone BOMModeAuto
              (makePri SeverityWarning FacilityAuth)
              (Date 2021 10 11 7 25 0 0 UTC) (str "HostName") (str "ProcName")
              12345 (str "MsgID") (str "MsgBody") (str "SD"))
    as (_ & Hout).
  - discriminate.
  - destruct Hout as (Hw & _).
    + vm_compute. lia.
    + right. right. reflexivity.
    + discriminate.
    + exact Hw.
Defined.

Lemma orHyphen_idem (s : gostring) : orHyphen (orHyphen s) = orHyphen s.
Proof. destruct s; reflexivity. Qed.

(** X10: what each protocol leaves out, and how empty fields are filled.
    The legacy local format depends neither on the host name nor on the
    structured data, and the legacy network format not on the structured
    data: they are dropped from the message. In every format an empty host
    name, process name or structured data is formatted like a hyphen; an
    empty message id is formatted like a hyphen in the versioned format
    only. *)
Theorem unused_and_defaulted_fields (grow : nat -> nat -> nat) (fmtr : formatter)
    (f : Framing) (b : BOMMode) (pri : Z) (ts : Time)
    (proc : gostring) (pid : Z) (msgID body : gostring) :
  (forall host1 sd1 host2 sd2,
     formatBytes grow fmtr ProtocolV0Local f b pri ts host1 proc pid msgID body sd1
     = formatBytes grow fmtr ProtocolV0Local f b pri ts host2 proc pid msgID body sd2)
  /\ (forall host sd1 sd2,
     formatBytes grow fmtr ProtocolV0Net f b pri ts host proc pid msgID body sd1
     = formatBytes grow fmtr ProtocolV0Net f b pri ts host proc pid msgID body sd2)
  /\ (forall p host sd,
     formatBytes grow fmtr p f b pri ts host proc pid msgID body sd
     = formatBytes grow fmtr p f b pri ts (orHyphen host) (orHyphen proc) pid
                   msgID body (orHyphen sd))
  /\ (forall host sd,
     formatBytes grow fmtr ProtocolV1Net f b pri ts host proc pid [] body sd
     = formatBytes grow fmtr ProtocolV1Net f b pri ts host proc pid (str "-") body sd).
Proof.
  repeat split; intros; unfold formatBytes; rewrite ?orHyphen_idem; reflexivity.
Qed.

Lemma lenDigits_length (i : nat) :
  forall lrem ds, lenDigits i lrem = Some ds -> (length ds <= i)%nat.
Proof.
  induction i as [|i IH]; intros lrem ds; simpl; destruct (0 <? lrem);
    try discriminate; try (intros E; injection E as <-; simpl; lia).
  destruct (lenDigits i (lrem / 10)) as [ds'|] eqn:E'; [|discriminate].
  intros E. injection E as <-. rewrite length_app. simpl.
  specialize (IH _ _ E'). lia.
Qed.

(** The loop, whatever the array holds: it stores [lenDigits] in front of
    index [i], or panics when they do not fit. *)
Lemma encodeLen_lenDigits (i : nat) :
  forall (lrem : Z) (arr : list ascii),
    (i <= length arr)%nat ->
    encodeLen i lrem arr
    = match lenDigits i lrem with
      | Some ds => Ret ((i - length ds)%nat,
                        take (i - length ds) arr ++ ds ++ drop i arr)
      | None => Panic panicIndexOutOfRange
      end.
Proof.
  assert (forall k (arr : list ascii),
            Ret (k, arr)
            = Ret ((k - length (@nil ascii))%nat,
                   take (k - length (@nil ascii)) arr ++ [] ++ drop k arr))
    as Hdone.
  { intros k arr. cbn [length]. rewrite Nat.sub_0_r, app_nil_l, take_drop.
    reflexivity. }
  induction i as [|i IH]; intros lrem arr Harr; cbn [encodeLen lenDigits].
  - destruct (0 <? lrem); [reflexivity | apply Hdone].
  - destruct (0 <? lrem); [|apply Hdone].
    rewrite IH by (rewrite length_insert; lia).
    destruct (lenDigits i (lrem / 10)) as [ds|] eqn:E; [|reflexivity].
    pose proof (lenDigits_length i _ _ E) as Hl.
    rewrite length_app. cbn [length].
    replace (S i - (length ds + 1))%nat with (i - length ds)%nat by lia.
    rewrite take_insert_ge by lia.
    rewrite (insert_take_drop arr i) by lia.
    rewrite drop_app_length' by (rewrite length_take_le; lia).
    rewrite <- app_assoc. reflexivity.
Qed.

(** Length framing in full, for a usable buffer. *)
Lemma formatBytes_length_outcome (grow : nat -> nat -> nat) (fmtr : formatter)
    p b pri ts host proc pid msgID body sd msg :
  usable fmtr ->
  formatText p pri ts (orHyphen host) (orHyphen proc) pid msgID body
             (orHyphen sd) (bomPfxOf b) [] = Ret msg ->
  match lenDigits 15 (Z.of_nat (length msg)) with
  | Some ds =>
      exists fmtr',
        formatBytes grow fmtr p FramingLength b pri ts host proc pid msgID body sd
        = Ret (ds ++ str " " ++ msg, fmtr')
        /\ usable fmtr'
  | None =>
      formatBytes grow fmtr p FramingLength b pri ts host proc pid msgID body sd
      = Panic panicIndexOutOfRange
  end.
Proof.
  intros Hus Ht.
  destruct (usable_prefix fmtr Hus) as [H16 HP15].
  destruct Hus as [Hcap H15].
  unfold formatBytes.
  replace (cap (writeBuf fmtr) <? 16)%nat with false
    by (symmetry; apply Nat.ltb_ge; exact Hcap).
  change (endCharOf FramingLength) with (@nil ascii). rewrite Ht.
  change (negb (FramingLength =? FramingLength)) with false. cbv iota.
  set (buf := mkSlice (s_arr (writeBuf fmtr)) 16).
  assert (elemsFrom (sliceAppend grow buf msg) 16 = msg) as He
    by (apply (sliceAppend_elems grow buf msg); exact Hcap).
  rewrite He.
  destruct (sliceAppend_arr grow buf msg) as (post & Ha & Hl).
  simpl in Ha, Hl. rewrite H16 in Ha. rewrite Ha, Hl.
  set (P := take 15 (s_arr (writeBuf fmtr))) in *.
  rewrite encodeLen_lenDigits by (rewrite !length_app, HP15; simpl; lia).
  destruct (lenDigits 15 (Z.of_nat (length msg))) as [ds|] eqn:Eds;
    [|reflexivity].
  pose proof (lenDigits_length _ _ _ Eds) as Hdl.
  set (j := (15 - length ds)%nat).
  assert (take j ((P ++ [" "%char]) ++ msg ++ post) = take j P) as Htk.
  { rewrite <- app_assoc. apply take_app_le. lia. }
  assert (drop 15 ((P ++ [" "%char]) ++ msg ++ post) = " "%char :: msg ++ post)
    as Hdr.
  { rewrite <- app_assoc. rewrite drop_app_length' by (symmetry; exact HP15).
    reflexivity. }
  rewrite Htk, Hdr.
  assert (length (take j P) = j) as Hj by (apply length_take_le; lia).
  eexists. split.
  - f_equal. f_equal. unfold elemsFrom. simpl s_arr. simpl s_len.
    replace (take j P ++ ds ++ " "%char :: msg ++ post)
      with ((take j P ++ ds ++ " "%char :: msg) ++ post)
      by (rewrite <- !app_assoc; reflexivity).
    rewrite take_app_length'.
    + apply drop_app_length'. symmetry. exact Hj.
    + rewrite !length_app, Hj. simpl. unfold j. lia.
  - unfold usable, cap. simpl. split.
    + rewrite !length_app, Hj. simpl. unfold j. lia.
    + rewrite app_assoc. rewrite lookup_app_r
        by (rewrite length_app, Hj; unfold j; lia).
      rewrite length_app, Hj. unfold j.
      replace (15 - (15 - length ds + length ds))%nat with 0%nat by lia.
      reflexivity.
Qed.

(** What is written, as a function of the arguments alone. *)
Lemma written_closed_form (grow : nat -> nat -> nat) (fmtr : formatter)
    p f b pri ts host proc pid msgID body sd :
  usable fmtr ->
  written (formatBytes grow fmtr p f b pri ts host proc pid msgID body sd)
  = match formatText p pri ts (orHyphen host) (orHyphen proc) pid msgID body
                     (orHyphen sd) (bomPfxOf b) (endCharOf f) with
    | Ret msg =>
        if f =? FramingLength
        then match lenDigits 15 (Z.of_nat (length msg)) with
             | Some ds => Some (ds ++ str " " ++ msg)
             | None => None
             end
        else Some msg
    | _ => None
    end.
Proof.
  intros Hus.
  destruct (formatText p pri ts (orHyphen host) (orHyphen proc) pid msgID body
              (orHyphen sd) (bomPfxOf b) (endCharOf f)) as [msg|e|] eqn:Ht.
  - destruct (Z.eqb_spec f FramingLength) as [->|Hf].
    + change (endCharOf FramingLength) with (@nil ascii) in Ht.
      pose proof (formatBytes_length_outcome grow fmtr p b pri ts host proc pid
                    msgID body sd msg Hus Ht) as Ho.
      destruct (lenDigits 15 (Z.of_nat (length msg))) as [ds|].
      * destruct Ho as (f' & -> & _). reflexivity.
      * rewrite Ho. reflexivity.
    + destruct (formatBytes_unframed grow fmtr p f b pri ts host proc pid
                  msgID body sd msg (proj1 Hus) Hf Ht) as (f' & -> & _).
      reflexivity.
  - unfold formatBytes.
    replace (cap (writeBuf fmtr) <? 16)%nat with false
      by (symmetry; apply Nat.ltb_ge; apply Hus).
    rewrite Ht. reflexivity.
  - unfold formatBytes.
    replace (cap (writeBuf fmtr) <? 16)%nat with false
      by (symmetry; apply Nat.ltb_ge; apply Hus).
    rewrite Ht. reflexivity.
Qed.

(** X11: the scratch buffer does not leak. What [formatTo] writes depends
    on its arguments only: two usable formatters, whatever earlier calls
    left in their buffers and however the run-time grows slices, write the
    same bytes for the same arguments (or both write nothing). *)
Theorem scratch_buffer_does_not_leak (grow1 grow2 : nat -> nat -> nat)
    (fmtr1 fmtr2 : formatter) (p : Protocol) (f : Framing) (b : BOMMode)
    (pri : Z) (ts : Time) (host proc : gostring) (pid : Z)
    (msgID body sd : gostring) :
  usable fmtr1 -> usable fmtr2 ->
  written (formatBytes grow1 fmtr1 p f b pri ts host proc pid msgID body sd)
  = written (formatBytes grow2 fmtr2 p f b pri ts host proc pid msgID body sd).
Proof.
  intros H1 H2. rewrite !written_closed_form by assumption. reflexivity.
Qed.

Lemma scratch_buffer_does_not_leak_witness :
  let stale := mkFormatter (mkSlice (str "0123456789abcde leftover bytes") 16) in
  written (exampleBytes (fun _ n => n) stale
                        ProtocolV0Local FramingLength BOMModeNever)
  = written (exampleBytes (fun _ _ => 0%nat) (formatter_init zeroFormatter)
                          ProtocolV0Local FramingLength BOMModeNever).
Proof.
  intros stale. unfold exampleBytes.
  apply scratch_buffer_does_not_leak.
  - split; [vm_compute; lia | reflexivity].
  - split; [vm_compute; lia | reflexivity].
Defined.

(** X12: the scratch buffer stays usable, and what goes wrong without it.
    [init] makes the buffer usable and every call that returns leaves it
    usable. A formatter that was never initialised panics on its first use
    with a slice-bounds failure, for every input; an initialised one panics
    exactly for an unknown protocol or for a length that does not fit in 15
    digits under length framing; and a call that panics has written
    nothing. *)
Theorem scratch_buffer_lifecycle (grow : nat -> nat -> nat)
    (p : Protocol) (f : Framing) (b : BOMMode) (pri : Z) (ts : Time)
    (host proc : gostring) (pid : Z) (msgID body sd : gostring) :
  (forall fmtr, usable (formatter_init fmtr))
  /\ (forall fmtr data fmtr',
        usable fmtr ->
        formatBytes grow fmtr p f b pri ts host proc pid msgID body sd
        = Ret (data, fmtr') -> usable fmtr')
  /\ formatBytes grow zeroFormatter p f b pri ts host proc pid msgID body sd
     = Panic panicSliceBounds
  /\ (forall fmtr, usable fmtr -> ~ knownProtocol p ->
        formatBytes grow fmtr p f b pri ts host proc pid msgID body sd
        = Panic panicUnknownProtocol)
  /\ (forall fmtr, usable fmtr -> knownProtocol p ->
        (exists r, formatBytes grow fmtr p f b pri ts host proc pid msgID body sd
                   = Ret r)
        \/ (f = FramingLength
            /\ formatBytes grow fmtr p f b pri ts host proc pid msgID body sd
               = Panic panicIndexOutOfRange))
  /\ (forall (env : Env) fmtr w wd e,
        formatBytes (env_grow env) fmtr p f b pri ts host proc pid msgID body sd
        = Panic e ->
        formatTo env fmtr w p f b pri ts host proc pid msgID body sd wd
        = (Panic e, wd)).
Proof.
  assert (forall fmtr, usable fmtr -> knownProtocol p ->
            (exists data fmtr',
               formatBytes grow fmtr p f b pri ts host proc pid msgID body sd
               = Ret (data, fmtr') /\ usable fmtr')
            \/ (f = FramingLength
                /\ formatBytes grow fmtr p f b pri ts host proc pid msgID body sd
                   = Panic panicIndexOutOfRange)) as Hknown.
  { intros fmtr Hus Hp.
    destruct (formatText_total p pri ts (orHyphen host) (orHyphen proc) pid
                msgID body (orHyphen sd) (bomPfxOf b) (endCharOf f) Hp)
      as (msg & Ht).
    destruct (Z.eq_dec f FramingLength) as [->|Hf].
    - change (endCharOf FramingLength) with (@nil ascii) in Ht.
      pose proof (formatBytes_length_outcome grow fmtr p b pri ts host proc pid
                    msgID body sd msg Hus Ht) as Ho.
      destruct (lenDigits 15 (Z.of_nat (length msg))) as [ds|].
      + destruct Ho as (f' & Hrun & Hus'). left. eauto.
      + right. split; [reflexivity | exact Ho].
    - destruct (formatBytes_unframed grow fmtr p f b pri ts host proc pid
                  msgID body sd msg (proj1 Hus) Hf Ht) as (f' & Hrun & Hus').
      left. eauto. }
  assert (forall fmtr, usable fmtr -> ~ knownProtocol p ->
            formatBytes grow fmtr p f b pri ts host proc pid msgID body sd
            = Panic panicUnknownProtocol) as Hunknown.
  { intros fmtr Hus Hp. unfold formatBytes.
    replace (cap (writeBuf fmtr) <? 16)%nat with false
      by (symmetry; apply Nat.ltb_ge; apply Hus).
    destruct (formatText_outcome p pri ts (orHyphen host) (orHyphen proc) pid
                msgID body (orHyphen sd) (bomPfxOf b) (endCharOf f))
      as [[text Ht] | ->]; [|reflexivity].
    exfalso. apply Hp. unfold formatText in Ht. unfold knownProtocol.
    destruct (Z.eqb_spec p ProtocolV0Local); [auto|].
    destruct (Z.eqb_spec p ProtocolV0Net); [auto|].
    destruct (Z.eqb_spec p ProtocolV1Net); [auto | discriminate]. }
  split; [|split; [|split; [|split; [|split]]]].
  - intros fmtr. split; [vm_compute; lia | reflexivity].
  - intros fmtr data fmtr' Hus Hrun.
    assert (knownProtocol p) as Hp.
    { destruct (Z.eq_dec p ProtocolV0Local); [left; assumption|].
      destruct (Z.eq_dec p ProtocolV0Net); [right; left; assumption|].
      destruct (Z.eq_dec p ProtocolV1Net); [right; right; assumption|].
      rewrite Hunknown in Hrun; [discriminate | exact Hus|].
      unfold knownProtocol. tauto. }
    destruct (Hknown fmtr Hus Hp) as [(d & f' & Hrun' & Hus') | [_ Hpanic]];
      congruence.
  - reflexivity.
  - exact Hunknown.
  - intros fmtr Hus Hp.
    destruct (Hknown fmtr Hus Hp) as [(d & f' & Hrun' & _) | Hpanic]; eauto.
  - intros env fmtr w wd e Hpanic. apply formatTo_panic. exact Hpanic.
Qed.

Lemma scratch_buffer_lifecycle_witness :
  exists data fmtr',
    exampleBytes (fun _ n => n) (formatter_init zeroFormatter)
                 ProtocolV1Net FramingLength BOMModeAlways
    = Ret (data, fmtr')
    /\ usable fmtr'.
Proof.
  destruct (scratch_buffer_lifecycle (fun _ n => n) ProtocolV1Net FramingLength
              BOMModeAlways (makePri SeverityWarning FacilityAuth)
              (Date 2021 10 11 7 25 0 0 UTC) (str "HostName") (str "ProcName")
              12345 (str "MsgID") (str "MsgBody") (str "SD"))
    as (Hinit & Hkeep & _).
  eexists. eexists. split; [vm_compute; reflexivity|].
  eapply Hkeep; [apply (Hinit zeroFormatter) | vm_compute; reflexivity].
Defined.

(** ** Resolution of the automatic settings *)

(** X13: the three [resolve] methods. None of them returns its automatic
    value, and resolving again, on the same or on any later connection,
    leaves a resolved protocol and BOM mode as they are. Framing is
    resolved per connection: a transport that needs no framing gets none
    whatever was configured, a configured framing is kept on a transport
    that needs framing, and the automatic one becomes the NUL delimiter;
    but a framing once resolved to none stays none, also on a later
    transport that needs framing. The automatic BOM mode turns the marker
    on exactly for the versioned network protocol. *)
Theorem resolve_properties :
  (forall p u u',
     Protocol_resolve p u <> ProtocolAuto
     /\ Protocol_resolve (Protocol_resolve p u) u' = Protocol_resolve p u
     /\ (p <> ProtocolAuto -> Protocol_resolve p u = p))
  /\ (forall f need,
     Framing_resolve f need <> FramingAuto
     /\ Framing_resolve (Framing_resolve f need) need = Framing_resolve f need
     /\ Framing_resolve f false = FramingNone
     /\ (f <> FramingAuto -> Framing_resolve f true = f)
     /\ Framing_resolve FramingAuto true = FramingDelimiterNUL
     /\ Framing_resolve (Framing_resolve f false) need = FramingNone)
  /\ (forall b p p',
     BOMMode_resolve b p <> BOMModeAuto
     /\ BOMMode_resolve (BOMMode_resolve b p) p' = BOMMode_resolve b p
     /\ (b <> BOMModeAuto -> BOMMode_resolve b p = b)
     /\ (BOMMode_resolve BOMModeAuto p = BOMModeAlways <-> p = ProtocolV1Net)).
Proof.
  split; [|split].
  - intros p u u'. unfold Protocol_resolve.
    destruct (Z.eqb_spec p ProtocolAuto) as [->|Hp]; simpl.
    + destruct u; simpl; repeat split; try discriminate; congruence.
    + destruct (Z.eqb_spec p ProtocolAuto); [contradiction|]. simpl.
      repeat split; assumption.
  - intros f need.
    assert (f <> FramingAuto -> Framing_resolve f true = f) as Hkeep.
    { intros Hf. unfold Framing_resolve. simpl.
      destruct (Z.eqb_spec f FramingAuto); [contradiction | reflexivity]. }
    split; [|split; [|split; [reflexivity|split; [exact Hkeep|split;
                                                    [reflexivity|]]]]].
    + destruct need; [|discriminate].
      destruct (Z.eq_dec f FramingAuto) as [->|Hf]; [discriminate|].
      rewrite (Hkeep Hf). exact Hf.
    + destruct need; [|reflexivity].
      destruct (Z.eq_dec f FramingAuto) as [->|Hf]; [reflexivity|].
      rewrite !(Hkeep Hf). reflexivity.
    + destruct need; reflexivity.
  - intros b p p'.
    assert (forall v q, v <> BOMModeAuto -> BOMMode_resolve v q = v) as Hkeep.
    { intros v q Hv. unfold BOMMode_resolve.
      destruct (Z.eqb_spec v BOMModeAuto); [contradiction | reflexivity]. }
    assert (forall q, BOMMode_resolve BOMModeAuto q
                      = if q =? ProtocolV1Net then BOMModeAlways
                        else BOMModeNever) as Hauto by reflexivity.
    assert (BOMMode_resolve b p <> BOMModeAuto) as Hne.
    { destruct (Z.eq_dec b BOMModeAuto) as [->|Hb].
      - rewrite Hauto. destruct (p =? ProtocolV1Net); discriminate.
      - rewrite (Hkeep b p Hb). exact Hb. }
    split; [exact Hne|]. split; [apply Hkeep; exact Hne|].
    split; [apply Hkeep|].
    rewrite Hauto. destruct (Z.eqb_spec p ProtocolV1Net) as [Hp|Hp]; split.
    + intros _. exact Hp.
    + reflexivity.
    + intros E. discriminate E.
    + intros E. contradiction.
Qed.

Lemma resolve_properties_witness :
  Framing_resolve (Framing_resolve FramingLength false) true = FramingNone.
Proof.
  destruct resolve_properties as (_ & Hf & _).
  apply (Hf FramingLength true).
Defined.

Lemma Protocol_resolve_keep (p : Protocol) (u : bool) :
  p <> ProtocolAuto -> Protocol_resolve p u = p.
Proof.
  intros Hp. unfold Protocol_resolve.
  destruct (Z.eqb_spec p ProtocolAuto); [contradiction | reflexivity].
Qed.

Lemma Framing_resolve_keep (f : Framing) :
  f <> FramingAuto -> Framing_resolve f true = f.
Proof.
  intros Hf. unfold Framing_resolve. simpl.
  destruct (Z.eqb_spec f FramingAuto); [contradiction | reflexivity].
Qed.

Lemma Framing_resolve_not_auto (f : Framing) (need : bool) :
  Framing_resolve f need <> FramingAuto.
Proof.
  destruct need; [|discriminate].
  destruct (Z.eq_dec f FramingAuto) as [->|Hf]; [discriminate|].
  rewrite (Framing_resolve_keep f Hf). exact Hf.
Qed.

Lemma Framing_resolve_not_length (f : Framing) (need : bool) :
  f <> FramingLength -> Framing_resolve f need <> FramingLength.
Proof.
  intros Hl. destruct need; [|discriminate].
  destruct (Z.eq_dec f FramingAuto) as [->|Hf]; [discriminate|].
  rewrite (Framing_resolve_keep f Hf). exact Hl.
Qed.

Lemma Framing_resolve_none (need : bool) :
  Framing_resolve FramingNone need = FramingNone.
Proof. destruct need; reflexivity. Qed.

Lemma BOMMode_resolve_keep (b : BOMMode) (p : Protocol) :
  b <> BOMModeAuto -> BOMMode_resolve b p = b.
Proof.
  intros Hb. unfold BOMMode_resolve.
  destruct (Z.eqb_spec b BOMModeAuto); [contradiction | reflexivity].
Qed.

Lemma BOMMode_resolve_not_auto (b : BOMMode) (p : Protocol) :
  BOMMode_resolve b p <> BOMModeAuto.
Proof.
  destruct (Z.eq_dec b BOMModeAuto) as [->|Hb].
  - unfold BOMMode_resolve, Protocol_isV1. simpl.
    destruct (p =? ProtocolV1Net); discriminate.
  - rewrite (BOMMode_resolve_keep b p Hb). exact Hb.
Qed.

Section AutoconfigFacts.

Context {B : Type} `{BackoffPolicy B}.
Variable env : Env.

Lemma getNetwork_connected (l : Logger B) (c : conn) :
  conn_localNetwork c <> None \/ l_connTargets l <> [] ->
  getNetwork l (Some c) = Ret (actualNetwork l c).
Proof.
  intros Hn. unfold getNetwork, actualNetwork.
  destruct c as [i [n|]]; simpl; [reflexivity|].
  destruct (l_connTargets l); [|reflexivity].
  destruct Hn as [Hn|Hn]; simpl in Hn; congruence.
Qed.

Lemma autoconfig_connected (l : Logger B) (c : conn) :
  l_w l = Some c -> l_autoconfigDone l = false ->
  conn_localNetwork c <> None \/ l_connTargets l <> [] ->
  autoconfig env l
  = Ret (set_cfg l (resolvedConfig env (actualNetwork l c) (l_cfg l))).
Proof.
  intros Hw Hd Hn. unfold autoconfig. rewrite Hd, Hw.
  rewrite (getNetwork_connected l c Hn). reflexivity.
Qed.

Lemma resolvedConfig_idem (n : gostring) (c : Config B) :
  resolvedConfig env n (resolvedConfig env n c) = resolvedConfig env n c.
Proof.
  unfold resolvedConfig. simpl.
  rewrite (Protocol_resolve_keep _ (isUnix n)
             (Protocol_resolve_not_auto (cfg_Protocol c) (isUnix n))).
  rewrite (BOMMode_resolve_keep _ (Protocol_resolve (cfg_Protocol c) (isUnix n))
             (BOMMode_resolve_not_auto (cfg_BOMMode c) _)).
  assert (Framing_resolve (Framing_resolve (cfg_Framing c) (needsFraming n))
                          (needsFraming n)
          = Framing_resolve (cfg_Framing c) (needsFraming n)) as ->.
  { destruct (needsFraming n) eqn:E; [|reflexivity].
    apply Framing_resolve_keep, Framing_resolve_not_auto. }
  f_equal.
  destruct (cfg_HostName c) as [|x h]; simpl; [|reflexivity].
  destruct (env_hostname env); reflexivity.
Qed.

End AutoconfigFacts.

(** X14. Autoconfiguration of a connected logger ([autoconfig], with
    [getNetwork], [isUnix] and [needsFraming]). It returns, and decides by
    the network the connection itself reports, falling back to the first
    target's network. Afterwards no setting is automatic any more. With
    protocol and BOM mode left automatic, a network whose name starts with
    unix gives the local legacy protocol without marker and any other the
    versioned protocol with marker. On unix, unixgram and udp the framing
    becomes none whatever was configured; elsewhere a configured framing is
    kept and the automatic one becomes the NUL delimiter. An empty host name
    is filled from the system, a set one is kept. Connection, targets,
    scratch buffer and backoff state are untouched, and running it again on
    the result changes nothing. *)
Theorem autoconfig_resolves {B : Type} `{BackoffPolicy B} (env : Env)
    (l : Logger B) (c : conn) :
  l_w l = Some c -> l_autoconfigDone l = false ->
  conn_localNetwork c <> None \/ l_connTargets l <> [] ->
  exists l',
    autoconfig env l = Ret l'
    /\ (forall n, conn_localNetwork c = Some n -> actualNetwork l c = n)
    /\ (forall t ts, conn_localNetwork c = None -> l_connTargets l = t :: ts ->
                     actualNetwork l c = Network t)
    /\ cfg_Protocol (l_cfg l') <> ProtocolAuto
    /\ cfg_Framing (l_cfg l') <> FramingAuto
    /\ cfg_BOMMode (l_cfg l') <> BOMModeAuto
    /\ (cfg_Protocol (l_cfg l) = ProtocolAuto ->
        cfg_BOMMode (l_cfg l) = BOMModeAuto ->
        if isUnix (actualNetwork l c)
        then cfg_Protocol (l_cfg l') = ProtocolV0Local
             /\ cfg_BOMMode (l_cfg l') = BOMModeNever
        else cfg_Protocol (l_cfg l') = ProtocolV1Net
             /\ cfg_BOMMode (l_cfg l') = BOMModeAlways)
    /\ (cfg_Protocol (l_cfg l) <> ProtocolAuto ->
        cfg_Protocol (l_cfg l') = cfg_Protocol (l_cfg l))
    /\ (cfg_BOMMode (l_cfg l) <> BOMModeAuto ->
        cfg_BOMMode (l_cfg l') = cfg_BOMMode (l_cfg l))
    /\ (In (actualNetwork l c) [str "unix"; str "unixgram"; str "udp"] ->
        cfg_Framing (l_cfg l') = FramingNone)
    /\ (~ In (actualNetwork l c) [str "unix"; str "unixgram"; str "udp"] ->
        cfg_Framing (l_cfg l')
        = if cfg_Framing (l_cfg l) =? FramingAuto then FramingDelimiterNUL
          else cfg_Framing (l_cfg l))
    /\ cfg_HostName (l_cfg l')
       = (if isEmpty (cfg_HostName (l_cfg l)) then env_hostname env
          else cfg_HostName (l_cfg l))
    /\ l_w l' = l_w l /\ l_connTargets l' = l_connTargets l
    /\ l_fmtr l' = l_fmtr l
    /\ l_reconnectStartTime l' = l_reconnectStartTime l
    /\ cfg_ConnectBackoff (l_cfg l') = cfg_ConnectBackoff (l_cfg l)
    /\ autoconfig env l' = Ret l'.
Proof.
  intros Hw Hd Hn.
  exists (set_cfg l (resolvedConfig env (actualNetwork l c) (l_cfg l))).
  split; [apply (autoconfig_connected env l c Hw Hd Hn)|].
  assert (needsFraming (actualNetwork l c) = false
          <-> In (actualNetwork l c) [str "unix"; str "unixgram"; str "udp"])
    as Hneed.
  { unfold needsFraming.
    destruct (gostring_eqb (actualNetwork l c) (str "unix")) eqn:E1;
      [apply gostring_eqb_eq in E1; simpl; split; [intros _; left; symmetry; exact E1|reflexivity]|].
    destruct (gostring_eqb (actualNetwork l c) (str "unixgram")) eqn:E2;
      [apply gostring_eqb_eq in E2; simpl; split;
       [intros _; right; left; symmetry; exact E2|reflexivity]|].
    destruct (gostring_eqb (actualNetwork l c) (str "udp")) eqn:E3;
      [apply gostring_eqb_eq in E3; simpl; split;
       [intros _; right; right; left; symmetry; exact E3|reflexivity]|].
    apply gostring_eqb_neq in E1, E2, E3. simpl. split; [discriminate|].
    intros [E|[E|[E|[]]]]; exfalso;
      [apply E1|apply E2|apply E3]; symmetry; exact E. }
  split.
  { intros n E. unfold actualNetwork. rewrite E. reflexivity. }
  split.
  { intros t ts E Et. unfold actualNetwork. rewrite E, Et. reflexivity. }
  split; [apply Protocol_resolve_not_auto|].
  split; [apply Framing_resolve_not_auto|].
  split; [apply BOMMode_resolve_not_auto|].
  split.
  { intros Ep Eb. cbn [set_cfg l_cfg resolvedConfig cfg_Protocol cfg_BOMMode].
    rewrite Ep, Eb. destruct (isUnix (actualNetwork l c)); split; reflexivity. }
  split; [intros Hp; apply Protocol_resolve_keep, Hp|].
  split; [intros Hb; apply BOMMode_resolve_keep, Hb|].
  split.
  { intros Hin. apply Hneed in Hin.
    cbn [set_cfg l_cfg resolvedConfig cfg_Framing]. rewrite Hin. reflexivity. }
  split.
  { intros Hin. cbn [set_cfg l_cfg resolvedConfig cfg_Framing].
    destruct (needsFraming (actualNetwork l c)) eqn:E.
    - reflexivity.
    - exfalso. apply Hin, Hneed. reflexivity. }
  split; [reflexivity|].
  split; [reflexivity|]. split; [reflexivity|]. split; [reflexivity|].
  split; [reflexivity|]. split; [reflexivity|].
  set (l1 := set_cfg l (resolvedConfig env (actualNetwork l c) (l_cfg l))).
  rewrite (autoconfig_connected env l1 c Hw Hd Hn).
  change (actualNetwork l1 c) with (actualNetwork l c).
  change (l_cfg l1) with (resolvedConfig env (actualNetwork l c) (l_cfg l)).
  rewrite resolvedConfig_idem. unfold l1, set_cfg. reflexivity.
Qed.

Lemma autoconfig_resolves_witness :
  exists l',
    autoconfig (sampleEnv never never)
               (set_w sampleLogger (Some (mkConn 0 (Some (str "tcp"))))) = Ret l'
    /\ cfg_Protocol (l_cfg l') = ProtocolV1Net
    /\ cfg_Framing (l_cfg l') = FramingDelimiterNUL
    /\ cfg_BOMMode (l_cfg l') = BOMModeAlways
    /\ cfg_HostName (l_cfg l') = str "HostName".
Proof.
  destruct (autoconfig_resolves (sampleEnv never never)
              (set_w sampleLogger (Some (mkConn 0 (Some (str "tcp")))))
              (mkConn 0 (Some (str "tcp"))) eq_refl eq_refl)
    as (l' & Hr & _ & _ & _ & _ & _ & Hauto & _ & _ & _ & Hfr & Hh & _).
  { left. discriminate. }
  exists l'. split; [exact Hr|].
  specialize (Hauto eq_refl eq_refl). cbn in Hauto. destruct Hauto as [Hp Hb].
  repeat split; try assumption.
  - rewrite Hfr; [reflexivity|].
    cbn. intros [E|[E|[E|[]]]]; discriminate E.
Defined.

(** ** What a sequence of calls can do to a logger in working order *)

Lemma formatBytes_sound (grow : nat -> nat -> nat) (fmtr : formatter)
    p f b pri ts host proc pid msgID body sd :
  usable fmtr -> knownProtocol p ->
  match formatBytes grow fmtr p f b pri ts host proc pid msgID body sd with
  | Ret r => usable (snd r)
  | Panic e => f = FramingLength /\ e = panicIndexOutOfRange
  | OutOfFuel => False
  end.
Proof.
  intros Hus Hp.
  destruct (formatText_total p pri ts (orHyphen host) (orHyphen proc) pid msgID
              body (orHyphen sd) (bomPfxOf b) (endCharOf f) Hp) as [text Ht].
  destruct (Z.eq_dec f FramingLength) as [->|Hf].
  - change (endCharOf FramingLength) with (@nil ascii) in Ht.
    pose proof (formatBytes_length_outcome grow fmtr p b pri ts host proc pid
                  msgID body sd text Hus Ht) as Ho.
    destruct (lenDigits 15 (Z.of_nat (length text))).
    + destruct Ho as (f' & -> & Hu). exact Hu.
    + rewrite Ho. split; reflexivity.
  - destruct (formatBytes_unframed grow fmtr p f b pri ts host proc pid
                msgID body sd text (proj1 Hus) Hf Ht) as (f' & -> & Hu).
    apply Hu, Hus.
Qed.

Section Robustness.

Context {B : Type} `{BackoffPolicy B}.
Variable env : Env.
Variable allowed : panic -> Prop.

Lemma formatTo_sound (fmtr : formatter) (w : conn)
    p f b pri ts host proc pid msgID body sd :
  usable fmtr -> knownProtocol p ->
  f <> FramingLength \/ allowed panicIndexOutOfRange ->
  holds allowed (fun r => usable (snd r))
        (formatTo env fmtr w p f b pri ts host proc pid msgID body sd).
Proof.
  intros Hus Hp Hf wd. unfold formatTo, bind, lift.
  pose proof (formatBytes_sound (env_grow env) fmtr p f b pri ts host proc pid
                msgID body sd Hus Hp) as Ho.
  destruct (formatBytes (env_grow env) fmtr p f b pri ts host proc pid
              msgID body sd) as [r|e|]; simpl.
  - exact Ho.
  - destruct Ho as [-> ->]. destruct Hf as [Hf|Hf]; [congruence | exact Hf].
  - exact Ho.
Qed.

Lemma settled_same (l l' : Logger B) :
  l_connTargets l' = l_connTargets l ->
  cfg_Protocol (l_cfg l') = cfg_Protocol (l_cfg l) ->
  cfg_Framing (l_cfg l') = cfg_Framing (l_cfg l) ->
  cfg_BOMMode (l_cfg l') = cfg_BOMMode (l_cfg l) ->
  cfg_DialFunc (l_cfg l') = cfg_DialFunc (l_cfg l) ->
  cfg_Network (l_cfg l') = cfg_Network (l_cfg l) ->
  cfg_Address (l_cfg l') = cfg_Address (l_cfg l) ->
  cfg_HostName (l_cfg l') = cfg_HostName (l_cfg l) ->
  cfg_ProcName (l_cfg l') = cfg_ProcName (l_cfg l) ->
  settled l l'.
Proof.
  intros Ht Hp Hf Hb Hd Hn Ha Hh Hpn. unfold settled.
  rewrite Ht, Hp, Hf, Hb, Hd, Hn, Ha, Hh, Hpn.
  split; [reflexivity|]. split; [reflexivity|]. split; [reflexivity|].
  split; [reflexivity|]. split; [reflexivity|].
  split; [reflexivity|]. split; [reflexivity|]. split; [reflexivity|].
  split; auto.
Qed.

Lemma settled_refl (l : Logger B) : settled l l.
Proof. apply settled_same; reflexivity. Qed.

Lemma settled_trans (l1 l2 l3 : Logger B) :
  settled l1 l2 -> settled l2 l3 -> settled l1 l3.
Proof.
  intros (A1 & A2 & A3 & A4 & A5 & A6 & A7 & A8 & A9 & A10)
         (B1 & B2 & B3 & B4 & B5 & B6 & B7 & B8 & B9 & B10).
  unfold settled.
  split; [congruence|]. split; [congruence|]. split; [congruence|].
  split; [congruence|]. split; [congruence|].
  split. { intros Hp. rewrite <- (A6 Hp). apply B6. rewrite (A6 Hp). exact Hp. }
  split. { intros Hb. rewrite <- (A7 Hb). apply B7. rewrite (A7 Hb). exact Hb. }
  split. { intros Hh. rewrite <- (A8 Hh). apply B8. rewrite (A8 Hh). exact Hh. }
  split. { intros Hf. apply B9, A9, Hf. }
  intros Hf. apply B10, A10, Hf.
Qed.

Lemma settled_length (l l' : Logger B) :
  settled l l' ->
  cfg_Framing (l_cfg l) <> FramingLength \/ allowed panicIndexOutOfRange ->
  cfg_Framing (l_cfg l') <> FramingLength \/ allowed panicIndexOutOfRange.
Proof.
  intros (_ & _ & _ & _ & _ & _ & _ & _ & _ & A10) [Hl|Ha];
    [left; apply A10, Hl | right; exact Ha].
Qed.

Lemma settled_resolved (l : Logger B) (n : gostring) :
  settled l (set_cfg l (resolvedConfig env n (l_cfg l))).
Proof.
  unfold settled.
  cbn [set_cfg l_cfg l_connTargets resolvedConfig cfg_Protocol cfg_Framing
       cfg_BOMMode cfg_HostName cfg_DialFunc cfg_ProcName cfg_Network
       cfg_Address].
  split; [reflexivity|]. split; [reflexivity|]. split; [reflexivity|].
  split; [reflexivity|]. split; [reflexivity|].
  split; [intros Hp; apply Protocol_resolve_keep, Hp|].
  split; [intros Hb; apply BOMMode_resolve_keep, Hb|].
  split. { intros Hh. destruct (cfg_HostName (l_cfg l)); [congruence | reflexivity]. }
  split; [intros ->; apply Framing_resolve_none|].
  intros Hf. apply Framing_resolve_not_length, Hf.
Qed.

Lemma getNewConn_outcome (l : Logger B) :
  l_connTargets l <> [] ->
  holds allowed
        (fun r => (exists c, r = (Some c, None)) \/ (exists e, r = (None, Some e)))
        (getNewConn env l).
Proof.
  intros Hne wd. unfold getNewConn.
  destruct (getNewConn_loop_run env l (l_connTargets l) None wd)
    as (k & r & Hrun & _ & Hr).
  rewrite Hrun. simpl.
  destruct Hr as [Hr | (fe & -> & Hfe & _)]; [left; exact Hr|].
  right. destruct fe as [e|]; [eauto|]. exfalso. exact (Hfe Hne eq_refl).
Qed.

Lemma sound_disconnect (l : Logger B) : sound l -> sound (set_w l None).
Proof.
  intros ((Hd & Hp & _) & Hus & Hts & _).
  split; [split; [exact Hd | split; [exact Hp | simpl; congruence]]|].
  split; [exact Hus|]. split; [exact Hts | simpl; congruence].
Qed.

Lemma ensureConn_sound (l : Logger B) :
  sound l ->
  holds allowed
        (fun r => sound (snd r) /\ settled l (snd r)
                  /\ (fst r = None -> l_w (snd r) <> None))
        (ensureConn env l).
Proof.
  intros Hs.
  unfold ensureConn. destruct (l_w l) as [c|] eqn:Hw.
  { apply holds_ret. split; [exact Hs|]. split; [apply settled_refl|].
    simpl. congruence. }
  assert (forall e : error,
             sound l /\ settled l l
             /\ (Some e = None -> l_w l <> None)) as Herr.
  { intros e. split; [exact Hs|]. split; [apply settled_refl | discriminate]. }
  destruct (l_closed l) eqn:Hc; [apply holds_ret; apply Herr|].
  apply (holds_bind allowed (fun _ => True)).
  { destruct (negb (IsZero (l_reconnectStartTime l))); intros wd; exact I. }
  intros waiting _. destruct waiting; [apply holds_ret; apply Herr|].
  apply (holds_bind allowed (fun _ => True)); [intros wd; exact I|].
  intros now _.
  destruct (NextDelay (cfg_ConnectBackoff (l_cfg l))) as [delay backoff].
  apply (holds_bind allowed (fun _ => True)); [apply holds_emit|].
  intros _ _.
  set (l1 := set_reconnectStartTime
               (set_cfg l (set_ConnectBackoff (l_cfg l) backoff))
               (Add now delay)).
  destruct Hs as ((Hd & Hp & Hk) & Hus & Hts & Hres).
  assert (forall w, settled l (set_w l1 w)) as T1
    by (intros w; apply settled_same; reflexivity).
  apply (holds_bind allowed _ _ _ _ (getNewConn_outcome l1 Hts)).
  intros r [[c ->] | [e ->]]; cbn [fst snd].
  - rewrite (autoconfig_connected env (set_w l1 (Some c)) c eq_refl Hd
               (or_intror Hts)).
    apply (holds_bind allowed
             (fun l' => l' = set_cfg (set_w l1 (Some c))
                             (resolvedConfig env
                                (actualNetwork (set_w l1 (Some c)) c)
                                (l_cfg (set_w l1 (Some c)))))).
    { apply holds_lift. reflexivity. }
    intros l' ->. apply holds_ret. cbn [fst snd].
    split; [|split].
    + split; [split; [exact Hd|]|].
      * split; [right|intros _]; apply Protocol_resolve_known, Hp.
      * split; [exact Hus|]. split; [exact Hts|]. intros _.
        split; [apply Framing_resolve_not_auto | apply BOMMode_resolve_not_auto].
    + apply (settled_trans l (set_w l1 (Some c))); [apply T1|].
      apply settled_resolved.
    + intros _. discriminate.
  - apply holds_ret. cbn [fst snd].
    split; [|split; [apply T1 | discriminate]].
    split; [split; [exact Hd | split; [exact Hp | simpl; congruence]]|].
    split; [exact Hus|]. split; [exact Hts | simpl; congruence].
Qed.

Lemma Write_loop_sound (msg : Message) (pri : Z) (ts : Time) (fuel : nat) :
  forall (i : Z) (l : Logger B),
    0 <= i ->
    (0 < i /\ (1 <= fuel)%nat) \/ (2 <= fuel)%nat ->
    sound l -> l_w l <> None ->
    cfg_Framing (l_cfg l) <> FramingLength \/ allowed panicIndexOutOfRange ->
    holds allowed (fun r => sound (snd r) /\ settled l (snd r))
          (Write_loop env fuel i l msg pri ts).
Proof.
  induction fuel as [|fuel IH]; intros i l Hi Hfuel Hs Hconn Hlen; [lia|].
  cbn [Write_loop]. destruct (l_w l) as [w|] eqn:Hw; [|congruence].
  destruct Hs as ((Hd & Hp & Hk) & Hus & Hts & Hres).
  apply (holds_bind allowed (fun r => usable (snd r))).
  { apply formatTo_sound; [exact Hus | apply Hk; congruence | exact Hlen]. }
  intros r Hur. set (l2 := set_fmtr l (snd r)).
  assert (sound l2) as S2.
  { split; [split; [exact Hd | split; [exact Hp | exact Hk]]|].
    split; [exact Hur|]. split; [exact Hts | exact Hres]. }
  assert (settled l l2) as T2 by (apply settled_same; reflexivity).
  destruct (fst r) as [err|].
  - destruct (0 <? i) eqn:Hpos.
    + apply (holds_bind allowed _ _ _ _ (destroyConn_holds allowed l2)).
      intros l3 ->. apply holds_ret. cbn [snd].
      split; [apply sound_disconnect, S2 | apply settled_same; reflexivity].
    + apply Z.ltb_ge in Hpos.
      apply (holds_bind allowed _ _ _ _ (destroyConn_holds allowed l2)).
      intros l3 ->.
      apply (holds_bind allowed _ _ _ _
               (ensureConn_sound (set_w l2 None) (sound_disconnect l2 S2))).
      intros r2 (S3 & T3 & C3).
      assert (settled l (snd r2)) as T3'.
      { apply (settled_trans l (set_w l2 None));
          [apply settled_same; reflexivity | exact T3]. }
      destruct (fst r2) as [e2|] eqn:E2.
      * apply holds_ret. cbn [snd]. split; assumption.
      * eapply holds_weaken.
        -- apply IH; [lia | left; lia | exact S3 | apply C3; reflexivity |].
           apply (settled_length l (snd r2) T3' Hlen).
        -- intros a [Sa Ta]. split; [exact Sa|].
           apply (settled_trans l (snd r2)); assumption.
  - apply (holds_bind allowed (fun _ => True)); [apply holds_emit|].
    intros _ _. apply holds_ret. cbn [snd].
    split; [|apply settled_same; reflexivity].
    split; [split; [exact Hd | split; [exact Hp | exact Hk]]|].
    split; [exact Hur|]. split; [exact Hts | exact Hres].
Qed.

Lemma Write_sound (l : Logger B) (msg : Message) :
  sound l ->
  cfg_Framing (l_cfg l) <> FramingLength \/ allowed panicIndexOutOfRange ->
  holds allowed (fun r => sound (snd r) /\ settled l (snd r)) (Write env l msg).
Proof.
  intros Hs Hlen. unfold Write.
  apply (holds_bind allowed _ _ _ _ (ensureConn_sound l Hs)).
  intros r (S1 & T1 & C1). destruct (fst r) as [err|] eqn:E.
  - apply holds_ret. split; assumption.
  - apply (holds_bind allowed (fun _ => True)).
    { destruct (IsZero (m_Time msg)); intros wd; exact I. }
    intros timestamp _. eapply holds_weaken.
    + apply (Write_loop_sound msg _ timestamp 2 0 (snd r));
        [lia | right; lia | exact S1 | apply C1; reflexivity |].
      apply (settled_length l (snd r) T1 Hlen).
    + intros a [Sa Ta]. split; [exact Sa|].
      apply (settled_trans l (snd r)); assumption.
Qed.

Lemma step_sound (l : Logger B) (o : op) :
  sound l ->
  cfg_Framing (l_cfg l) <> FramingLength \/ allowed panicIndexOutOfRange ->
  holds allowed (fun r => sound (snd r) /\ settled l (snd r)) (step env l o).
Proof.
  intros Hs Hlen. destruct o as [msg|]; simpl.
  - apply Write_sound; assumption.
  - eapply holds_weaken; [apply Close_holds|].
    intros a [_ ->].
    split; [|apply settled_same; reflexivity].
    destruct Hs as ((Hd & Hp & _) & Hus & Hts & _).
    split; [split; [exact Hd | split; [exact Hp | simpl; congruence]]|].
    split; [exact Hus|]. split; [exact Hts | simpl; congruence].
Qed.

Lemma runOps_sound (ops : list op) :
  forall (l : Logger B),
    sound l ->
    cfg_Framing (l_cfg l) <> FramingLength \/ allowed panicIndexOutOfRange ->
    holds allowed
          (fun rs => sound (snd rs) /\ settled l (snd rs)
                     /\ length (fst rs) = length ops)
          (runOps env l ops).
Proof.
  induction ops as [|o ops IH]; intros l Hs Hlen; cbn [runOps].
  - apply holds_ret. split; [exact Hs|]. split; [apply settled_refl | reflexivity].
  - apply (holds_bind allowed _ _ _ _ (step_sound l o Hs Hlen)).
    intros r [S1 T1].
    apply (holds_bind allowed _ _ _ _
             (IH (snd r) S1 (settled_length l (snd r) T1 Hlen))).
    intros rs (S2 & T2 & L2). apply holds_ret. cbn [fst snd].
    split; [exact S2|]. split; [apply (settled_trans l (snd r)); assumption|].
    simpl. rewrite L2. reflexivity.
Qed.

End Robustness.

Lemma New_sound {B : Type} `{BackoffPolicy B} (env : Env) (cfg : Config B)
    (l0 : Logger B) :
  definedProtocol (cfg_Protocol cfg) -> New env cfg = (Some l0, None) ->
  sound l0 /\ l_cfg l0 = cfg /\ l_w l0 = None.
Proof.
  intros Hp Hnew.
  pose proof (determineConnTargets_nonempty env (cfg_Network cfg)
                (cfg_Address cfg)) as Hiff.
  unfold New in Hnew.
  destruct (determineConnTargets env (cfg_Network cfg) (cfg_Address cfg))
    as [targets [e|]]; [discriminate|].
  injection Hnew as <-. simpl in Hiff.
  split; [|split; reflexivity].
  split; [split; [reflexivity | split; [exact Hp | simpl; congruence]]|].
  split; [split; [apply Nat.le_refl | reflexivity]|].
  split; [apply Hiff; reflexivity | simpl; congruence].
Qed.

(** X15. A logger made by [New] from a configuration whose protocol is one
    of the four defined values, under any sequence of [Write] and [Close]
    calls, with a dialer that returns a connection or an error: every call
    returns and gives its answer (one per call), unless length framing is
    configured and a call stops on the index failure of the loop that
    writes the length digits. No call ends in a nil dereference, a
    slice-bounds failure or the unknown-protocol panic, and the loop of
    [Write] never needs a third pass. *)
Theorem calls_return_or_length_overflow {B : Type} `{BackoffPolicy B}
    (env : Env) (cfg : Config B) (l0 : Logger B) :
  definedProtocol (cfg_Protocol cfg) ->
  New env cfg = (Some l0, None) ->
  forall ops wd,
    match fst (runOps env l0 ops wd) with
    | Ret (rs, l) => length rs = length ops
    | Panic e => e = panicIndexOutOfRange /\ cfg_Framing cfg = FramingLength
    | OutOfFuel => False
    end.
Proof.
  intros Hp Hnew ops wd.
  destruct (New_sound env cfg l0 Hp Hnew) as (Hs & Hcfg & _).
  set (allowed := fun e : panic =>
                    e = panicIndexOutOfRange /\ cfg_Framing cfg = FramingLength).
  assert (cfg_Framing (l_cfg l0) <> FramingLength
          \/ allowed panicIndexOutOfRange) as Hlen.
  { rewrite Hcfg. destruct (Z.eq_dec (cfg_Framing cfg) FramingLength) as [E|E];
      [right; split; [reflexivity | exact E] | left; exact E]. }
  pose proof (runOps_sound env allowed ops l0 Hs Hlen wd) as Hh.
  destruct (fst (runOps env l0 ops wd)) as [[rs l]|e|].
  - apply Hh.
  - exact Hh.
  - exact Hh.
Qed.

Lemma calls_return_or_length_overflow_witness :
  match fst (runOps (sampleEnv never always) sampleLogger
                    [OpWrite sampleMessage; OpClose; OpWrite sampleMessage]
                    world0) with
  | Ret (rs, l) =>
      length rs = length [OpWrite sampleMessage; OpClose; OpWrite sampleMessage]
  | Panic e => e = panicIndexOutOfRange
               /\ cfg_Framing (sampleConfig [] []) = FramingLength
  | OutOfFuel => False
  end.
Proof.
  assert (definedProtocol (cfg_Protocol (sampleConfig [] []))) as Hp
    by (left; reflexivity).
  pose proof (calls_return_or_length_overflow (sampleEnv never always)
                (sampleConfig [] []) sampleLogger Hp
                (New_sample (sampleEnv never always))
                [OpWrite sampleMessage; OpClose; OpWrite sampleMessage] world0)
    as Hrun.
  exact Hrun.
Defined.

(** X16. What a sequence of [Write] and [Close] calls leaves of the
    configuration of a logger made by [New]. The targets, the dial
    function, the process name and the requested network and address are
    never changed. A protocol, a BOM mode and a host name that were
    configured are never replaced; only automatic and empty ones are filled
    in, on connecting. The framing is the one setting recomputed on every
    reconnect: length framing is never introduced, and a framing of none
    stays none, also on a later transport that needs framing. Whenever the
    logger holds a connection, protocol, framing and BOM mode are concrete,
    and the scratch buffer stays usable throughout. *)
Theorem settings_settle {B : Type} `{BackoffPolicy B}
    (env : Env) (cfg : Config B) (l0 : Logger B) :
  definedProtocol (cfg_Protocol cfg) ->
  New env cfg = (Some l0, None) ->
  forall ops wd,
    match fst (runOps env l0 ops wd) with
    | Ret (rs, l) =>
        l_connTargets l = l_connTargets l0
        /\ cfg_DialFunc (l_cfg l) = cfg_DialFunc cfg
        /\ cfg_ProcName (l_cfg l) = cfg_ProcName cfg
        /\ cfg_Network (l_cfg l) = cfg_Network cfg
        /\ cfg_Address (l_cfg l) = cfg_Address cfg
        /\ (cfg_Protocol cfg <> ProtocolAuto ->
            cfg_Protocol (l_cfg l) = cfg_Protocol cfg)
        /\ (cfg_BOMMode cfg <> BOMModeAuto ->
            cfg_BOMMode (l_cfg l) = cfg_BOMMode cfg)
        /\ (cfg_HostName cfg <> [] ->
            cfg_HostName (l_cfg l) = cfg_HostName cfg)
        /\ (cfg_Framing cfg = FramingNone ->
            cfg_Framing (l_cfg l) = FramingNone)
        /\ (cfg_Framing cfg <> FramingLength ->
            cfg_Framing (l_cfg l) <> FramingLength)
        /\ (l_w l <> None ->
            knownProtocol (cfg_Protocol (l_cfg l))
            /\ cfg_Framing (l_cfg l) <> FramingAuto
            /\ cfg_BOMMode (l_cfg l) <> BOMModeAuto)
        /\ usable (l_fmtr l)
    | _ => True
    end.
Proof.
  intros Hp Hnew ops wd.
  destruct (New_sound env cfg l0 Hp Hnew) as (Hs & Hcfg & _).
  pose proof (runOps_sound env anyPanic ops l0 Hs (or_intror I) wd) as Hh.
  destruct (fst (runOps env l0 ops wd)) as [[rs l]|e|]; [|exact I|exact I].
  cbn [snd] in Hh.
  destruct Hh as (((_ & _ & Hk) & Hus & _ & Hres) & Hset & _).
  unfold settled in Hset. rewrite Hcfg in Hset.
  destruct Hset as (A1 & A2 & A3 & A4 & A5 & A6 & A7 & A8 & A9 & A10).
  repeat (split; [assumption|]).
  split; [|exact Hus].
  intros Hw. split; [apply Hk, Hw | apply Hres, Hw].
Qed.

Lemma settings_settle_witness :
  match fst (runOps (sampleEnv never never) sampleLogger
                    [OpWrite sampleMessage] world0) with
  | Ret (rs, l) =>
      l_connTargets l = l_connTargets sampleLogger
      /\ cfg_ProcName (l_cfg l) = str "ProcName"
      /\ cfg_Framing (l_cfg l) <> FramingLength
      /\ (l_w l <> None -> knownProtocol (cfg_Protocol (l_cfg l)))
  | _ => True
  end.
Proof.
  assert (definedProtocol (cfg_Protocol (sampleConfig [] []))) as Hp
    by (left; reflexivity).
  pose proof (settings_settle (sampleEnv never never) (sampleConfig [] [])
                sampleLogger Hp (New_sample (sampleEnv never never))
                [OpWrite sampleMessage] world0) as Hh.
  destruct (fst (runOps (sampleEnv never never) sampleLogger
                        [OpWrite sampleMessage] world0)) as [[rs l]|e|];
    [|exact I|exact I].
  destruct Hh as (A1 & _ & A3 & _ & _ & _ & _ & _ & _ & A10 & A11 & _).
  split; [exact A1|]. split; [exact A3|].
  split; [apply A10; discriminate|].
  intros Hw. apply A11, Hw.
Defined.

(** X17. A logger without any target (one not made by [New]), disconnected,
    not closed and outside the backoff window. [getNewConn] returns neither
    a connection nor an error, without dialling; [ensureConn] takes that
    for success and autoconfigures, and the look-up of the first target's
    network stops [ensureConn], and [Write] with it, on an index failure.
    By then the policy has been asked for its next delay; nothing was
    dialled or written. *)
Theorem no_target_no_error {B : Type} `{BackoffPolicy B} (env : Env)
    (l : Logger B) (msg : Message) (wd : World) :
  l_connTargets l = [] -> l_w l = None -> l_closed l = false ->
  l_autoconfigDone l = false -> windowPassed env l wd ->
  getNewConn env l wd = (Ret (None, None), wd)
  /\ ensureConn env l wd = (Panic panicIndexOutOfRange, advancedWorld l wd)
  /\ Write env l msg wd = (Panic panicIndexOutOfRange, advancedWorld l wd)
  /\ w_trace (advancedWorld l wd)
     = w_trace wd ++ [EvNextDelay (fst (NextDelay (cfg_ConnectBackoff (l_cfg l))))]
  /\ w_dials (advancedWorld l wd) = w_dials wd
  /\ w_writes (advancedWorld l wd) = w_writes wd.
Proof.
  intros Hts Hw Hc Hd Hpass.
  assert (ensureConn env l wd
          = (Panic panicIndexOutOfRange, advancedWorld l wd)) as He.
  { rewrite (ensureConn_dial env l wd Hw Hc Hpass).
    unfold getNewConn.
    change (l_connTargets (advanced env l wd)) with (l_connTargets l).
    rewrite Hts. cbn [getNewConn_loop]. unfold bind at 1. unfold ret at 1.
    cbn [fst snd]. unfold bind, lift, autoconfig.
    change (l_autoconfigDone (set_w (advanced env l wd) None))
      with (l_autoconfigDone l).
    rewrite Hd. unfold getNetwork.
    change (l_w (set_w (advanced env l wd) None)) with (@None conn).
    change (l_connTargets (set_w (advanced env l wd) None))
      with (l_connTargets l).
    rewrite Hts. reflexivity. }
  split.
  { unfold getNewConn. rewrite Hts. reflexivity. }
  split; [exact He|]. split.
  { unfold Write, bind. rewrite He. reflexivity. }
  unfold advancedWorld, windowClock, afterEvent, afterClock.
  destruct (IsZero (l_reconnectStartTime l)); repeat split.
Qed.

Lemma no_target_no_error_witness :
  let l := mkLogger (sampleConfig [] []) None [] false zeroTime false
                    (formatter_init zeroFormatter) in
  Write (sampleEnv never never) l sampleMessage world0
  = (Panic panicIndexOutOfRange, mkWorld 1 0 0 [EvNextDelay 1000000000]).
Proof.
  intros l.
  assert (windowPassed (sampleEnv never never) l world0) as Hpass
    by (left; reflexivity).
  destruct (no_target_no_error (sampleEnv never never) l sampleMessage world0
              eq_refl eq_refl eq_refl eq_refl Hpass)
    as (_ & _ & Hwrite & _).
  exact Hwrite.
Defined.

(** ** Connecting on the first candidate *)

Lemma ensureConn_first_success {B : Type} `{BackoffPolicy B} (env : Env)
    (l : Logger B) (wd : World) (t0 : connTarget) (c : conn) :
  l_w l = None -> l_closed l = false -> l_autoconfigDone l = false ->
  windowPassed env l wd ->
  head (l_connTargets l) = Some t0 -> dialResult env l wd 0 t0 = inl c ->
  ensureConn env l wd
  = (Ret (None, connectedTo env l wd c), afterDials l [t0] (advancedWorld l wd)).
Proof.
  intros Hw Hc Hd Hpass Hhd Hdial.
  assert (l_connTargets l <> []) as Hts
    by (destruct (l_connTargets l); [discriminate | congruence]).
  rewrite (ensureConn_dial env l wd Hw Hc Hpass). unfold getNewConn.
  change (l_connTargets (advanced env l wd)) with (l_connTargets l).
  rewrite (bind_Ret _ _ _ _ _
             (getNewConn_loop_success env (advanced env l wd) (l_connTargets l)
                0 t0 c None (advancedWorld l wd)
                ltac:(destruct (l_connTargets l); [discriminate|exact Hhd])
                ltac:(rewrite dialResult_advanced; exact Hdial)
                ltac:(intros i t' Hi; lia))).
  cbn [fst snd].
  rewrite (autoconfig_connected env (set_w (advanced env l wd) (Some c)) c
             eq_refl Hd (or_intror Hts)).
  unfold bind, lift, ret. f_equal.
  destruct (l_connTargets l) as [|t ts]; [discriminate|].
  injection Hhd as ->. reflexivity.
Qed.

(** X18. [Write] on a disconnected logger that is not closed and outside
    the backoff window, when the first candidate can be dialled and the
    transport write succeeds. In this order: the policy is asked for its
    next delay, the first candidate and no other is dialled, the settings
    are resolved for the new connection, the time stamp of a message
    without one is read from the clock only now, the message is written in
    one write, and the policy is reset. The logger keeps the connection;
    its not-before time stays at the time of the attempt plus the delay,
    although the attempt succeeded. *)
Theorem Write_connects_first {B : Type} `{BackoffPolicy B} (env : Env)
    (l : Logger B) (msg : Message) (wd : World) (t0 : connTarget) (c : conn) :
  l_w l = None -> l_closed l = false -> l_autoconfigDone l = false ->
  windowPassed env l wd ->
  head (l_connTargets l) = Some t0 -> dialResult env l wd 0 t0 = inl c ->
  let next := NextDelay (cfg_ConnectBackoff (l_cfg l)) in
  let l1 := connectedTo env l wd c in
  let wd1 := afterDials l [t0] (advancedWorld l wd) in
  let ts := if IsZero (m_Time msg) then env_now env (w_clock wd1)
            else m_Time msg in
  forall data f1,
    formatFor env l1 msg ts = Ret (data, f1) ->
    env_write env (w_writes wd) c data = None ->
    exists l' wd',
      Write env l msg wd = (Ret (None, l'), wd')
      /\ w_trace wd'
         = w_trace wd ++ [EvNextDelay (fst next); dialEvent l t0;
                          EvWrite c data; EvReset]
      /\ w_dials wd' = S (w_dials wd) /\ w_writes wd' = S (w_writes wd)
      /\ l_w l' = Some c
      /\ l_cfg l' = set_ConnectBackoff (l_cfg l1) (Reset (snd next))
      /\ l_reconnectStartTime l'
         = Add (env_now env (w_clock (windowClock l wd))) (fst next)
      /\ l_fmtr l' = f1.
Proof.
  intros Hw Hc Hd Hpass Hhd Hdial next l1 wd1 ts data f1 Hf Hwr.
  pose proof (ensureConn_first_success env l wd t0 c Hw Hc Hd Hpass Hhd Hdial)
    as He.
  fold l1 wd1 in He.
  set (wd2 := if IsZero (m_Time msg) then afterClock wd1 else wd1).
  assert (w_writes wd2 = w_writes wd) as Hwrites.
  { unfold wd2, wd1, afterDials, advancedWorld, windowClock, afterEvent,
      afterClock.
    destruct (IsZero (m_Time msg)), (IsZero (l_reconnectStartTime l));
      reflexivity. }
  assert (Write env l msg wd
          = (Ret (None, resetBackoff (set_fmtr l1 f1)),
             afterEvent (afterWrite wd2 c data) EvReset)) as Hrun.
  { unfold Write. rewrite (bind_Ret _ _ _ _ _ He). cbn [fst snd].
    assert ((if IsZero (m_Time msg) then timeNow env else ret (m_Time msg)) wd1
            = (Ret ts, wd2)) as Hts.
    { unfold ts, wd2. destruct (IsZero (m_Time msg)); reflexivity. }
    rewrite (bind_Ret _ _ _ _ _ Hts).
    apply (Write_loop_success env l1 msg ts 1 0 wd2 c data f1);
      [reflexivity | exact Hf | rewrite Hwrites; exact Hwr]. }
  eexists. eexists. split; [exact Hrun|].
  split.
  { unfold wd2, wd1, afterDials, advancedWorld, windowClock, afterEvent,
      afterWrite, afterClock, next.
    destruct (IsZero (m_Time msg)), (IsZero (l_reconnectStartTime l));
      cbn; rewrite <- !app_assoc; reflexivity. }
  split.
  { unfold wd2, wd1, afterDials, advancedWorld, windowClock, afterEvent,
      afterWrite, afterClock.
    destruct (IsZero (m_Time msg)), (IsZero (l_reconnectStartTime l));
      cbn; lia. }
  split.
  { cbn [afterEvent afterWrite w_writes]. rewrite Hwrites. reflexivity. }
  split; [reflexivity|]. split; [reflexivity|]. split; reflexivity.
Qed.

Lemma Write_connects_first_witness :
  exists l' wd',
    Write (sampleEnv never never) sampleLogger sampleMessage world0
    = (Ret (None, l'), wd')
    /\ w_trace wd'
       = [EvNextDelay 1000000000;
          EvDial false (str "unixgram") (str "/dev/log");
          EvWrite (mkConn 0 None)
                  (str "<36>Oct 11 07:25:00 ProcName[12345]: MsgID MsgBody");
          EvReset]
    /\ l_reconnectStartTime l' = Add refTime 1000000000.
Proof.
  assert (windowPassed (sampleEnv never never) sampleLogger world0) as Hpass
    by (left; reflexivity).
  destruct (Write_connects_first (sampleEnv never never) sampleLogger
              sampleMessage world0
              (mkTarget (str "unixgram") (str "/dev/log")) (mkConn 0 None)
              eq_refl eq_refl eq_refl Hpass eq_refl eq_refl
              (str "<36>Oct 11 07:25:00 ProcName[12345]: MsgID MsgBody")
              (formatter_init zeroFormatter))
    as (l' & wd' & Hrun & Htrace & _ & _ & _ & _ & Hrst & _).
  - vm_compute. reflexivity.
  - reflexivity.
  - exists l', wd'. split; [exact Hrun|]. split; [exact Htrace | exact Hrst].
Defined.

(** ** The priority in front of every message *)

Lemma fmtUint_aux_spec (fuel : nat) :
  forall (n : Z) (acc : gostring),
    0 <= n < 2 ^ Z.of_nat fuel -> (1 <= fuel)%nat ->
    exists ds,
      fmtUint_aux fuel n acc = ds ++ acc
      /\ ds <> []
      /\ forallb isDigit ds = true
      /\ decimalFold ds = n
      /\ (hd_error ds = Some "0"%char -> n = 0).
Proof.
  induction fuel as [|k IH]; intros n acc Hn Hfuel; [lia|].
  cbn [fmtUint_aux].
  assert (0 <= n mod 10 < 10) as Hm by (apply Z.mod_pos_bound; lia).
  destruct (digit_byte (n mod 10) Hm) as [Hval Hdig].
  destruct (Z.eqb_spec (n / 10) 0) as [Hq|Hq].
  - assert (n mod 10 = n) as Hsmall.
    { pose proof (Z.div_mod n 10 ltac:(lia)). lia. }
    exists [digitChar (n mod 10)]. split; [reflexivity|].
    split; [discriminate|]. split; [simpl; unfold digitChar; rewrite Hdig; reflexivity|].
    split.
    + unfold decimalFold. simpl. unfold digitChar. rewrite Hval. lia.
    + simpl. intros E. injection E as E.
      assert (Z_of_byte (digitChar (n mod 10)) = Z_of_byte "0"%char) as E'
        by (rewrite E; reflexivity).
      unfold digitChar in E'. rewrite Hval in E'. change (Z_of_byte "0") with 48 in E'.
      lia.
  - assert (0 < n / 10) as Hpos.
    { assert (0 <= n / 10) by (apply Z.div_pos; lia). lia. }
    assert (10 <= n) as Hten.
    { destruct (Z_lt_le_dec n 10) as [Hlt|Hge]; [|exact Hge].
      rewrite Z.div_small in Hpos by lia. lia. }
    assert (1 <= k)%nat as Hk.
    { destruct k; [|lia]. simpl in Hn. lia. }
    assert (n / 10 < 2 ^ Z.of_nat k) as Hlt.
    { apply Z.div_lt_upper_bound; [lia|].
      replace (Z.of_nat (S k)) with (Z.of_nat k + 1) in Hn by lia.
      rewrite Z.pow_add_r in Hn by lia. change (2 ^ 1) with 2 in Hn.
      assert (0 < 2 ^ Z.of_nat k) by (apply Z.pow_pos_nonneg; lia). lia. }
    destruct (IH (n / 10) (digitChar (n mod 10) :: acc) ltac:(lia) Hk)
      as (ds & Hrun & Hne & Hall & Hfold & Hhd).
    exists (ds ++ [digitChar (n mod 10)]). split.
    { rewrite Hrun, <- app_assoc. reflexivity. }
    split; [destruct ds; discriminate|].
    split.
    { rewrite forallb_app, Hall. simpl. unfold digitChar. rewrite Hdig.
      reflexivity. }
    split.
    { rewrite decimalFold_snoc, Hfold. unfold digitChar. rewrite Hval.
      pose proof (Z.div_mod n 10 ltac:(lia)). lia. }
    intros E. destruct ds as [|d ds]; [congruence|].
    simpl in E. specialize (Hhd E). lia.
Qed.

Lemma fmtInt_decodes (n : Z) :
  0 <= n ->
  decimalValue (fmtInt n) = Some n
  /\ (hd_error (fmtInt n) = Some "0"%char -> n = 0).
Proof.
  intros Hn. unfold fmtInt.
  replace (n <? 0) with false by (symmetry; apply Z.ltb_ge; exact Hn).
  unfold fmtUint.
  assert (n < 2 ^ Z.of_nat (S (Z.to_nat (Z.log2 n)))) as Hlt.
  { rewrite Nat2Z.inj_succ, Z2Nat.id by apply Z.log2_nonneg.
    destruct (Z.eq_dec n 0) as [->|Hne]; [reflexivity|].
    apply Z.log2_spec. lia. }
  destruct (fmtUint_aux_spec (S (Z.to_nat (Z.log2 n))) n [] (conj Hn Hlt)
              ltac:(lia)) as (ds & Hrun & Hne & Hall & Hfold & Hhd).
  rewrite Hrun, app_nil_r. split; [|exact Hhd].
  unfold decimalValue. destruct ds as [|d ds]; [congruence|].
  cbn [isEmpty]. rewrite Hall, Hfold. reflexivity.
Qed.

Lemma formatText_header (p : Protocol) pri ts host proc pid msgID body sd pfx e text :
  formatText p pri ts host proc pid msgID body sd pfx e = Ret text ->
  exists rest, text = str "<" ++ fmtInt pri ++ str ">" ++ rest.
Proof.
  unfold formatText.
  destruct (p =? ProtocolV0Local);
    [intros E; injection E as <-; eexists; reflexivity|].
  destruct (p =? ProtocolV0Net);
    [intros E; injection E as <-; eexists; reflexivity|].
  destruct (p =? ProtocolV1Net); [|discriminate].
  intros E; injection E as <-.
  exists (str "1 " ++ FormatRFC3339Nano ts ++ str " " ++ host ++ str " " ++ proc
            ++ str " " ++ fmtInt pid ++ str " " ++ orHyphen msgID ++ str " "
            ++ sd ++ str " " ++ pfx ++ body ++ e).
  reflexivity.
Qed.

(** X19. Whatever [formatTo] writes starts (after the decimal count and
    the space under length framing) with ["<"], the priority in decimal
    and [">"]. The digits have no sign and no leading zero, and they read
    back as the value of [makePri]: its remainder by 8 is the severity's
    low three bits and its quotient by 8 the facility's low five bits, so
    a severity in 0..7 and a facility in 0..23 are recovered from the
    written bytes. *)
Theorem priority_header_decodes (grow : nat -> nat -> nat) (fmtr : formatter)
    (p : Protocol) (f : Framing) (b : BOMMode) (s : Severity) (fa : Facility)
    ts host proc pid msgID body sd out :
  usable fmtr ->
  written (formatBytes grow fmtr p f b (makePri s fa) ts host proc pid
                       msgID body sd) = Some out ->
  exists pre ds rest,
    out = pre ++ str "<" ++ ds ++ str ">" ++ rest
    /\ (f <> FramingLength -> pre = [])
    /\ decimalValue ds = Some (makePri s fa)
    /\ (hd_error ds = Some "0"%char -> makePri s fa = 0)
    /\ makePri s fa mod 8 = s mod 8
    /\ makePri s fa / 8 = fa mod 32.
Proof.
  intros Hus Hout.
  rewrite (written_closed_form grow fmtr p f b (makePri s fa) ts host proc pid
             msgID body sd Hus) in Hout.
  destruct (formatText p (makePri s fa) ts (orHyphen host) (orHyphen proc) pid
              msgID body (orHyphen sd) (bomPfxOf b) (endCharOf f))
    as [msg|e|] eqn:Ht; [|discriminate|discriminate].
  destruct (formatText_header _ _ _ _ _ _ _ _ _ _ _ _ Ht) as [rest Hmsg].
  pose proof (makePri_general s fa) as Hgen.
  assert (0 <= s mod 8 < 8) as Hs by (apply Z.mod_pos_bound; lia).
  assert (0 <= fa mod 32 < 32) as Hf by (apply Z.mod_pos_bound; lia).
  destruct (fmtInt_decodes (makePri s fa) ltac:(lia)) as [Hdec Hhd].
  assert (makePri s fa mod 8 = s mod 8 /\ makePri s fa / 8 = fa mod 32)
    as [Hmod Hdiv].
  { rewrite Hgen.
    replace (s mod 8 + 8 * (fa mod 32)) with (s mod 8 + fa mod 32 * 8) by lia.
    split.
    - rewrite Z.mod_add by lia. apply Z.mod_small. exact Hs.
    - rewrite Z.div_add by lia. rewrite Z.div_small by exact Hs. lia. }
  destruct (Z.eqb_spec f FramingLength) as [Hfl|Hfl].
  - destruct (lenDigits 15 (Z.of_nat (length msg))) as [cs|]; [|discriminate].
    injection Hout as <-.
    exists (cs ++ str " "), (fmtInt (makePri s fa)), rest.
    split; [rewrite Hmsg, <- !app_assoc; reflexivity|].
    split; [intros Hne; contradiction|].
    repeat split; assumption.
  - injection Hout as <-.
    exists [], (fmtInt (makePri s fa)), rest.
    split; [exact Hmsg|]. split; [reflexivity|].
    repeat split; assumption.
Qed.

Lemma priority_header_decodes_witness :
  exists pre ds rest,
    str "<36>Oct 11 07:25:00 ProcName[12345]: MsgID MsgBody"
    = pre ++ str "<" ++ ds ++ str ">" ++ rest
    /\ decimalValue ds = Some (makePri SeverityWarning FacilityAuth)
    /\ makePri SeverityWarning FacilityAuth mod 8 = SeverityWarning
    /\ makePri SeverityWarning FacilityAuth / 8 = FacilityAuth.
Proof.
  destruct (priority_header_decodes (fun _ _ => 0%nat)
              (formatter_init zeroFormatter) ProtocolV0Local FramingNone
              BOMModeNever SeverityWarning FacilityAuth refTime
              (str "HostName") (str "ProcName") 12345 (str "MsgID")
              (str "MsgBody") (str "SD")
              (str "<36>Oct 11 07:25:00 ProcName[12345]: MsgID MsgBody"))
    as (pre & ds & rest & Hout & _ & Hdec & _ & Hmod & Hdiv).
  - split; [apply Nat.le_refl | reflexivity].
  - vm_compute. reflexivity.
  - exists pre, ds, rest. split; [exact Hout|]. split; [exact Hdec|].
    split; [exact Hmod | exact Hdiv].
Defined.

(** ** A configured dial function replaces the default dialer *)

Lemma bind_ext {A C} (m m' : M A) (k k' : A -> M C) (wd : World) :
  m wd = m' wd ->
  (forall a wd1, m' wd = (Ret a, wd1) -> k a wd1 = k' a wd1) ->
  bind m k wd = bind m' k' wd.
Proof.
  intros Hm Hk. unfold bind. rewrite Hm.
  destruct (m' wd) as [[a|e|] wd1]; [apply Hk; reflexivity | reflexivity..].
Qed.

Section CustomDialer.

Context {B : Type} `{BackoffPolicy B}.
Variable env : Env.
Variable d' : dialFunc.

Lemma getNewConn_loop_custom (l : Logger B) (targets : list connTarget) :
  cfg_DialFunc (l_cfg l) <> None ->
  forall fe wd,
    getNewConn_loop (withNetDial env d') l targets fe wd
    = getNewConn_loop env l targets fe wd.
Proof.
  intros Hd. induction targets as [|t rest IH]; intros fe wd;
    cbn [getNewConn_loop]; [reflexivity|].
  apply bind_ext.
  - unfold getNewConnUsingTarget.
    destruct (cfg_DialFunc (l_cfg l)); [reflexivity | congruence].
  - intros r wd1 _. destruct r; [reflexivity | apply IH].
Qed.

Lemma ensureConn_custom (l : Logger B) (wd : World) :
  cfg_DialFunc (l_cfg l) <> None ->
  ensureConn (withNetDial env d') l wd = ensureConn env l wd.
Proof.
  intros Hd. unfold ensureConn.
  destruct (l_w l); [reflexivity|]. destruct (l_closed l); [reflexivity|].
  apply bind_ext; [reflexivity|].
  intros waiting wd1 _. destruct waiting; [reflexivity|].
  apply bind_ext; [reflexivity|]. intros now wd2 _.
  destruct (NextDelay (cfg_ConnectBackoff (l_cfg l))) as [delay backoff].
  apply bind_ext; [reflexivity|]. intros _ wd3 _.
  apply bind_ext.
  - unfold getNewConn. apply getNewConn_loop_custom. exact Hd.
  - intros r wd4 _. destruct (snd r); reflexivity.
Qed.

Lemma ensureConn_keeps_dial (l : Logger B) (wd wd1 : World)
    (r : option error * Logger B) :
  ensureConn env l wd = (Ret r, wd1) ->
  cfg_DialFunc (l_cfg (snd r)) = cfg_DialFunc (l_cfg l).
Proof.
  intros He.
  pose proof (holds_run anyPanic _ _ wd wd1 r
                (ensureConn_holds env anyPanic (fun _ _ => I) l) He) as Hens.
  apply Hens.
Qed.

Lemma Write_loop_custom (msg : Message) (pri : Z) (ts : Time) (fuel : nat) :
  forall (i : Z) (l : Logger B) (wd : World),
    cfg_DialFunc (l_cfg l) <> None ->
    Write_loop (withNetDial env d') fuel i l msg pri ts wd
    = Write_loop env fuel i l msg pri ts wd.
Proof.
  induction fuel as [|fuel IH]; intros i l wd Hd; [reflexivity|].
  cbn [Write_loop]. destruct (l_w l) as [w|] eqn:Hw; [|reflexivity].
  apply bind_ext; [reflexivity|]. intros r wd1 _.
  destruct (fst r) as [err|]; [|reflexivity].
  destruct (0 <? i); [reflexivity|].
  apply bind_ext; [reflexivity|]. intros l3 wd2 Hl3.
  pose proof (holds_run anyPanic _ _ wd1 wd2 l3
                (destroyConn_holds anyPanic (set_fmtr l (snd r))) Hl3) as ->.
  apply bind_ext; [apply ensureConn_custom; exact Hd|].
  intros r2 wd3 He. destruct (fst r2); [reflexivity|].
  apply IH. rewrite (ensureConn_keeps_dial _ _ _ _ He). exact Hd.
Qed.

Lemma Write_custom (l : Logger B) (msg : Message) (wd : World) :
  cfg_DialFunc (l_cfg l) <> None ->
  Write (withNetDial env d') l msg wd = Write env l msg wd.
Proof.
  intros Hd. unfold Write.
  apply bind_ext; [apply ensureConn_custom; exact Hd|].
  intros r wd1 He. destruct (fst r); [reflexivity|].
  apply bind_ext; [destruct (IsZero (m_Time msg)); reflexivity|].
  intros ts wd2 _. apply Write_loop_custom.
  rewrite (ensureConn_keeps_dial _ _ _ _ He). exact Hd.
Qed.

Lemma step_keeps_dial (l : Logger B) (o : op) (wd wd1 : World)
    (r : option error * Logger B) :
  step env l o wd = (Ret r, wd1) ->
  cfg_DialFunc (l_cfg (snd r)) = cfg_DialFunc (l_cfg l).
Proof.
  intros Hs. destruct o as [msg|]; simpl in Hs.
  - pose proof (holds_run anyPanic _ _ wd wd1 r
                  (Write_holds env anyPanic (fun _ _ => I) l msg (or_intror I))
                  Hs) as [Hk _].
    apply Hk.
  - pose proof (holds_run anyPanic _ _ wd wd1 r (Close_holds anyPanic l) Hs)
      as [_ ->].
    reflexivity.
Qed.

Lemma runOps_custom (ops : list op) :
  forall (l : Logger B) (wd : World),
    cfg_DialFunc (l_cfg l) <> None ->
    runOps (withNetDial env d') l ops wd = runOps env l ops wd.
Proof.
  induction ops as [|o ops IH]; intros l wd Hd; cbn [runOps]; [reflexivity|].
  apply bind_ext.
  - destruct o as [msg|]; simpl; [apply Write_custom; exact Hd | reflexivity].
  - intros r wd1 Hs. apply bind_ext; [|reflexivity].
    apply IH. rewrite (step_keeps_dial _ _ _ _ _ Hs). exact Hd.
Qed.

End CustomDialer.

(** X20. A logger with a configured [DialFunc] never uses the default
    network dialer: whatever that dialer would answer, every sequence of
    [Write] and [Close] calls gives the same answers, the same logger and
    the same trace of dials and writes. ([getNewConnUsingTarget] consults
    the default dialer only when [DialFunc] is nil, and no call changes
    [DialFunc].) *)
Theorem custom_dialer_only {B : Type} `{BackoffPolicy B} (env : Env)
    (d1 : dialFunc) (l : Logger B) :
  cfg_DialFunc (l_cfg l) <> None ->
  forall ops wd,
    runOps (withNetDial env d1) l ops wd = runOps env l ops wd.
Proof.
  intros Hd ops wd. apply runOps_custom. exact Hd.
Qed.

Lemma custom_dialer_only_witness :
  let l := set_cfg sampleLogger
             (mkConfig ProtocolAuto FramingAuto BOMModeAuto 0%nat
                       (Some (fun n _ _ => inl (mkConn (10 + n) None)))
                       [] [] [] (str "ProcName")) in
  runOps (withNetDial (sampleEnv never never)
                      (fun _ _ _ => inr (errExternal 1)))
         l [OpWrite sampleMessage; OpClose] world0
  = runOps (sampleEnv never never) l [OpWrite sampleMessage; OpClose] world0.
Proof.
  intros l.
  assert (cfg_DialFunc (l_cfg l) <> None) as Hd by discriminate.
  pose proof (custom_dialer_only (sampleEnv never never)
                (fun _ _ _ => inr (errExternal 1)) l Hd
                [OpWrite sampleMessage; OpClose] world0) as Hrun.
  exact Hrun.
Defined.
